(** * AgenticVerifier: the AutoPresent runner, evaluation dispatcher and
    result aggregator

    A shallow embedding of

      - [src/runners/autopresent.py]            (task loader and scheduler),
      - [src/evaluators/autopresent/evaluate.py] (evaluation dispatcher),
      - [src/evaluators/autopresent/gather.py]   (round aggregator),

    followed by the properties of the specification that concern them.

    Conventions of the embedding.
      - Python [str] is [string], a sequence of code points below 256; the
        string methods used by the sources ([in], [split], [replace],
        [isdigit], [startswith], ...) are written out below.
      - Python [float] is the binary64 of the kernel ([PrimFloat.float]),
        with its NaN, infinities and signed zeros; Python [int] is [Z]. A
        number is one or the other, and the arithmetic between them is
        Python's.
      - A raised exception is a value [Raise e] of the type [result].
      - The file system is a finite map from path strings to nodes. *)

From Stdlib Require Import QArith Ascii String DecimalString Sorted Floats.
From stdpp Require Import base option list gmap strings.

Local Open Scope stdpp_scope.

(** ** Python exceptions and fallible computations *)

Inductive exn : Type :=
  | IndexError
  | ValueError
  | KeyError (key : string)
  | TypeError
  | ZeroDivisionError
  | OverflowError
  | FileNotFoundError (path : string)
  | JSONDecodeError
  | PackageNotFoundError (path : string)
  | OSError (message : string)
  | SystemExit (status : nat).

Inductive result (A : Type) : Type :=
  | Ok (a : A)
  | Raise (e : exn).
Arguments Ok {A} a.
Arguments Raise {A} e.

Definition rbind {A B : Type} (m : result A) (k : A -> result B) : result B :=
  match m with
  | Ok a => k a
  | Raise e => Raise e
  end.

Notation "x <-! m ; k" := (rbind m (fun x => k))
  (at level 100, m at next level, k at level 200, right associativity).

Definition of_option {A : Type} (o : option A) (e : exn) : result A :=
  match o with
  | Some a => Ok a
  | None => Raise e
  end.

(** A list comprehension whose element expression may raise: the first
    exception, in list order, is the one raised. *)
Fixpoint rmapM {A B : Type} (f : A -> result B) (l : list A) : result (list B) :=
  match l with
  | [] => Ok []
  | x :: rest => y <-! f x; ys <-! rmapM f rest; Ok (y :: ys)
  end.

(** ** Python numbers *)

Abbreviation binary64 := PrimFloat.float.

Module Num.

(** An [int] or a [float]. *)
Inductive number : Type :=
  | Int (z : Z)
  | Float (x : binary64).

(** What [v * 20] evaluates to for a decoded JSON value [v] that can be
    multiplied: a number, or the [str] or [list] repeated 20 times. *)
Inductive product : Type :=
  | Number (n : number)
  | Repeated.

(** A correctly rounded result as a [float]; Python raises
    [OverflowError] where the rounding leaves the finite range. *)
Definition finite_or_overflow (s : spec_float) : result binary64 :=
  match s with
  | S754_infinity _ => Raise OverflowError
  | _ => Ok (SF2Prim s)
  end.

(** The conversion of an [int] operand to [float]: to the nearest, ties
    to even. *)
Definition float_of_int (z : Z) : result binary64 :=
  finite_or_overflow (binary_normalize prec emax z 0 false).

Definition exact (z : Z) : spec_float :=
  match z with
  | Z0 => S754_zero false
  | Zpos m => S754_finite false m 0
  | Zneg m => S754_finite true m 0
  end.

(** [a / b] on two [int]s: the quotient of the integers, rounded once. *)
Definition int_true_divide (a b : Z) : result binary64 :=
  if (b =? 0)%Z then Raise ZeroDivisionError
  else finite_or_overflow (SFdiv prec emax (exact a) (exact b)).

(** [a + b] on numbers: exact on two [int]s, the binary64 sum otherwise,
    an [int] operand being converted first. *)
Definition add (a b : number) : result number :=
  match a, b with
  | Int x, Int y => Ok (Int (x + y))
  | Float x, Float y => Ok (Float (x + y))
  | Int x, Float y => x' <-! float_of_int x; Ok (Float (x' + y))
  | Float x, Int y => y' <-! float_of_int y; Ok (Float (x + y'))
  end.

(** [a + b] where [a] is a number and [b] a product: a number added to a
    [str] or a [list] raises [TypeError]. *)
Definition add_product (a : number) (b : product) : result number :=
  match b with
  | Number n => add a n
  | Repeated => Raise TypeError
  end.

(** [a / n] for a number [a] and an [int] [n]. *)
Definition true_divide (a : number) (n : Z) : result binary64 :=
  match a with
  | Int z => int_true_divide z n
  | Float x =>
      y <-! float_of_int n;
      if (y =? 0)%float then Raise ZeroDivisionError else Ok (x / y)%float
  end.

(** [x > y] on two [float]s: false as soon as one of them is NaN. *)
Definition gt (x y : binary64) : bool := (y <? x)%float.


End Num.

Export Num (number, Int, Float, product, Number, Repeated).

(** ** Python string operations *)

Module Str.

(** [s.startswith(p)] *)
Definition startswith (s p : string) : bool := String.prefix p s.

(** [sub in s] *)
Fixpoint contains (sub s : string) : bool :=
  String.prefix sub s ||
  match s with
  | EmptyString => false
  | String _ s' => contains sub s'
  end.

(** [s.endswith(p)] *)
Definition endswith (s p : string) : bool :=
  String.prefix (String.rev p) (String.rev s).

(** [s.split(sep)] for a non-empty [sep]: occurrences are found from the
    left and do not overlap. [skip] counts the characters of the
    occurrence just found that are still to be dropped, [cur] is the
    piece being collected. *)
Fixpoint split_go (sep : string) (skip : nat) (cur : string) (s : string)
  : list string :=
  match s with
  | EmptyString => [cur]
  | String c s' =>
      match skip with
      | S k => split_go sep k cur s'
      | O =>
          if String.prefix sep s
          then cur :: split_go sep (String.length sep - 1) "" s'
          else split_go sep 0 (cur +:+ String c "") s'
      end
  end.

Definition split (s sep : string) : list string := split_go sep 0 "" s.

(** [s.replace(old, new)] for a non-empty [old]. *)
Fixpoint replace_go (old new : string) (skip : nat) (s : string) : string :=
  match s with
  | EmptyString => ""
  | String c s' =>
      match skip with
      | S k => replace_go old new k s'
      | O =>
          if String.prefix old s
          then new +:+ replace_go old new (String.length old - 1) s'
          else String c (replace_go old new 0 s')
      end
  end.

Definition replace (s old new : string) : string := replace_go old new 0 s.

(** A decimal digit, [0] to [9]. *)
Definition is_decimal (c : ascii) : bool :=
  let n := nat_of_ascii c in (48 <=? n)%nat && (n <=? 57)%nat.

(** A character [str.isdigit] accepts: below 256 these are the decimal
    digits and the superscripts two, three and one (178, 179 and 185). *)
Definition is_digit (c : ascii) : bool :=
  let n := nat_of_ascii c in
  is_decimal c || (n =? 178)%nat || (n =? 179)%nat || (n =? 185)%nat.

Fixpoint all_digits (s : string) : bool :=
  match s with
  | EmptyString => true
  | String c s' => is_digit c && all_digits s'
  end.

(** [s.isdigit()] *)
Definition isdigit (s : string) : bool :=
  match s with
  | EmptyString => false
  | _ => all_digits s
  end.

Fixpoint all_decimal (s : string) : bool :=
  match s with
  | EmptyString => true
  | String c s' => is_decimal c && all_decimal s'
  end.

(** [s.isdecimal()] *)
Definition isdecimal (s : string) : bool :=
  match s with
  | EmptyString => false
  | _ => all_decimal s
  end.

Fixpoint int_go (acc : nat) (s : string) : nat :=
  match s with
  | EmptyString => acc
  | String c s' => int_go (10 * acc + (nat_of_ascii c - 48)) s'
  end.

(** The value of [int(s)] for a string of decimal digits. *)
Definition int (s : string) : nat := int_go 0 s.

(** [int(s)] for a string [s] that [isdigit] accepts: a superscript is a
    digit and no decimal, and [int] raises [ValueError] on it. *)
Definition int_of_digits (s : string) : result nat :=
  if isdecimal s then Ok (int s) else Raise ValueError.

(** [str(n)] for a non-negative integer. *)
Definition of_nat (n : nat) : string := NilZero.string_of_uint (Nat.to_uint n).

(** [str(z)] for an integer. *)
Definition of_Z (z : Z) : string := NilZero.string_of_int (Z.to_int z).

(** [s.split(sep)[-1]] *)
Definition last_piece (s sep : string) : string := List.last (split s sep) "".

(** The last index at which [c] occurs in [s], counted from 1 (0: none);
    [s.rfind(c) + 1]. *)
Fixpoint rfind1_go (c : ascii) (i best : nat) (s : string) : nat :=
  match s with
  | EmptyString => best
  | String d s' =>
      rfind1_go c (S i) (if Ascii.eqb c d then S i else best) s'
  end.

Definition rfind1 (c : ascii) (s : string) : nat := rfind1_go c 0 0 s.

Fixpoint rstrip_char (c : ascii) (rev_s : string) : string :=
  match rev_s with
  | String d s' => if Ascii.eqb c d then rstrip_char c s' else rev_s
  | EmptyString => ""
  end.

(** [s.rstrip(c)] *)
Definition rstrip (s : string) (c : ascii) : string :=
  String.rev (rstrip_char c (String.rev s)).

End Str.

(** ** Paths: [os.path] on POSIX *)

Module Path.

(** One step of [posixpath.join]. *)
Definition join2 (path b : string) : string :=
  if Str.startswith b "/" then b
  else if String.eqb path "" || Str.endswith path "/" then path +:+ b
  else path +:+ "/" +:+ b.

(** [os.path.join(a, *p)] *)
Definition join (a : string) (p : list string) : string :=
  foldl join2 a p.

(** [os.path.dirname(p)]: the head up to the last slash, with trailing
    slashes removed unless the head consists of slashes only. *)
Definition dirname (p : string) : string :=
  let i := Str.rfind1 "/"%char p in
  let head := String.substring 0 i p in
  let stripped := Str.rstrip head "/"%char in
  if String.eqb stripped "" then head else stripped.

(** [os.path.basename(p)]: what follows the last slash. *)
Definition basename (p : string) : string := Str.last_piece p "/".

End Path.

(** ** The file system *)

Inductive node : Type :=
  | File (content : string)
  | Dir (entries : list string).

Abbreviation filesystem := (gmap string node).

Module FS.

(** [os.path.exists(p)] *)
Definition exists_ (fs : filesystem) (p : string) : bool :=
  bool_decide (is_Some (fs !! p)).

(** [open(p, 'r').read()] *)
Definition read (fs : filesystem) (p : string) : result string :=
  match fs !! p with
  | Some (File c) => Ok c
  | _ => Raise (FileNotFoundError p)
  end.

(** [os.listdir(p)] *)
Definition listdir (fs : filesystem) (p : string) : result (list string) :=
  match fs !! p with
  | Some (Dir es) => Ok es
  | _ => Raise (FileNotFoundError p)
  end.

(** The entries of a directory once it holds [name]. *)
Definition with_entry (name : string) (entries : list string) : list string :=
  if bool_decide (name ∈ entries) then entries else entries ++ [name].

(** A program writing the file [p]: the file holds [content] afterwards,
    and the directory it lies in lists its name. A path that names a
    directory cannot be written, and nothing changes. *)
Definition write (fs : filesystem) (p content : string) : filesystem :=
  match fs !! p with
  | Some (Dir _) => fs
  | _ =>
      let fs' := <[p := File content]> fs in
      match fs !! Path.dirname p with
      | Some (Dir entries) =>
          <[Path.dirname p := Dir (with_entry (Path.basename p) entries)]> fs'
      | _ => fs'
      end
  end.

End FS.

(** ** Decoded JSON documents *)

Local Set Warnings "-register-all".

(** What [json.load] returns: an integer literal is an [int], a literal
    with a fraction or an exponent (and [NaN], [Infinity]) a [float]. *)
Inductive json : Type :=
  | JNull
  | JBool (b : bool)
  | JInt (z : Z)
  | JFloat (x : binary64)
  | JStr (s : string)
  | JArr (items : list json)
  | JObj (members : list (string * json)).

Fixpoint assoc (k : string) (kvs : list (string * json)) : option json :=
  match kvs with
  | [] => None
  | (k', v) :: rest => if String.eqb k k' then Some v else assoc k rest
  end.

(** [d[key]] on a decoded document ([members] lists the keys of the
    resulting dict, each once). *)
Definition getitem (d : json) (key : string) : result json :=
  match d with
  | JObj kvs => of_option (assoc key kvs) (KeyError key)
  | _ => Raise TypeError
  end.

(** [v * 20]: the product of two numbers ([True] is 1 and [False] 0), a
    [str] or a [list] repeated, [TypeError] on [None] and on a dict. *)
Definition times20 (v : json) : result product :=
  match v with
  | JInt z => Ok (Number (Int (z * 20)))
  | JFloat x => Ok (Number (Float (x * 20)))
  | JBool b => Ok (Number (Int (if b then 20 else 0)))
  | JStr _ | JArr _ => Ok Repeated
  | JNull | JObj _ => Raise TypeError
  end.


Definition newline : string := String (ascii_of_nat 10) "".

Definition categories : list string :=
  ["art_photos"; "business"; "design"; "entrepreneur"; "environment";
   "food"; "marketing"; "social_media"; "technology"].

(** ** [evaluators/autopresent/gather.py] *)

Module Gather.

(** A dict with the keys [match], [text], [color] and [position]. *)
Record ref_eval (A : Type) : Type := mk_ref_eval
  { re_match : A; re_text : A; re_color : A; re_position : A }.
Arguments mk_ref_eval {A} _ _ _ _.
Arguments re_match {A} _.
Arguments re_text {A} _.
Arguments re_color {A} _.
Arguments re_position {A} _.

(** A dict with the keys [text], [image], [layout] and [color]. *)
Record ref_free_eval (A : Type) : Type := mk_ref_free_eval
  { rf_text : A; rf_image : A; rf_layout : A; rf_color : A }.
Arguments mk_ref_free_eval {A} _ _ _ _.
Arguments rf_text {A} _.
Arguments rf_image {A} _.
Arguments rf_layout {A} _.
Arguments rf_color {A} _.

(** [{'match': 0, 'text': 0, 'color': 0, 'position': 0}] *)
Definition ref_eval_zero : ref_eval number :=
  mk_ref_eval (Int 0) (Int 0) (Int 0) (Int 0).
(** [{'text': 0, 'image': 0, 'layout': 0, 'color': 0}] *)
Definition ref_free_zero : ref_free_eval number :=
  mk_ref_free_eval (Int 0) (Int 0) (Int 0) (Int 0).

(** The values of a dict of numbers as operands of any type. *)
Definition as_products (f : ref_free_eval number) : ref_free_eval product :=
  mk_ref_free_eval (Number (rf_text f)) (Number (rf_image f))
                   (Number (rf_layout f)) (Number (rf_color f)).

(** The four variables of the best-round search (lines 34-37). The
    score starts as the [int] -1 and is compared with [float]s only;
    Python compares the two by value, and -1.0 has the value of -1. *)
Record best : Type := mk_best
  { best_round_score : binary64;
    best_round_ref_eval : option (ref_eval number);
    best_round_ref_free_eval : option (ref_free_eval product);
    best_round_num : option nat }.

Definition best_init : best := mk_best (-1)%float None None None.

(** The accumulators of [gather_results] (lines 16-19). *)
Record totals : Type := mk_totals
  { ref_eval_result : ref_eval number;
    ref_free_eval_result : ref_free_eval number;
    fail_num : nat;
    total_num : nat }.

Definition totals_init : totals :=
  mk_totals ref_eval_zero ref_free_zero 0 0.

(** What a call of [gather_results] returns, with the three figures it
    prints on the way. *)
Record outcome : Type := mk_outcome
  { printed_success_rate : binary64;
    printed_total : nat;
    printed_failed : nat;
    ret_ref_eval : ref_eval number;
    ret_ref_free_eval : ref_free_eval number;
    ret_overall_score : binary64 }.

(** The sum of lines 77-80 and 145-148, added from left to right. *)
Definition sum8 (r : ref_eval number) (f : ref_free_eval product)
  : result number :=
  s <-! Num.add (re_match r) (re_text r);
  s <-! Num.add s (re_color r);
  s <-! Num.add s (re_position r);
  s <-! Num.add_product s (rf_text f);
  s <-! Num.add_product s (rf_image f);
  s <-! Num.add_product s (rf_layout f);
  Num.add_product s (rf_color f).

(** Lines 77-80 and 145-148. *)
Definition mean8 (r : ref_eval number) (f : ref_free_eval product)
  : result binary64 :=
  s <-! sum8 r f;
  Num.true_divide s 8.

(** Lines 94-95. *)
Definition ref_eval_add (a b : ref_eval number) : result (ref_eval number) :=
  m <-! Num.add (re_match a) (re_match b);
  t <-! Num.add (re_text a) (re_text b);
  c <-! Num.add (re_color a) (re_color b);
  p <-! Num.add (re_position a) (re_position b);
  Ok (mk_ref_eval m t c p).

(** Lines 96-97. *)
Definition ref_free_add (a : ref_free_eval number) (b : ref_free_eval product)
  : result (ref_free_eval number) :=
  t <-! Num.add_product (rf_text a) (rf_text b);
  i <-! Num.add_product (rf_image a) (rf_image b);
  l <-! Num.add_product (rf_layout a) (rf_layout b);
  c <-! Num.add_product (rf_color a) (rf_color b);
  Ok (mk_ref_free_eval t i l c).

(** Lines 132-133. *)
Definition ref_eval_div (a : ref_eval number) (n : Z)
  : result (ref_eval number) :=
  m <-! Num.true_divide (re_match a) n;
  t <-! Num.true_divide (re_text a) n;
  c <-! Num.true_divide (re_color a) n;
  p <-! Num.true_divide (re_position a) n;
  Ok (mk_ref_eval (Float m) (Float t) (Float c) (Float p)).

(** Lines 134-135. *)
Definition ref_free_div (a : ref_free_eval number) (n : Z)
  : result (ref_free_eval number) :=
  t <-! Num.true_divide (rf_text a) n;
  i <-! Num.true_divide (rf_image a) n;
  l <-! Num.true_divide (rf_layout a) n;
  c <-! Num.true_divide (rf_color a) n;
  Ok (mk_ref_free_eval (Float t) (Float i) (Float l) (Float c)).

(** Lines 77-87: the score of the round is computed, and the incumbent
    is replaced when the score is greater. *)
Definition consider (st : best) (round_num : nat)
    (round_ref_eval : ref_eval number)
    (round_ref_free_eval : ref_free_eval product) : result best :=
  round_score <-! mean8 round_ref_eval round_ref_free_eval;
  Ok (if Num.gt round_score (best_round_score st)
      then mk_best round_score (Some round_ref_eval)
                   (Some round_ref_free_eval) (Some round_num)
      else st).

(** The four metrics of the reference-based report, each with the
    substring that selects its line. *)
Inductive metric : Type := Match | Text | Color | Position.

Definition keyword (m : metric) : string :=
  match m with
  | Match => "match"
  | Text => "text"
  | Color => "color"
  | Position => "position"
  end.

Definition get_metric {A : Type} (m : metric) (r : ref_eval A) : A :=
  match m with
  | Match => re_match r
  | Text => re_text r
  | Color => re_color r
  | Position => re_position r
  end.

Definition set_metric {A : Type} (m : metric) (v : A) (r : ref_eval A)
  : ref_eval A :=
  match m with
  | Match => mk_ref_eval v (re_text r) (re_color r) (re_position r)
  | Text => mk_ref_eval (re_match r) v (re_color r) (re_position r)
  | Color => mk_ref_eval (re_match r) (re_text r) v (re_position r)
  | Position => mk_ref_eval (re_match r) (re_text r) (re_color r) v
  end.

(** A line is unambiguous when it contains at most one of the four
    substrings. *)
Definition unambiguous (line : string) : Prop :=
  forall m1 m2, Str.contains (keyword m1) line = true ->
                Str.contains (keyword m2) line = true -> m1 = m2.

Definition mentions_metric (line : string) : Prop :=
  exists m, Str.contains (keyword m) line = true.

Definition ref_based_name : string := "ref_based.txt".
Definition ref_free_name : string := "ref_free.json".

(** Line 22. *)
Definition slide_path (name : string) : string :=
  Path.join "data/autopresent/examples" [name; name +:+ ".pptx"].

(** Line 31. *)
Definition slide_dir (test_id name : string) (slide_num : nat) : string :=
  Path.join ("output/autopresent/" +:+ test_id)
            [name; "slide_" +:+ Str.of_nat slide_num].

Section WithLibraries.

(** The library functions the aggregator calls: [float(s)] ([None]: it
    raises [ValueError]), [json.load] on the text of a file, and
    [len(Presentation(path).slides)] on the content of a deck. *)
Variable float : string -> option binary64.
Variable json_load : string -> option json.
Variable pptx_slides : string -> option nat.

(** [float(result.split(': ')[1])] *)
Definition float_field (line : string) : result number :=
  piece <-! of_option (Str.split line ": " !! 1%nat) IndexError;
  x <-! of_option (float piece) ValueError;
  Ok (Float x).

(** Lines 59-66: one line of the reference-based report. *)
Definition parse_line (r : ref_eval number) (line : string)
  : result (ref_eval number) :=
  if Str.contains "match" line then
    v <-! float_field line;
    Ok (mk_ref_eval v (re_text r) (re_color r) (re_position r))
  else if Str.contains "text" line then
    v <-! float_field line;
    Ok (mk_ref_eval (re_match r) v (re_color r) (re_position r))
  else if Str.contains "color" line then
    v <-! float_field line;
    Ok (mk_ref_eval (re_match r) (re_text r) v (re_position r))
  else if Str.contains "position" line then
    v <-! float_field line;
    Ok (mk_ref_eval (re_match r) (re_text r) (re_color r) v)
  else Ok r.

Fixpoint parse_lines (r : ref_eval number) (lines : list string)
  : result (ref_eval number) :=
  match lines with
  | [] => Ok r
  | line :: rest => r' <-! parse_line r line; parse_lines r' rest
  end.

(** Lines 55-66. *)
Definition read_ref_based (fs : filesystem) (ref_eval_path : string)
  : result (ref_eval number) :=
  current_ref_eval_result <-! FS.read fs ref_eval_path;
  parse_lines ref_eval_zero (Str.split current_ref_eval_result newline).

(** [current_ref_free_eval_result[key]['score'] * 20] *)
Definition score20 (doc : json) (key : string) : result product :=
  entry <-! getitem doc key;
  score <-! getitem entry "score";
  times20 score.

(** Lines 69-74. *)
Definition read_ref_free (fs : filesystem) (ref_free_eval_path : string)
  : result (ref_free_eval product) :=
  text <-! FS.read fs ref_free_eval_path;
  doc <-! of_option (json_load text) JSONDecodeError;
  t <-! score20 doc "text";
  i <-! score20 doc "image";
  l <-! score20 doc "layout";
  c <-! score20 doc "color";
  Ok (mk_ref_free_eval t i l c).

(** Lines 41-49: the round directory and both reports are on disk. *)
Definition round_complete (fs : filesystem) (slide_dir : string)
    (round_num : nat) : bool :=
  let round_dir := Path.join slide_dir [Str.of_nat round_num] in
  FS.exists_ fs round_dir
  && (FS.exists_ fs (Path.join round_dir [ref_based_name])
      && FS.exists_ fs (Path.join round_dir [ref_free_name])).

(** The reports of round [round_num] as the scan reads them: [None] for a
    round that is skipped, the two parsed reports for a complete one. *)
Definition load_round (fs : filesystem) (slide_dir : string) (round_num : nat)
  : result (option (ref_eval number * ref_free_eval product)) :=
  if round_complete fs slide_dir round_num then
    let round_dir := Path.join slide_dir [Str.of_nat round_num] in
    re <-! read_ref_based fs (Path.join round_dir [ref_based_name]);
    rf <-! read_ref_free fs (Path.join round_dir [ref_free_name]);
    Ok (Some (re, rf))
  else Ok None.

(** The composite score of round [round_num] as the scan computes it:
    [None] for a round that is skipped. *)
Definition round_score (fs : filesystem) (slide_dir : string) (round_num : nat)
  : result (option binary64) :=
  reports <-! load_round fs slide_dir round_num;
  match reports with
  | Some (re, rf) => s <-! mean8 re rf; Ok (Some s)
  | None => Ok None
  end.

(** Lines 41-87: the body of the loop over the rounds. *)
Definition scan_round (fs : filesystem) (slide_dir : string)
    (st : best) (round_num : nat) : result best :=
  let round_dir := Path.join slide_dir [Str.of_nat round_num] in
  if negb (FS.exists_ fs round_dir) then Ok st
  else
    let ref_eval_path := Path.join round_dir [ref_based_name] in
    let ref_free_eval_path := Path.join round_dir [ref_free_name] in
    if FS.exists_ fs ref_eval_path && FS.exists_ fs ref_free_eval_path then
      round_ref_eval <-! read_ref_based fs ref_eval_path;
      round_ref_free_eval <-! read_ref_free fs ref_free_eval_path;
      consider st round_num round_ref_eval round_ref_free_eval
    else Ok st.

Fixpoint scan_rounds (fs : filesystem) (slide_dir : string)
    (st : best) (rounds : list nat) : result best :=
  match rounds with
  | [] => Ok st
  | k :: ks => st' <-! scan_round fs slide_dir st k;
               scan_rounds fs slide_dir st' ks
  end.

(** Lines 34-87: [for round_num in range(1, 11)]. *)
Definition find_best_round (fs : filesystem) (slide_dir : string)
  : result best :=
  scan_rounds fs slide_dir best_init (seq 1 10).

(** Lines 31-128: one slide of one deck. *)
Definition gather_slide (fs : filesystem) (test_id name : string)
    (acc : totals) (slide_num : nat) : result totals :=
  st <-! find_best_round fs (slide_dir test_id name slide_num);
  match best_round_num st with
  | Some _ =>
      r <-! of_option (best_round_ref_eval st) TypeError;
      sums_r <-! ref_eval_add (ref_eval_result acc) r;
      f <-! of_option (best_round_ref_free_eval st) TypeError;
      sums_f <-! ref_free_add (ref_free_eval_result acc) f;
      Ok (mk_totals sums_r sums_f (fail_num acc) (S (total_num acc)))
  | None =>
      Ok (mk_totals (ref_eval_result acc) (ref_free_eval_result acc)
                    (S (fail_num acc)) (S (total_num acc)))
  end.

Fixpoint gather_slides (fs : filesystem) (test_id name : string)
    (acc : totals) (slide_nums : list nat) : result totals :=
  match slide_nums with
  | [] => Ok acc
  | n :: ns => acc' <-! gather_slide fs test_id name acc n;
               gather_slides fs test_id name acc' ns
  end.

(** Lines 22-128: one category. *)
Definition gather_name (fs : filesystem) (test_id : string)
    (acc : totals) (name : string) : result totals :=
  if negb (FS.exists_ fs (slide_path name)) then Ok acc
  else
    deck <-! FS.read fs (slide_path name);
    pages_num <-! of_option (pptx_slides deck)
                            (PackageNotFoundError (slide_path name));
    gather_slides fs test_id name acc (seq 1 pages_num).

Fixpoint gather_names (fs : filesystem) (test_id : string)
    (acc : totals) (names : list string) : result totals :=
  match names with
  | [] => Ok acc
  | name :: rest => acc' <-! gather_name fs test_id acc name;
                    gather_names fs test_id acc' rest
  end.

(** Lines 131-135: the sums become averages when an item was seen. *)
Definition averages (acc : totals)
  : result (ref_eval number * ref_free_eval number) :=
  if (0 <? total_num acc)%nat then
    r <-! ref_eval_div (ref_eval_result acc) (Z.of_nat (total_num acc));
    f <-! ref_free_div (ref_free_eval_result acc) (Z.of_nat (total_num acc));
    Ok (r, f)
  else Ok (ref_eval_result acc, ref_free_eval_result acc).

(** Line 139: [(total_num - fail_num) / total_num]. *)
Definition success_rate (acc : totals) : result binary64 :=
  Num.int_true_divide (Z.of_nat (total_num acc) - Z.of_nat (fail_num acc))
                      (Z.of_nat (total_num acc)).

(** Lines 131-151. *)
Definition report (acc : totals) : result outcome :=
  avg <-! averages acc;
  let '(r, f) := avg in
  rate <-! success_rate acc;
  overall_score <-! mean8 r (as_products f);
  Ok (mk_outcome rate (total_num acc) (fail_num acc) r f overall_score).

Definition names_of (slide_name : string) : list string :=
  if String.eqb slide_name "all" then categories else [slide_name].

Definition gather_results (fs : filesystem) (test_id slide_name : string)
  : result outcome :=
  acc <-! gather_names fs test_id totals_init (names_of slide_name);
  report acc.

End WithLibraries.

End Gather.

(** ** [evaluators/autopresent/evaluate.py] *)

Module Evaluate.

Definition ref_based_name : string := "ref_based.txt".
Definition ref_free_name : string := "ref_free.txt".

(** [sorted(files, key=lambda x: int(x), reverse=True)]: descending, and
    entries with equal keys keep their order. *)
Fixpoint insert_desc (x : string) (l : list string) : list string :=
  match l with
  | [] => [x]
  | y :: l' =>
      if (Str.int x <? Str.int y)%nat then y :: insert_desc x l' else x :: l
  end.

Definition sorted_desc (files : list string) : list string :=
  foldr insert_desc [] files.

(** Line 27: the keys are computed first, and [int] raises [ValueError]
    on the first name that is no decimal numeral. *)
Definition sorted_by_int (files : list string) : result (list string) :=
  _ <-! rmapM Str.int_of_digits files;
  Ok (sorted_desc files).

Section WithScorers.

(** Modelled from the spec: [evaluators/autopresent/page_eval.py], the
    reference-based scorer, is an opaque program that writes a text
    report to the path given as [--output_path]. The function gives the
    text written from the file system and the arguments [reference_pptx],
    [generated_pptx] and [reference_page]; [None] when the program
    writes nothing. *)
Variable page_eval : filesystem -> string -> string -> nat -> option string.

(** Modelled from the spec: [evaluators/autopresent/reference_free_eval.py],
    the reference-free scorer, is an opaque program that writes a JSON
    report to the path given as [--response_path] from the image at
    [--image_path]; [None] when it writes nothing. *)
Variable reference_free_eval : filesystem -> string -> option string.

Definition run_scorer (fs : filesystem) (out_path : string)
    (written : option string) : filesystem :=
  match written with
  | Some text => FS.write fs out_path text
  | None => fs
  end.

(** Lines 30-60: the body of the loop over the round directories. *)
Definition evaluate_round (slide_name refine_path : string) (index : nat)
    (fs : filesystem) (file : string) : filesystem :=
  let pptx_path := Path.join refine_path [file +:+ "/refine.pptx"] in
  if FS.exists_ fs pptx_path then
    let ref_eval_path := Path.join (Path.dirname pptx_path) [ref_based_name] in
    let reference_pptx :=
      "data/autopresent/examples/" +:+ slide_name +:+ "/slide_"
        +:+ Str.of_nat index +:+ "/slide.pptx" in
    let fs1 :=
      run_scorer fs ref_eval_path
        (page_eval fs reference_pptx pptx_path index) in
    let jpg_path := Str.replace pptx_path ".pptx" ".jpg" in
    let ref_free_eval_path :=
      Path.join (Path.dirname pptx_path) [ref_free_name] in
    if FS.exists_ fs1 jpg_path then
      run_scorer fs1 ref_free_eval_path (reference_free_eval fs1 jpg_path)
    else fs1
  else fs.

(** [evaluate_single_slide(slide_dirs, index)]: the file system it
    leaves, with the index it returns or the exception it raises. The
    listing is guarded by the [try] of lines 19-25; the sort of line 27
    is not. *)
Definition evaluate_single_slide (fs : filesystem) (slide_dirs : string)
    (index : nat) : filesystem * result nat :=
  let slide_name := Str.last_piece slide_dirs "/" in
  let refine_path := Path.join2 slide_dirs ("slide_" +:+ Str.of_nat index) in
  match FS.listdir fs refine_path with
  | Raise _ => (fs, Ok index)
  | Ok entries =>
      match sorted_by_int (List.filter Str.isdigit entries) with
      | Raise e => (fs, Raise e)
      | Ok files =>
          (foldl (evaluate_round slide_name refine_path index) fs files,
           Ok index)
      end
  end.

End WithScorers.

End Evaluate.

(** ** [runners/autopresent.py] *)

Module Runner.

Record task_config : Type := mk_task_config
  { task_name : string;
    task_dir : string;
    init_code_path : string;
    init_image_path : string;
    target_description_path : string }.

(** The command-line arguments the runner reads after parsing. *)
Record args : Type := mk_args
  { dataset_path : string;
    output_dir : string;
    task : string;
    task_id : option string;
    max_rounds : Z;
    vision_model : string;
    slides_server_path : string;
    generator_script : string;
    verifier_script : string;
    image_server_path : string;
    max_workers : Z;
    sequential : bool }.

(** *** The task loader *)

(** [current_path.glob("slide_*")]: the entries of the directory whose
    name starts with [slide_], in listing order; nothing when the
    directory does not exist. *)
Definition glob_slide (fs : filesystem) (current_path : string) : list string :=
  match FS.listdir fs current_path with
  | Ok entries =>
      List.map (Path.join2 current_path)
               (List.filter (fun e => Str.startswith e "slide_") entries)
  | Raise _ => []
  end.

(** Lines 55-75: a candidate directory becomes a task when [start.py] and
    [instruction.txt] are present. *)
Definition candidate (fs : filesystem) (td : string * string)
  : option task_config :=
  let '(task_dir, task_name) := td in
  let start_code_path := Path.join2 task_dir "start.py" in
  let start_image_path := Path.join2 task_dir "start.jpg" in
  let target_description_file := Path.join2 task_dir "instruction.txt" in
  if negb (FS.exists_ fs start_code_path) then None
  else if negb (FS.exists_ fs target_description_file) then None
  else Some (mk_task_config task_name task_dir start_code_path
                            start_image_path target_description_file).

(** Lines 44-52. *)
Definition task_dirs (fs : filesystem) (base_path task_name : string)
    (task_id : option string) : list (string * string) :=
  let task_list :=
    if String.eqb task_name "all" then categories else [task_name] in
  match task_id with
  | Some id =>
      [(Path.join base_path [task_name; "slides_" +:+ id], task_name)]
  | None =>
      List.flat_map
        (fun task => List.map (fun task_dir => (task_dir, task))
                              (glob_slide fs (Path.join2 base_path task)))
        task_list
  end.

Definition load_autopresent_dataset (fs : filesystem)
    (base_path task_name : string) (task_id : option string)
  : list task_config :=
  if negb (FS.exists_ fs base_path) then []
  else omap (candidate fs) (task_dirs fs base_path task_name task_id).

(** Lines 225-240 of [main]: the tasks to dispatch, or [sys.exit(1)]. *)
Definition main_tasks (fs : filesystem) (a : args) : result (list task_config) :=
  let tasks := load_autopresent_dataset fs (dataset_path a) (task a) (task_id a) in
  match tasks with
  | [] => Raise (SystemExit 1)
  | _ =>
      let tasks :=
        if negb (String.eqb (task a) "all")
        then List.filter (fun t => String.eqb (task_name t) (task a)) tasks
        else tasks in
      match tasks with
      | [] => Raise (SystemExit 1)
      | _ => Ok tasks
      end
  end.

(** *** One task *)

(** What the child process does once started. *)
Inductive child : Type :=
  | Exits (returncode : Z) (seconds : Q)
  | Hangs
  | CannotRun (message : string).

(** How [subprocess.run(cmd, check=True, timeout=...)] ends. *)
Inductive run_end : Type :=
  | CompletedProcess
  | CalledProcessError (returncode : Z)
  | TimeoutExpired
  | OtherException (message : string).

(** [subprocess.run] with [check=True]: the child is waited for up to
    [timeout] seconds; at the deadline it is killed and [TimeoutExpired]
    is raised. The second component tells whether the child was killed. *)
Definition subprocess_run (timeout : Q) (c : child) : run_end * bool :=
  match c with
  | Exits returncode seconds =>
      if Qle_bool seconds timeout then
        if (returncode =? 0)%Z then (CompletedProcess, false)
        else (CalledProcessError returncode, false)
      else (TimeoutExpired, true)
  | Hangs => (TimeoutExpired, true)
  | CannotRun message => (OtherException message, false)
  end.

(** The tuple a task returns, with the line it prints last. *)
Record task_result : Type := mk_task_result
  { tr_task_name : string;
    tr_success : bool;
    tr_error_message : string;
    tr_printed : string }.

(** [(successful_tasks, failed_tasks, failed_task_details)] *)
Record tally : Type := mk_tally
  { successful_tasks : nat;
    failed_tasks : nat;
    failed_task_details : list (string * string) }.

Definition tally_init : tally := mk_tally 0 0 [].

(** [acc'] has one more success or one more failure than [acc], and not
    both. *)
Definition one_count_more (acc acc' : tally) : Prop :=
  (successful_tasks acc' = S (successful_tasks acc)
   /\ failed_tasks acc' = failed_tasks acc)
  \/ (successful_tasks acc' = successful_tasks acc
      /\ failed_tasks acc' = S (failed_tasks acc)).

Definition counted (t : tally) : nat :=
  (successful_tasks t + failed_tasks t)%nat.

Section WithHost.

(** The host: the value of [OPENAI_API_KEY] (line 19), the interpreter
    path, [str(Path(p))] of [pathlib], the outcome of
    [Path.mkdir(parents=True, exist_ok=True)] on a path ([None]: the
    directory exists afterwards; otherwise the message of the [OSError]
    raised), the behaviour of the child started by a command line, and
    the text of raised exceptions. *)
Variable api_key : option string.
Variable sys_executable : string.
Variable str_Path : string -> string.
Variable mkdir : string -> option string.
Variable spawn : list string -> child.
Variable str_CalledProcessError : list string -> Z -> string.
Variable str_exn : exn -> string.

(** Line 91. *)
Definition display_name (tc : task_config) : string :=
  task_name tc +:+ "/" +:+ Str.last_piece (task_dir tc) "/".

(** Line 97: [str(output_base)]. *)
Definition output_base (tc : task_config) (a : args) : string :=
  str_Path (output_dir a +:+ "/" +:+ display_name tc).

(** Lines 101-119. *)
Definition command (key : string) (tc : task_config) (a : args)
    (output_base : string) : list string :=
  [sys_executable; "main.py";
   "--mode"; "autopresent";
   "--vision-model"; vision_model a;
   "--api-key"; key;
   "--max-rounds"; Str.of_Z (max_rounds a);
   "--task-name"; task_name tc;
   "--init-code-path"; init_code_path tc;
   "--init-image-path"; init_image_path tc;
   "--target-description"; target_description_path tc;
   "--generator-script"; generator_script a;
   "--verifier-script"; verifier_script a;
   "--slides-server-path"; slides_server_path a;
   "--output-dir"; output_base;
   "--image-server-path"; image_server_path a].

(** Lines 91-121, the statements before the [try], which nothing guards:
    [mkdir] raises [OSError] when the output directory cannot be made,
    and with [OPENAI_API_KEY] unset the command line holds [None] and
    [' '.join(cmd)] on line 121 raises [TypeError]. *)
Definition prepare (tc : task_config) (a : args) : result (list string) :=
  match mkdir (output_base tc a) with
  | Some message => Raise (OSError message)
  | None =>
      key <-! of_option api_key TypeError;
      Ok (command key tc a (output_base tc a))
  end.

(** [run_autopresent_task(task_config, args)] *)
Definition run_autopresent_task (tc : task_config) (a : args)
  : result task_result :=
  let task_name := display_name tc in
  cmd <-! prepare tc a;
  match fst (subprocess_run 3600 (spawn cmd)) with
  | CompletedProcess =>
      Ok (mk_task_result task_name true ""
            ("Task completed successfully: " +:+ task_name))
  | CalledProcessError returncode =>
      let e := str_CalledProcessError cmd returncode in
      Ok (mk_task_result task_name false e
            ("Task failed: " +:+ task_name +:+ ", Error: " +:+ e))
  | TimeoutExpired =>
      Ok (mk_task_result task_name false "Timeout"
            ("Task timed out: " +:+ task_name))
  | OtherException message =>
      Ok (mk_task_result task_name false message
            ("Task failed with exception: " +:+ task_name
             +:+ ", Error: " +:+ message))
  end.

(** *** The scheduler *)

(** Lines 267-274 and 173-182: one returned tuple is counted. *)
Definition count_result (acc : tally) (r : task_result) : tally :=
  if tr_success r then
    mk_tally (S (successful_tasks acc)) (failed_tasks acc)
             (failed_task_details acc)
  else
    mk_tally (successful_tasks acc) (S (failed_tasks acc))
             (failed_task_details acc
              ++ [(tr_task_name r, tr_error_message r)]).

(** Lines 170-190: one completed future is collected; an exception
    raised by the task itself counts as a failure. *)
Definition collect_future (a : args) (acc : tally) (tc : task_config)
  : tally :=
  match run_autopresent_task tc a with
  | Ok r => count_result acc r
  | Raise e =>
      mk_tally (successful_tasks acc) (S (failed_tasks acc))
               (failed_task_details acc
                ++ [(Str.last_piece (task_dir tc) "/", str_exn e)])
  end.

(** The task ends in the success count: it returns and reports success. *)
Definition succeeded (a : args) (tc : task_config) : bool :=
  match run_autopresent_task tc a with
  | Ok r => tr_success r
  | Raise _ => false
  end.

(** [run_tasks_parallel(tasks, args, max_workers)]. [completion] is the
    order in which [as_completed] yields the futures, a permutation of
    [tasks]. [ThreadPoolExecutor] raises [ValueError] unless
    [max_workers] is positive. *)
Definition run_tasks_parallel (a : args) (max_workers : Z)
    (completion : list task_config) : result tally :=
  if (max_workers <=? 0)%Z then Raise ValueError
  else Ok (foldl (collect_future a) tally_init completion).

(** Lines 259-274: the sequential loop of [main]. *)
Fixpoint run_sequential (a : args) (acc : tally) (tasks : list task_config)
  : result tally :=
  match tasks with
  | [] => Ok acc
  | tc :: rest =>
      r <-! run_autopresent_task tc a;
      run_sequential a (count_result acc r) rest
  end.

(** Lines 256-279. *)
Definition run_tasks (a : args) (tasks completion : list task_config)
  : result tally :=
  if sequential a then run_sequential a tally_init tasks
  else run_tasks_parallel a (max_workers a) completion.

End WithHost.

End Runner.

(** ** [evaluators/autopresent/evaluate.py]: the slide indices of [main] *)

Module EvaluateMain.

(** [sorted(...)] on integers. *)
Fixpoint insert_asc (x : Z) (l : list Z) : list Z :=
  match l with
  | [] => [x]
  | y :: l' => if (y <=? x)%Z then y :: insert_asc x l' else x :: l
  end.

Definition sorted_asc (l : list Z) : list Z := foldr insert_asc [] l.

(** [slide_dir.split("_")[1]] *)
Definition index_of (slide_dir : string) : result string :=
  of_option (Str.split slide_dir "_" !! 1%nat) IndexError.

Section WithInt.

(** [int(index)]; [None]: it raises [ValueError]. *)
Variable int : string -> option Z.

(** Lines 72-77: the indices of the slides of one category, from the
    entries of its output directory. *)
Definition index_list (fs : filesystem) (test_id slide_name : string)
  : result (list Z) :=
  let slide_dirs := "output/autopresent/" +:+ test_id +:+ "/" +:+ slide_name in
  slides_dirs <-! FS.listdir fs slide_dirs;
  let slides_dirs :=
    List.filter (fun slide_dir => negb (Str.contains "." slide_dir)) slides_dirs in
  index_list <-! rmapM index_of slides_dirs;
  ints <-! rmapM (fun index => of_option (int index) ValueError) index_list;
  Ok (sorted_asc ints).

End WithInt.

End EvaluateMain.

(** ** Vocabulary of the further properties *)

(** The last character of a string. *)
Fixpoint last_char (s : string) : option ascii :=
  match s with
  | EmptyString => None
  | String c EmptyString => Some c
  | String _ s' => last_char s'
  end.

(** The number of slides the aggregator examines for the categories
    [names]: the slides of every deck that can be read. *)
Definition item_count (pptx_slides : string -> option nat) (fs : filesystem)
    (names : list string) : nat :=
  sum_list_with
    (fun name =>
       match FS.read fs (Gather.slide_path name) with
       | Ok deck => default 0%nat (pptx_slides deck)
       | Raise _ => 0%nat
       end)
    names.

(** The entry a task adds to [failed_task_details] when the scheduler
    collects it: none for a success. *)
Definition failure_detail (api_key : option string) (sys_executable : string)
    (str_Path : string -> string) (mkdir : string -> option string)
    (spawn : list string -> Runner.child)
    (str_CalledProcessError : list string -> Z -> string)
    (str_exn : exn -> string) (a : Runner.args) (tc : Runner.task_config)
  : list (string * string) :=
  match Runner.run_autopresent_task api_key sys_executable str_Path mkdir
                                    spawn str_CalledProcessError tc a with
  | Ok r =>
      if Runner.tr_success r then []
      else [(Runner.tr_task_name r, Runner.tr_error_message r)]
  | Raise e => [(Str.last_piece (Runner.task_dir tc) "/", str_exn e)]
  end.

(** What a task raises before its [try] when [OPENAI_API_KEY] is unset:
    the [OSError] of [mkdir] on line 98 when the output directory cannot
    be made, and otherwise the [TypeError] of [' '.join(cmd)] on
    line 121. *)
Definition raised_without_key (mkdir : string -> option string)
    (output_base : string) : exn :=
  match mkdir output_base with
  | Some message => OSError message
  | None => TypeError
  end.

(** The name of a report the dispatcher writes. *)
Definition report_name (name : string) : Prop :=
  name = "ref_based.txt" \/ name = "ref_free.txt".

(** A path whose last component ends like the name of a report. *)
Definition is_report_path (q : string) : Prop :=
  exists pre, q = pre +:+ "ref_based.txt" \/ q = pre +:+ "ref_free.txt".

(** The entry [new] is the entry [old], but for names of reports added
    at the end of the listing of a directory. *)
Definition extends_listing (old new : option node) : Prop :=
  match old with
  | Some (Dir entries) =>
      exists added,
        new = Some (Dir (entries ++ added)) /\ Forall report_name added
  | _ => new = old
  end.

(** [avg] is the [float] that [sum / n] evaluates to. *)
Definition is_average (sum : number) (n : nat) (avg : number) : Prop :=
  exists x, Num.true_divide sum (Z.of_nat n) = Ok x /\ avg = Float x.




(** ** Concrete library functions and files for the examples *)

Module Demo.

Fixpoint digits_go (acc : Z) (s : string) : Z :=
  match s with
  | EmptyString => acc
  | String c s' => digits_go (10 * acc + Z.of_nat (nat_of_ascii c - 48)) s'
  end.

(** The [float] nearest to [n / 10 ^ k]. *)
Definition nearest (n : Z) (k : nat) : binary64 :=
  SF2Prim (SFdiv prec emax (Num.exact n) (Num.exact (10 ^ Z.of_nat k))).

Definition unsigned_decimal (s : string) : option binary64 :=
  if String.eqb s "inf" then Some infinity
  else if String.eqb s "nan" then Some nan
  else
    match Str.split s "." with
    | [i] =>
        if Str.isdecimal i then Some (nearest (digits_go 0 i) 0) else None
    | [i; f] =>
        if Str.all_decimal i && Str.all_decimal f
           && negb (String.eqb (i +:+ f) "")
        then Some (nearest (digits_go 0 (i +:+ f)) (String.length f))
        else None
    | _ => None
    end.

(** [float(s)] on the literals of the examples: an optional sign
    followed by [inf], by [nan], or by decimal digits with an optional
    fraction. The examples hold no other text that [float] accepts. *)
Definition float (s : string) : option binary64 :=
  match s with
  | String "-" s' => PrimFloat.opp <$> unsigned_decimal s'
  | String "+" s' => unsigned_decimal s'
  | _ => unsigned_decimal s
  end.

Definition dq : string := String (ascii_of_nat 34) "".

Definition member (key score : string) : string :=
  dq +:+ key +:+ dq +:+ ": {" +:+ dq +:+ "score" +:+ dq +:+ ": " +:+ score +:+ "}".

(** The text of a reference-free report whose four scores are [score]. *)
Definition ref_free_text (score : string) : string :=
  "{" +:+ member "text" score +:+ ", " +:+ member "image" score +:+ ", "
      +:+ member "layout" score +:+ ", " +:+ member "color" score +:+ "}".

Definition ref_free_doc (score : json) : json :=
  JObj [("text", JObj [("score", score)]);
        ("image", JObj [("score", score)]);
        ("layout", JObj [("score", score)]);
        ("color", JObj [("score", score)])].

(** [json.load] on the reference-free reports of the examples. *)
Definition json_load (text : string) : option json :=
  if String.eqb text (ref_free_text "3.5") then Some (ref_free_doc (JFloat 3.5))
  else if String.eqb text (ref_free_text "4.25")
  then Some (ref_free_doc (JFloat 4.25))
  else if String.eqb text (ref_free_text "0") then Some (ref_free_doc (JInt 0))
  else if String.eqb text (ref_free_text "5") then Some (ref_free_doc (JInt 5))
  else None.

(** Every deck of the examples has one slide. *)
Definition pptx_slides (deck : string) : option nat := Some 1%nat.

(** The text of a reference-based report. *)
Definition ref_based_text (m t c p : string) : string :=
  "match: " +:+ m +:+ newline +:+ "text: " +:+ t +:+ newline
    +:+ "color: " +:+ c +:+ newline +:+ "position: " +:+ p +:+ newline.

Definition slide_dir : string := "output/autopresent/T/business/slide_1".

Definition round_files (round_num : string) (ref_based ref_free : string)
  : list (string * node) :=
  [(slide_dir +:+ "/" +:+ round_num, Dir ["ref_based.txt"; "ref_free.json"]);
   (slide_dir +:+ "/" +:+ round_num +:+ "/ref_based.txt", File ref_based);
   (slide_dir +:+ "/" +:+ round_num +:+ "/ref_free.json", File ref_free)].

(** Three complete rounds with composite scores 70, 85 and 85. *)
Definition fs_70_85_85 : filesystem :=
  list_to_map
    (("data/autopresent/examples/business/business.pptx", File "deck")
     :: round_files "1" (ref_based_text "70.0" "70.0" "70.0" "70.0")
                    (ref_free_text "3.5")
     ++ round_files "2" (ref_based_text "85.0" "85.0" "85.0" "85.0")
                    (ref_free_text "4.25")
     ++ round_files "3" (ref_based_text "100.0" "70.0" "90" "80.0")
                    (ref_free_text "4.25")).

(** Two complete rounds with the same reference-based metrics in
    opposite orders. *)
Definition fs_reordered : filesystem :=
  list_to_map
    (("data/autopresent/examples/business/business.pptx", File "deck")
     :: round_files "1" (ref_based_text "0.3" "0.2" "0.1" "0")
                    (ref_free_text "0")
     ++ round_files "2" (ref_based_text "0.1" "0.2" "0.3" "0")
                    (ref_free_text "0")).

(** An item with one round that holds a generated deck and its preview,
    not yet scored. *)
Definition fs_unscored : filesystem :=
  list_to_map
    [("data/autopresent/examples/business/business.pptx", File "deck");
     ("output/autopresent/T/business", Dir ["slide_1"]);
     (slide_dir, Dir ["1"]);
     (slide_dir +:+ "/1", Dir ["refine.pptx"; "refine.jpg"]);
     (slide_dir +:+ "/1/refine.pptx", File "generated deck");
     (slide_dir +:+ "/1/refine.jpg", File "preview")].

(** A round that holds the reference-based report only, next to reports
    in the legacy location. *)
Definition fs_partial : filesystem :=
  list_to_map
    [("data/autopresent/examples/business/business.pptx", File "deck");
     (slide_dir +:+ "/1", Dir ["ref_based.txt"]);
     (slide_dir +:+ "/1/ref_based.txt",
      File (ref_based_text "70.0" "70.0" "70.0" "70.0"));
     (slide_dir +:+ "/baseline", Dir ["ref_eval.txt"; "refree_eval.json"]);
     (slide_dir +:+ "/baseline/ref_eval.txt",
      File (ref_based_text "70.0" "70.0" "70.0" "70.0"));
     (slide_dir +:+ "/baseline/refree_eval.json", File (ref_free_text "3.5"))].

(** A dataset with one category that holds one item. *)
Definition dataset : string := "data/autopresent/examples".

Definition fs_dataset : filesystem :=
  list_to_map
    [(dataset, Dir ["business"]);
     (dataset +:+ "/business", Dir ["slide_1"; "business.pptx"]);
     (dataset +:+ "/business/business.pptx", File "deck");
     (dataset +:+ "/business/slide_1",
      Dir ["start.py"; "start.jpg"; "instruction.txt"]);
     (dataset +:+ "/business/slide_1/start.py", File "code");
     (dataset +:+ "/business/slide_1/start.jpg", File "image");
     (dataset +:+ "/business/slide_1/instruction.txt", File "text")].

Definition args_business (task_id : option string) (sequential : bool)
  : Runner.args :=
  Runner.mk_args dataset "output/autopresent/T" "business" task_id 10 "gpt-4o"
    "servers/generator/slides.py" "agents/generator_mcp.py"
    "agents/verifier_mcp.py" "servers/verifier/image.py" 10 sequential.

Definition task_slide_1 : Runner.task_config :=
  Runner.mk_task_config "business" (dataset +:+ "/business/slide_1")
    (dataset +:+ "/business/slide_1/start.py")
    (dataset +:+ "/business/slide_1/start.jpg")
    (dataset +:+ "/business/slide_1/instruction.txt").

Fixpoint leading_slashes (s : string) : nat :=
  match s with
  | String "/" s' => S (leading_slashes s')
  | _ => 0
  end.

Fixpoint concat_with (sep : string) (parts : list string) : string :=
  match parts with
  | [] => ""
  | [x] => x
  | x :: rest => x +:+ sep +:+ concat_with sep rest
  end.

(** [str(Path(p))]: the components that are neither empty nor [.],
    joined by single slashes after the root, which is [//] for exactly
    two leading slashes and [/] for any other number of them. *)
Definition str_Path (p : string) : string :=
  let root :=
    match leading_slashes p with
    | 0 => ""
    | 2 => "//"
    | _ => "/"
    end%nat in
  let parts :=
    List.filter (fun x => negb (String.eqb x "") && negb (String.eqb x "."))
                (Str.split p "/") in
  match root, parts with
  | EmptyString, [] => "."
  | _, _ => root +:+ concat_with "/" parts
  end.

(** A host on which every output directory can be made. *)
Definition mkdir (path : string) : option string := None.

(** A host on which no directory can be made. *)
Definition mkdir_denied (path : string) : option string :=
  Some ("[Errno 13] Permission denied: '" +:+ path +:+ "'").

(** A host on which every child exits with status 0 after a minute. *)
Definition spawn_ok (cmd : list string) : Runner.child := Runner.Exits 0 60.

Definition str_CalledProcessError (cmd : list string) (returncode : Z)
  : string :=
  "Command returned non-zero exit status " +:+ Str.of_Z returncode.

Definition str_exn (e : exn) : string :=
  match e with
  | OSError message => message
  | _ => "exception"
  end.

(** Scorers that write a report on every call. *)
Definition page_eval (fs : filesystem) (reference_pptx generated_pptx : string)
    (reference_page : nat) : option string :=
  Some (ref_based_text "70.0" "70.0" "70.0" "70.0").

Definition reference_free_eval (fs : filesystem) (image_path : string)
  : option string :=
  Some (ref_free_text "3.5").

Definition task_slide_2 : Runner.task_config :=
  Runner.mk_task_config "business" (dataset +:+ "/business/slide_2")
    (dataset +:+ "/business/slide_2/start.py")
    (dataset +:+ "/business/slide_2/start.jpg")
    (dataset +:+ "/business/slide_2/instruction.txt").

(** A host on which the child of [task_slide_2] exits with status 1 and
    every other child with status 0. *)
Definition spawn_mixed (cmd : list string) : Runner.child :=
  if existsb (String.eqb (Runner.init_code_path task_slide_2)) cmd
  then Runner.Exits 1 5
  else Runner.Exits 0 60.

(** A reference-based report with four different values. *)
Definition report_text : string := ref_based_text "81.5" "92" "70.25" "60".

Definition report_lines : list string := Str.split report_text newline.

(** One complete round that holds this report. *)
Definition fs_report : filesystem :=
  list_to_map
    (("data/autopresent/examples/business/business.pptx", File "deck")
     :: round_files "1" report_text (ref_free_text "3.5")).

End Demo.

(** ** Further files for the examples *)

Module DemoMore.

(** One complete round whose reference-based metrics are negative. *)
Definition fs_negative : filesystem :=
  list_to_map
    (("data/autopresent/examples/business/business.pptx", File "deck")
     :: Demo.round_files "1" (Demo.ref_based_text "-9" "-9" "-9" "-9")
                         (Demo.ref_free_text "0")).

(** One complete round whose reference-based report has a line without
    [": "], and a second, well-formed round. *)
Definition fs_broken : filesystem :=
  list_to_map
    (("data/autopresent/examples/business/business.pptx", File "deck")
     :: Demo.round_files "1" ("match 85" +:+ newline) (Demo.ref_free_text "3.5")
     ++ Demo.round_files "2" (Demo.ref_based_text "85.0" "85.0" "85.0" "85.0")
                         (Demo.ref_free_text "4.25")).

(** A complete round whose reference-based metrics are not numbers,
    followed by a complete round that scores 70. *)
Definition fs_nan : filesystem :=
  list_to_map
    (("data/autopresent/examples/business/business.pptx", File "deck")
     :: Demo.round_files "1" (Demo.ref_based_text "nan" "nan" "nan" "nan")
                         (Demo.ref_free_text "3.5")
     ++ Demo.round_files "2" (Demo.ref_based_text "70.0" "70.0" "70.0" "70.0")
                         (Demo.ref_free_text "3.5")).

(** The output directory of a category with two slides and a file. *)
Definition fs_output : filesystem :=
  list_to_map
    [("output/autopresent/T/business", Dir ["slide_2"; "slide_1"; "notes.txt"])].

(** The same with a directory that is not a slide. *)
Definition fs_output_logs : filesystem :=
  list_to_map
    [("output/autopresent/T/business", Dir ["slide_2"; "logs"; "slide_1"])].

(** [int(s)] on strings of decimal digits. *)
Definition int (s : string) : option Z :=
  if Str.isdecimal s then Some (Z.of_nat (Str.int s)) else None.

(** The superscript two, a digit that is no decimal. *)
Definition superscript_two : string := String (ascii_of_nat 178) "".

(** An item whose directory holds a round named by a superscript. *)
Definition fs_superscript : filesystem :=
  list_to_map
    [(Demo.slide_dir, Dir ["1"; superscript_two]);
     (Demo.slide_dir +:+ "/1", Dir ["refine.pptx"]);
     (Demo.slide_dir +:+ "/1/refine.pptx", File "generated deck")].

End DemoMore.
(** * Properties *)

(** ** The embedding on examples *)

Example split_example :
  Str.split "match: 85.0: x" ": " = ["match"; "85.0"; "x"].
Proof. reflexivity. Qed.

Example split_overlap : Str.split "a::: b" ": " = ["a::"; "b"].
Proof. reflexivity. Qed.

Example replace_example :
  Str.replace "out/3/refine.pptx" ".pptx" ".jpg" = "out/3/refine.jpg".
Proof. reflexivity. Qed.

Example join_example :
  Path.join "output/autopresent/T" ["business"; "slide_" +:+ Str.of_nat 12]
  = "output/autopresent/T/business/slide_12".
Proof. reflexivity. Qed.

Example dirname_example :
  Path.dirname "out/slide_1/3/refine.pptx" = "out/slide_1/3".
Proof. reflexivity. Qed.

Example sorted_desc_example :
  Evaluate.sorted_desc ["1"; "10"; "2"; "01"] = ["10"; "2"; "1"; "01"].
Proof. reflexivity. Qed.

Example isdigit_superscript :
  Str.isdigit DemoMore.superscript_two = true
  /\ Str.int_of_digits DemoMore.superscript_two = Raise ValueError.
Proof. split; reflexivity. Qed.

Example mixed_numbers :
  Num.add (Int 1) (Float 0.5) = Ok (Float 1.5)
  /\ Num.true_divide (Int 1) 8 = Ok 0.125%float
  /\ Num.true_divide (Float 1) 0 = Raise ZeroDivisionError.
Proof. repeat split; reflexivity. Qed.

(** Python's [int] arithmetic is exact where the [float] one rounds:
    [(20 * (2 ** 53 + 1)) / 8] against [(float(2 ** 53 + 1) * 20) / 8]. *)
Example int_and_float_differ :
  Num.true_divide (Int (20 * (2 ^ 53 + 1))) 8 = Ok 22517998136852484%float
  /\ Num.float_of_int (2 ^ 53 + 1) = Ok 9007199254740992%float
  /\ Num.true_divide (Float (9007199254740992 * 20)) 8
     = Ok 22517998136852480%float.
Proof. repeat split; reflexivity. Qed.


(** ** Generic facts *)

Lemma rbind_Ok {A B : Type} (m : result A) (k : A -> result B) (b : B) :
  rbind m k = Ok b -> exists a, m = Ok a /\ k a = Ok b.
Proof. destruct m as [a|e]; simpl; intros H; [eauto | discriminate]. Qed.

Lemma seq_split_at (k n : nat) :
  (1 <= k <= n)%nat -> seq 1 n = seq 1 (k - 1) ++ k :: seq (S k) (n - k).
Proof.
  intros Hk. replace n with ((k - 1) + S (n - k))%nat at 1 by lia.
  rewrite seq_app. simpl. replace (S (k - 1)) with k by lia. reflexivity.
Qed.

(** Case analysis on a round number of the scan window. *)
Ltac round_cases k Hk :=
  let E := fresh "E" in
  assert (E : (k = 1 \/ k = 2 \/ k = 3 \/ k = 4 \/ k = 5 \/ k = 6 \/ k = 7
               \/ k = 8 \/ k = 9 \/ k = 10)%nat) by lia;
  clear Hk; repeat destruct E as [E|E]; subst k.

(** ** Strings *)

Lemma append_cons (c : ascii) (s t : string) :
  String c s +:+ t = String c (s +:+ t).
Proof. reflexivity. Qed.

Lemma append_nil_l (t : string) : "" +:+ t = t.
Proof. reflexivity. Qed.

Lemma append_assoc_char (cur : string) (c : ascii) (a : string) :
  (cur +:+ String c "") +:+ a = cur +:+ String c a.
Proof.
  induction cur as [|d cur IH]; [reflexivity|].
  rewrite !append_cons, IH. reflexivity.
Qed.

Lemma append_empty_r (s : string) : s +:+ "" = s.
Proof.
  induction s as [|c s IH]; [reflexivity|]. rewrite append_cons, IH. reflexivity.
Qed.

Lemma prefix_empty (s : string) : String.prefix "" s = true.
Proof. destruct s; reflexivity. Qed.

Lemma contains_cons_false (sub : string) (c : ascii) (s : string) :
  Str.contains sub (String c s) = false ->
  String.prefix sub (String c s) = false /\ Str.contains sub s = false.
Proof. cbn [Str.contains]. intros H. apply orb_false_iff in H. exact H. Qed.

(** A string without the separator is its own single piece. *)
Lemma split_go_no_sep (sep : string) (s : string) :
  forall cur, Str.contains sep s = false ->
              Str.split_go sep 0 cur s = [cur +:+ s].
Proof.
  induction s as [|c s IH]; intros cur H.
  - cbn [Str.split_go]. rewrite append_empty_r. reflexivity.
  - apply contains_cons_false in H as [Hp Hc].
    cbn [Str.split_go]. rewrite Hp. rewrite IH by exact Hc.
    rewrite append_assoc_char. reflexivity.
Qed.

Lemma prefix_colon_space_extend (c : ascii) (a b : string) :
  String.prefix ": " (String c a) = false ->
  String.prefix ": " (String c (a +:+ ": " +:+ b)) = false.
Proof.
  cbn [String.prefix]. destruct (ascii_dec ":" c) as [_|_]; [|reflexivity].
  destruct a as [|d a].
  - intros _. rewrite append_nil_l, append_cons. reflexivity.
  - rewrite append_cons. cbn [String.prefix].
    destruct (ascii_dec " " d); [|reflexivity].
    destruct a; intros H; discriminate H.
Qed.

(** Splitting at the first [": "]: the text before it is the first piece
    and the pieces of the text after it follow. *)
Lemma split_go_first_sep (a b : string) :
  forall cur, Str.contains ": " a = false ->
    Str.split_go ": " 0 cur (a +:+ ": " +:+ b)
    = (cur +:+ a) :: Str.split_go ": " 0 "" b.
Proof.
  induction a as [|c a IH]; intros cur H.
  - rewrite append_empty_r, append_nil_l, !append_cons, append_nil_l.
    cbn. rewrite prefix_empty. reflexivity.
  - apply contains_cons_false in H as [Hp Hc].
    rewrite append_cons.
    cbn [Str.split_go]. rewrite (prefix_colon_space_extend _ _ _ Hp).
    rewrite IH by exact Hc. rewrite append_assoc_char. reflexivity.
Qed.


(** ** The aggregator *)

Section GatherProperties.

Variable float : string -> option binary64.
Variable json_load : string -> option json.
Local Abbreviation parse_line := (Gather.parse_line float).
Local Abbreviation parse_lines := (Gather.parse_lines float).
Local Abbreviation float_field := (Gather.float_field float).
Local Abbreviation read_ref_based := (Gather.read_ref_based float).
Local Abbreviation read_ref_free := (Gather.read_ref_free json_load).
Local Abbreviation scan_round := (Gather.scan_round float json_load).
Local Abbreviation scan_rounds := (Gather.scan_rounds float json_load).
Local Abbreviation find_best_round := (Gather.find_best_round float json_load).
Local Abbreviation gather_slide := (Gather.gather_slide float json_load).
Local Abbreviation load_round := (Gather.load_round float json_load).
Local Abbreviation round_score := (Gather.round_score float json_load).

Lemma scan_round_load fs slide_dir st k :
  scan_round fs slide_dir st k =
  (r <-! load_round fs slide_dir k;
   match r with
   | Some (re, rf) => Gather.consider st k re rf
   | None => Ok st
   end).
Proof.
  unfold Gather.scan_round, load_round, Gather.round_complete.
  destruct (FS.exists_ fs (Path.join slide_dir [Str.of_nat k])); simpl;
    [|reflexivity].
  destruct (FS.exists_ fs _ && FS.exists_ fs _); simpl; [|reflexivity].
  destruct (read_ref_based _ _); simpl; [|reflexivity].
  destruct (read_ref_free _ _); reflexivity.
Qed.

Lemma scan_rounds_app fs slide_dir st ks1 ks2 :
  scan_rounds fs slide_dir st (ks1 ++ ks2) =
  (st' <-! scan_rounds fs slide_dir st ks1; scan_rounds fs slide_dir st' ks2).
Proof.
  revert st. induction ks1 as [|k ks1 IH]; intros st; simpl; [reflexivity|].
  destruct (scan_round fs slide_dir st k); simpl; [apply IH | reflexivity].
Qed.

Lemma round_score_some fs slide_dir k s :
  round_score fs slide_dir k = Ok (Some s) <->
  exists re rf, load_round fs slide_dir k = Ok (Some (re, rf))
                /\ Gather.mean8 re rf = Ok s.
Proof.
  unfold Gather.round_score. split.
  - destruct (load_round fs slide_dir k) as [[[re rf]|]|e]; simpl;
      [|discriminate|discriminate].
    destruct (Gather.mean8 re rf) as [s'|e] eqn:E; simpl; [|discriminate].
    intros [= <-]. eauto.
  - intros (re & rf & -> & Hs). simpl. rewrite Hs. reflexivity.
Qed.

Lemma round_score_none fs slide_dir k :
  round_score fs slide_dir k = Ok None <-> load_round fs slide_dir k = Ok None.
Proof.
  unfold Gather.round_score.
  destruct (load_round fs slide_dir k) as [[[re rf]|]|e]; simpl.
  - destruct (Gather.mean8 re rf); simpl; split; discriminate.
  - tauto.
  - split; discriminate.
Qed.

(** What one round does to the search state, from the score the scan
    computes for it. *)
Lemma scan_round_scored fs slide_dir st k re rf s :
  load_round fs slide_dir k = Ok (Some (re, rf)) ->
  Gather.mean8 re rf = Ok s ->
  scan_round fs slide_dir st k =
  Ok (if Num.gt s (Gather.best_round_score st)
      then Gather.mk_best s (Some re) (Some rf) (Some k)
      else st).
Proof.
  intros Hr Hs. rewrite scan_round_load, Hr. simpl.
  unfold Gather.consider. rewrite Hs. reflexivity.
Qed.

Lemma scan_round_skipped fs slide_dir st k :
  load_round fs slide_dir k = Ok None -> scan_round fs slide_dir st k = Ok st.
Proof. intros Hr. rewrite scan_round_load, Hr. reflexivity. Qed.

(** Rounds that [s] exceeds leave an incumbent that [s] exceeds. *)
Lemma scan_rounds_below fs slide_dir (s : binary64) ks :
  forall st,
    Num.gt s (Gather.best_round_score st) = true ->
    (forall j, j ∈ ks -> exists r, round_score fs slide_dir j = Ok r) ->
    (forall j s', j ∈ ks -> round_score fs slide_dir j = Ok (Some s') ->
                  Num.gt s s' = true) ->
    exists st', scan_rounds fs slide_dir st ks = Ok st'
                /\ Num.gt s (Gather.best_round_score st') = true.
Proof.
  induction ks as [|k ks IH]; intros st Hst Hload Hlt; simpl; [eauto|].
  destruct (Hload k) as [[s'|] Hr]; [set_solver| |].
  - pose proof (Hlt k s' ltac:(set_solver) Hr) as Hs'.
    apply round_score_some in Hr as (re & rf & Hr & Hm).
    rewrite (scan_round_scored _ _ _ _ _ _ _ Hr Hm). simpl.
    apply IH.
    + destruct (Num.gt s' _); [exact Hs' | exact Hst].
    + intros j Hj. apply Hload. set_solver.
    + intros j s'' Hj. apply Hlt. set_solver.
  - apply round_score_none in Hr. rewrite (scan_round_skipped _ _ _ _ Hr). simpl.
    apply IH; [exact Hst| |].
    + intros j Hj. apply Hload. set_solver.
    + intros j s'' Hj. apply Hlt. set_solver.
Qed.

(** Rounds that do not exceed the incumbent leave it in place. *)
Lemma scan_rounds_keep fs slide_dir ks :
  forall st,
    (forall j, j ∈ ks -> exists r, round_score fs slide_dir j = Ok r) ->
    (forall j s', j ∈ ks -> round_score fs slide_dir j = Ok (Some s') ->
                  Num.gt s' (Gather.best_round_score st) = false) ->
    scan_rounds fs slide_dir st ks = Ok st.
Proof.
  induction ks as [|k ks IH]; intros st Hload Hle; simpl; [reflexivity|].
  destruct (Hload k) as [[s'|] Hr]; [set_solver| |].
  - pose proof (Hle k s' ltac:(set_solver) Hr) as Hs'.
    apply round_score_some in Hr as (re & rf & Hr & Hm).
    rewrite (scan_round_scored _ _ _ _ _ _ _ Hr Hm), Hs'. simpl.
    apply IH.
    + intros j Hj. apply Hload. set_solver.
    + intros j s'' Hj. apply Hle. set_solver.
  - apply round_score_none in Hr. rewrite (scan_round_skipped _ _ _ _ Hr). simpl.
    apply IH.
    + intros j Hj. apply Hload. set_solver.
    + intros j s'' Hj. apply Hle. set_solver.
Qed.

(** C2. Scanning the rounds 1..10 in ascending order selects the complete
    round that no complete round exceeds in composite score and that
    exceeds every earlier complete round: the round with the maximum
    score and, among rounds that tie on it, the lowest round number. A
    later round replaces the incumbent only when the comparison [>] of
    the code holds, and the search starts from the incumbent score -1,
    which the selected score has to exceed. The scores are the binary64
    values the code computes. In particular three complete rounds 1, 2,
    3 with composite scores 70, 85, 85 select round 2; and of two rounds
    that hold the same metrics, 0.3, 0.2, 0.1, 0 and 0.1, 0.2, 0.3, 0,
    the second is selected, because its sum rounds to a greater
    float: the scores are 0x1.3333333333333p-4, which prints as 0.075,
    and 0x1.3333333333334p-4, which prints as 0.07500000000000001. *)
Theorem best_round_is_first_maximum :
  (forall fs slide_dir k re rf s,
      (1 <= k <= 10)%nat ->
      (forall j, (1 <= j <= 10)%nat ->
                 exists r, round_score fs slide_dir j = Ok r) ->
      load_round fs slide_dir k = Ok (Some (re, rf)) ->
      Gather.mean8 re rf = Ok s ->
      Num.gt s (-1) = true ->
      (forall j s', (1 <= j <= 10)%nat ->
          round_score fs slide_dir j = Ok (Some s') ->
          Num.gt s' s = false) ->
      (forall j s', (1 <= j < k)%nat ->
          round_score fs slide_dir j = Ok (Some s') ->
          Num.gt s s' = true) ->
      find_best_round fs slide_dir =
      Ok (Gather.mk_best s (Some re) (Some rf) (Some k)))
  /\
  (forall fs slide_dir re1 rf1 re2 rf2 re3 rf3,
      load_round fs slide_dir 1 = Ok (Some (re1, rf1)) ->
      load_round fs slide_dir 2 = Ok (Some (re2, rf2)) ->
      load_round fs slide_dir 3 = Ok (Some (re3, rf3)) ->
      (forall j, (4 <= j <= 10)%nat -> load_round fs slide_dir j = Ok None) ->
      Gather.mean8 re1 rf1 = Ok 70%float ->
      Gather.mean8 re2 rf2 = Ok 85%float ->
      Gather.mean8 re3 rf3 = Ok 85%float ->
      find_best_round fs slide_dir =
      Ok (Gather.mk_best 85 (Some re2) (Some rf2) (Some 2%nat)))
  /\
  (Gather.round_score Demo.float Demo.json_load Demo.fs_reordered
                      Demo.slide_dir 1 = Ok (Some 0x1.3333333333333p-4%float)
   /\ Gather.round_score Demo.float Demo.json_load Demo.fs_reordered
                         Demo.slide_dir 2 = Ok (Some 0x1.3333333333334p-4%float)
   /\ exists st,
        Gather.find_best_round Demo.float Demo.json_load Demo.fs_reordered
                               Demo.slide_dir = Ok st
        /\ Gather.best_round_num st = Some 2%nat
        /\ Gather.best_round_score st = 0x1.3333333333334p-4%float).
Proof.
  assert (General : forall fs slide_dir k re rf s,
      (1 <= k <= 10)%nat ->
      (forall j, (1 <= j <= 10)%nat ->
                 exists r, round_score fs slide_dir j = Ok r) ->
      load_round fs slide_dir k = Ok (Some (re, rf)) ->
      Gather.mean8 re rf = Ok s ->
      Num.gt s (-1) = true ->
      (forall j s', (1 <= j <= 10)%nat ->
          round_score fs slide_dir j = Ok (Some s') ->
          Num.gt s' s = false) ->
      (forall j s', (1 <= j < k)%nat ->
          round_score fs slide_dir j = Ok (Some s') ->
          Num.gt s s' = true) ->
      find_best_round fs slide_dir =
      Ok (Gather.mk_best s (Some re) (Some rf) (Some k))).
  { intros fs slide_dir k re rf s Hk Hload Hhit Hs Hpos Hmax Hfirst.
    unfold Gather.find_best_round.
    rewrite (seq_split_at k 10 Hk), scan_rounds_app.
    destruct (scan_rounds_below fs slide_dir s (seq 1 (k - 1)) Gather.best_init)
      as (st1 & Hst1 & Hlt1).
    - exact Hpos.
    - intros j Hj. apply elem_of_seq in Hj. apply Hload. lia.
    - intros j s' Hj. apply elem_of_seq in Hj. apply Hfirst. lia.
    - rewrite Hst1. simpl.
      rewrite (scan_round_scored fs slide_dir st1 k re rf s Hhit Hs), Hlt1.
      simpl. apply scan_rounds_keep.
      + intros j Hj. apply elem_of_seq in Hj. apply Hload. lia.
      + intros j s' Hj. apply elem_of_seq in Hj. simpl. apply Hmax. lia. }
  split; [exact General|]. split.
  - intros fs slide_dir re1 rf1 re2 rf2 re3 rf3 H1 H2 H3 Hrest E1 E2 E3.
    assert (S1 : round_score fs slide_dir 1 = Ok (Some 70%float))
      by (apply round_score_some; eauto).
    assert (S2 : round_score fs slide_dir 2 = Ok (Some 85%float))
      by (apply round_score_some; eauto).
    assert (S3 : round_score fs slide_dir 3 = Ok (Some 85%float))
      by (apply round_score_some; eauto).
    assert (Srest : forall j, (4 <= j <= 10)%nat ->
                              round_score fs slide_dir j = Ok None)
      by (intros j Hj; apply round_score_none, Hrest, Hj).
    apply General; [lia| |exact H2|exact E2|reflexivity| |].
    + intros j Hj. destruct (decide (4 <= j)%nat) as [Hge|Hlt].
      * exists None. apply Srest. lia.
      * assert (E : (j = 1 \/ j = 2 \/ j = 3)%nat) by lia.
        destruct E as [->|[->| ->]]; eauto.
    + intros j s' Hj Hr. destruct (decide (4 <= j)%nat) as [Hge|Hlt].
      * rewrite Srest in Hr by lia. discriminate.
      * assert (E : (j = 1 \/ j = 2 \/ j = 3)%nat) by lia.
        destruct E as [->|[->| ->]]; rewrite Hr in *; simplify_eq; reflexivity.
    + intros j s' Hj Hr. assert (j = 1%nat) as -> by lia.
      rewrite Hr in S1. simplify_eq. reflexivity.
  - split; [vm_compute; reflexivity|]. split; [vm_compute; reflexivity|].
    eexists. split; [vm_compute; reflexivity|]. split; reflexivity.
Qed.

(** C3. A round enters the best-round selection only when both of its
    report files are on disk. When one of them is missing the round
    leaves the search state as it was and nothing is read, so the whole
    scan is the scan of the other rounds; the round is not scored as a
    zero-filled report, which from a fresh search would have been
    selected with score 0. *)
Theorem incomplete_round_is_skipped fs slide_dir st k :
  FS.exists_ fs (Path.join (Path.join slide_dir [Str.of_nat k])
                           [Gather.ref_based_name])
  && FS.exists_ fs (Path.join (Path.join slide_dir [Str.of_nat k])
                              [Gather.ref_free_name]) = false ->
  scan_round fs slide_dir st k = Ok st
  /\ ((1 <= k <= 10)%nat ->
      find_best_round fs slide_dir =
      scan_rounds fs slide_dir Gather.best_init
                  (seq 1 (k - 1) ++ seq (S k) (10 - k)))
  /\ Gather.consider Gather.best_init k Gather.ref_eval_zero
                     (Gather.as_products Gather.ref_free_zero)
     = Ok (Gather.mk_best 0 (Some Gather.ref_eval_zero)
             (Some (Gather.as_products Gather.ref_free_zero)) (Some k)).
Proof.
  intros Hmiss.
  assert (Hskip : forall st0, scan_round fs slide_dir st0 k = Ok st0).
  { intros st0. unfold Gather.scan_round. cbv zeta.
    destruct (FS.exists_ fs (Path.join slide_dir [Str.of_nat k]));
      cbn [negb]; [|reflexivity].
    rewrite Hmiss. reflexivity. }
  split; [apply Hskip|]. split; [|reflexivity].
  intros Hk. unfold Gather.find_best_round.
  rewrite (seq_split_at k 10 Hk), !scan_rounds_app.
  destruct (scan_rounds fs slide_dir Gather.best_init (seq 1 (k - 1)))
    as [st1|e]; simpl; [|reflexivity].
  rewrite Hskip. reflexivity.
Qed.

Lemma find_best_round_none fs slide_dir :
  (forall k, (1 <= k <= 10)%nat -> Gather.round_complete fs slide_dir k = false) ->
  find_best_round fs slide_dir = Ok Gather.best_init.
Proof.
  intros Hnone. unfold Gather.find_best_round.
  assert (Hload : forall j, j ∈ seq 1 10 -> round_score fs slide_dir j = Ok None).
  { intros j Hj. apply elem_of_seq in Hj. apply round_score_none.
    unfold Gather.load_round. rewrite Hnone by lia. reflexivity. }
  apply scan_rounds_keep.
  - intros j Hj. exists None. apply Hload, Hj.
  - intros j s' Hj Hs. rewrite (Hload j Hj) in Hs. discriminate.
Qed.

(** The mean of eight [float]s does not raise: it is their sum, added
    from left to right, divided by 8. *)
Lemma mean8_floats (m t c p ft fi fl fc : binary64) :
  Gather.mean8
    (Gather.mk_ref_eval (Float m) (Float t) (Float c) (Float p))
    (Gather.mk_ref_free_eval (Number (Float ft)) (Number (Float fi))
                             (Number (Float fl)) (Number (Float fc)))
  = Ok ((m + t + c + p + ft + fi + fl + fc) / 8)%float.
Proof. reflexivity. Qed.

Lemma ref_eval_div_Ok a n r :
  Gather.ref_eval_div a n = Ok r ->
  exists m t c p,
    Num.true_divide (Gather.re_match a) n = Ok m
    /\ Num.true_divide (Gather.re_text a) n = Ok t
    /\ Num.true_divide (Gather.re_color a) n = Ok c
    /\ Num.true_divide (Gather.re_position a) n = Ok p
    /\ r = Gather.mk_ref_eval (Float m) (Float t) (Float c) (Float p).
Proof.
  unfold Gather.ref_eval_div. intros H.
  apply rbind_Ok in H as (m & Hm & H). apply rbind_Ok in H as (t & Ht & H).
  apply rbind_Ok in H as (c & Hc & H). apply rbind_Ok in H as (p & Hp & H).
  injection H as <-. exists m, t, c, p. auto.
Qed.

Lemma ref_free_div_Ok a n r :
  Gather.ref_free_div a n = Ok r ->
  exists t i l c,
    Num.true_divide (Gather.rf_text a) n = Ok t
    /\ Num.true_divide (Gather.rf_image a) n = Ok i
    /\ Num.true_divide (Gather.rf_layout a) n = Ok l
    /\ Num.true_divide (Gather.rf_color a) n = Ok c
    /\ r = Gather.mk_ref_free_eval (Float t) (Float i) (Float l) (Float c).
Proof.
  unfold Gather.ref_free_div. intros H.
  apply rbind_Ok in H as (t & Ht & H). apply rbind_Ok in H as (i & Hi & H).
  apply rbind_Ok in H as (l & Hl & H). apply rbind_Ok in H as (c & Hc & H).
  injection H as <-. exists t, i, l, c. auto.
Qed.

(** C4. An item none of whose rounds 1..10 is complete adds nothing to
    the eight running sums and adds one to the failure count and one to
    the item count, whatever else lies in its directory; and each of the
    eight final averages is its sum divided by the item count, failed
    items included. The report is produced whenever the eight divisions
    and that of the success rate are. *)
Theorem item_without_complete_round fs test_id name acc n :
  (forall k, (1 <= k <= 10)%nat ->
     Gather.round_complete fs (Gather.slide_dir test_id name n) k = false) ->
  gather_slide fs test_id name acc n =
  Ok (Gather.mk_totals (Gather.ref_eval_result acc)
                       (Gather.ref_free_eval_result acc)
                       (S (Gather.fail_num acc)) (S (Gather.total_num acc)))
  /\ (forall final out,
        (0 < Gather.total_num final)%nat ->
        Gather.report final = Ok out ->
        let sums := Gather.ref_eval_result final in
        let free_sums := Gather.ref_free_eval_result final in
        let total := Gather.total_num final in
        is_average (Gather.re_match sums) total
                   (Gather.re_match (Gather.ret_ref_eval out))
        /\ is_average (Gather.re_text sums) total
                      (Gather.re_text (Gather.ret_ref_eval out))
        /\ is_average (Gather.re_color sums) total
                      (Gather.re_color (Gather.ret_ref_eval out))
        /\ is_average (Gather.re_position sums) total
                      (Gather.re_position (Gather.ret_ref_eval out))
        /\ is_average (Gather.rf_text free_sums) total
                      (Gather.rf_text (Gather.ret_ref_free_eval out))
        /\ is_average (Gather.rf_image free_sums) total
                      (Gather.rf_image (Gather.ret_ref_free_eval out))
        /\ is_average (Gather.rf_layout free_sums) total
                      (Gather.rf_layout (Gather.ret_ref_free_eval out))
        /\ is_average (Gather.rf_color free_sums) total
                      (Gather.rf_color (Gather.ret_ref_free_eval out))
        /\ Gather.printed_failed out = Gather.fail_num final
        /\ Gather.printed_total out = total)
  /\ (forall final r f rate,
        (0 < Gather.total_num final)%nat ->
        Gather.ref_eval_div (Gather.ref_eval_result final)
                            (Z.of_nat (Gather.total_num final)) = Ok r ->
        Gather.ref_free_div (Gather.ref_free_eval_result final)
                            (Z.of_nat (Gather.total_num final)) = Ok f ->
        Gather.success_rate final = Ok rate ->
        exists out, Gather.report final = Ok out).
Proof.
  intros Hnone. split; [|split].
  - unfold Gather.gather_slide.
    rewrite (find_best_round_none _ _ Hnone). reflexivity.
  - intros final out Hpos. unfold Gather.report, Gather.averages.
    apply Nat.ltb_lt in Hpos as Hb. rewrite Hb. clear Hb.
    intros H. apply rbind_Ok in H as ([r f] & Havg & H).
    apply rbind_Ok in Havg as (r' & Hr & Havg).
    apply rbind_Ok in Havg as (f' & Hf & Havg).
    injection Havg as -> ->.
    apply ref_eval_div_Ok in Hr as (m & t & c & p & Hm & Ht & Hc & Hp & ->).
    apply ref_free_div_Ok in Hf as (ft & fi & fl & fc & Hft & Hfi & Hfl & Hfc & ->).
    apply rbind_Ok in H as (rate & Hrate & H).
    unfold Gather.as_products in H.
    cbn [Gather.rf_text Gather.rf_image Gather.rf_layout Gather.rf_color] in H.
    rewrite mean8_floats in H. simpl in H. injection H as <-. simpl.
    unfold is_average. repeat split; eauto.
  - intros final r f rate Hpos Hr Hf Hrate.
    unfold Gather.report, Gather.averages.
    apply Nat.ltb_lt in Hpos as Hb. rewrite Hb, Hr. simpl. rewrite Hf. simpl.
    rewrite Hrate. simpl.
    apply ref_eval_div_Ok in Hr as (m & t & c & p & _ & _ & _ & _ & ->).
    apply ref_free_div_Ok in Hf as (ft & fi & fl & fc & _ & _ & _ & _ & ->).
    unfold Gather.as_products.
    cbn [Gather.rf_text Gather.rf_image Gather.rf_layout Gather.rf_color].
    rewrite mean8_floats. simpl. eauto.
Qed.



Variable pptx_slides : string -> option nat.

Local Abbreviation gather_results :=
  (Gather.gather_results float json_load pptx_slides).

(** C10. When no item is examined, [total_num] stays 0: the averaging is
    skipped by its [total_num > 0] guard and the unguarded success-rate
    division raises [ZeroDivisionError]. This is the case when the deck
    of every selected category is missing. *)
Theorem no_items_zero_division fs test_id slide_name :
  (forall name, name ∈ Gather.names_of slide_name ->
                FS.exists_ fs (Gather.slide_path name) = false) ->
  gather_results fs test_id slide_name = Raise ZeroDivisionError
  /\ (forall acc, Gather.total_num acc = 0%nat ->
        Gather.averages acc
          = Ok (Gather.ref_eval_result acc, Gather.ref_free_eval_result acc)
        /\ Gather.success_rate acc = Raise ZeroDivisionError
        /\ Gather.report acc = Raise ZeroDivisionError).
Proof.
  intros Hmissing.
  assert (Hzero : forall acc, Gather.total_num acc = 0%nat ->
        Gather.averages acc
          = Ok (Gather.ref_eval_result acc, Gather.ref_free_eval_result acc)
        /\ Gather.success_rate acc = Raise ZeroDivisionError
        /\ Gather.report acc = Raise ZeroDivisionError).
  { intros acc H0.
    unfold Gather.report, Gather.averages, Gather.success_rate.
    rewrite H0. simpl. auto. }
  split; [|exact Hzero].
  unfold Gather.gather_results.
  assert (Hnames : forall names acc,
             (forall name, name ∈ names ->
                           FS.exists_ fs (Gather.slide_path name) = false) ->
             Gather.gather_names float json_load pptx_slides fs test_id acc names
             = Ok acc).
  { induction names as [|name rest IH]; intros acc Hall; simpl; [reflexivity|].
    unfold Gather.gather_name. rewrite Hall by constructor. simpl.
    apply IH. intros x Hx. apply Hall. constructor. exact Hx. }
  rewrite (Hnames _ _ Hmissing). simpl.
  apply (Hzero Gather.totals_init). reflexivity.
Qed.

Lemma parse_line_unambiguous r line m :
  Gather.unambiguous line ->
  Str.contains (Gather.keyword m) line = true ->
  parse_line r line = (v <-! float_field line; Ok (Gather.set_metric m v r)).
Proof.
  intros Hun Hm. unfold Gather.parse_line.
  destruct (Str.contains "match" line) eqn:E1.
  { rewrite (Hun m Gather.Match Hm E1). reflexivity. }
  destruct (Str.contains "text" line) eqn:E2.
  { rewrite (Hun m Gather.Text Hm E2). reflexivity. }
  destruct (Str.contains "color" line) eqn:E3.
  { rewrite (Hun m Gather.Color Hm E3). reflexivity. }
  destruct (Str.contains "position" line) eqn:E4.
  { rewrite (Hun m Gather.Position Hm E4). reflexivity. }
  destruct m; simpl in Hm; congruence.
Qed.

Lemma parse_line_own r line m v :
  Gather.unambiguous line ->
  Str.contains (Gather.keyword m) line = true ->
  float_field line = Ok v ->
  parse_line r line = Ok (Gather.set_metric m v r).
Proof.
  intros Hun Hm Hv. rewrite (parse_line_unambiguous r line m Hun Hm), Hv.
  reflexivity.
Qed.

(** A line leaves alone every metric whose substring it does not contain. *)
Lemma parse_line_other r line r' m :
  parse_line r line = Ok r' ->
  Str.contains (Gather.keyword m) line = false ->
  Gather.get_metric m r' = Gather.get_metric m r.
Proof.
  unfold Gather.parse_line. intros H Hm.
  destruct (Str.contains "match" line) eqn:E1;
    [|destruct (Str.contains "text" line) eqn:E2;
      [|destruct (Str.contains "color" line) eqn:E3;
        [|destruct (Str.contains "position" line) eqn:E4]]];
    try (apply rbind_Ok in H as (v & _ & H));
    injection H as <-; destruct m; simpl in *; congruence.
Qed.

Lemma parse_lines_other lines :
  forall r r' m,
    parse_lines r lines = Ok r' ->
    Forall (fun l => Str.contains (Gather.keyword m) l = false) lines ->
    Gather.get_metric m r' = Gather.get_metric m r.
Proof.
  induction lines as [|line rest IH]; intros r r' m H Hall; simpl in H.
  - injection H as <-. reflexivity.
  - apply rbind_Ok in H as (r1 & H1 & H2).
    apply Forall_cons in Hall as [Hline Hrest].
    rewrite (IH _ _ _ H2 Hrest). apply (parse_line_other _ _ _ _ H1 Hline).
Qed.

Lemma parse_lines_app r l1 l2 :
  parse_lines r (l1 ++ l2) = (r' <-! parse_lines r l1; parse_lines r' l2).
Proof.
  revert r. induction l1 as [|line rest IH]; intros r; simpl; [reflexivity|].
  destruct (parse_line r line); simpl; [apply IH | reflexivity].
Qed.

Lemma parse_line_total r line :
  (Gather.mentions_metric line -> exists v, float_field line = Ok v) ->
  exists r', parse_line r line = Ok r'.
Proof.
  intros Hp. unfold Gather.parse_line.
  destruct (Str.contains "match" line) eqn:E1.
  { destruct Hp as [v ->]; [exists Gather.Match; exact E1 | simpl; eauto]. }
  destruct (Str.contains "text" line) eqn:E2.
  { destruct Hp as [v ->]; [exists Gather.Text; exact E2 | simpl; eauto]. }
  destruct (Str.contains "color" line) eqn:E3.
  { destruct Hp as [v ->]; [exists Gather.Color; exact E3 | simpl; eauto]. }
  destruct (Str.contains "position" line) eqn:E4.
  { destruct Hp as [v ->]; [exists Gather.Position; exact E4 | simpl; eauto]. }
  eauto.
Qed.

Lemma parse_lines_total lines :
  forall r,
    Forall (fun line => Gather.mentions_metric line ->
                        exists v, float_field line = Ok v) lines ->
    exists r', parse_lines r lines = Ok r'.
Proof.
  induction lines as [|line rest IH]; intros r Hall; simpl; [eauto|].
  apply Forall_cons in Hall as [Hline Hrest].
  destruct (parse_line_total r line Hline) as [r1 ->]. simpl.
  apply IH, Hrest.
Qed.

(** Parsing the lines of an unambiguous report gives each metric the
    value of the last line that contains its substring. *)
Lemma parse_lines_last lines r r' :
  Forall Gather.unambiguous lines ->
  parse_lines r lines = Ok r' ->
  forall m pre line post v,
    lines = pre ++ line :: post ->
    Str.contains (Gather.keyword m) line = true ->
    Forall (fun l => Str.contains (Gather.keyword m) l = false) post ->
    float_field line = Ok v ->
    Gather.get_metric m r' = v.
Proof.
  intros Hun Hr' m pre line post v -> Hm Hpost Hv.
  rewrite parse_lines_app in Hr'.
  apply rbind_Ok in Hr' as (r1 & _ & H2). simpl in H2.
  apply Forall_app in Hun as [_ Hun].
  apply Forall_cons in Hun as [Hline _].
  rewrite (parse_line_own r1 line m v Hline Hm Hv) in H2. simpl in H2.
  rewrite (parse_lines_other _ _ _ _ H2 Hpost).
  destruct m; reflexivity.
Qed.

(** C5. A line of the reference-based report that contains "match" sets
    the match metric to the float read after the first ": " of the line
    (the text up to the next ": ", the rest of the line when there is
    none); on a line that contains only one of the four substrings, that
    substring's metric is set in the same way. When no line of a report
    contains more than one of the substrings, parsing yields each metric
    from its own line: the last line that contains its substring. This
    is what reading the report file of a round gives: its text is split
    at the newlines, every line is parsed in order, a metric no line
    names stays the integer 0, and the result is the reference-based
    half of what the round loads. *)
Theorem ref_based_report_parsing :
  (forall r line,
      Str.contains "match" line = true ->
      parse_line r line =
      (v <-! float_field line; Ok (Gather.set_metric Gather.Match v r)))
  /\
  (forall r line m,
      Gather.unambiguous line ->
      Str.contains (Gather.keyword m) line = true ->
      parse_line r line =
      (v <-! float_field line; Ok (Gather.set_metric m v r)))
  /\
  (forall label rest,
      Str.contains ": " label = false ->
      float_field (label +:+ ": " +:+ rest) =
      (piece <-! of_option (head (Str.split rest ": ")) IndexError;
       x <-! of_option (float piece) ValueError;
       Ok (Float x))
      /\ (Str.contains ": " rest = false ->
          float_field (label +:+ ": " +:+ rest) =
          (x <-! of_option (float rest) ValueError; Ok (Float x))))
  /\
  (forall lines r,
      Forall Gather.unambiguous lines ->
      Forall (fun line => Gather.mentions_metric line ->
                          exists v, float_field line = Ok v) lines ->
      exists r',
        parse_lines r lines = Ok r'
        /\ forall m pre line post v,
             lines = pre ++ line :: post ->
             Str.contains (Gather.keyword m) line = true ->
             Forall (fun l => Str.contains (Gather.keyword m) l = false) post ->
             float_field line = Ok v ->
             Gather.get_metric m r' = v)
  /\
  (forall fs slide_dir k text rf,
      let round_dir := Path.join slide_dir [Str.of_nat k] in
      let lines := Str.split text newline in
      Gather.round_complete fs slide_dir k = true ->
      FS.read fs (Path.join round_dir [Gather.ref_based_name]) = Ok text ->
      read_ref_free fs (Path.join round_dir [Gather.ref_free_name]) = Ok rf ->
      Forall Gather.unambiguous lines ->
      Forall (fun line => Gather.mentions_metric line ->
                          exists v, float_field line = Ok v) lines ->
      exists re,
        read_ref_based fs (Path.join round_dir [Gather.ref_based_name]) = Ok re
        /\ load_round fs slide_dir k = Ok (Some (re, rf))
        /\ (forall m pre line post v,
              lines = pre ++ line :: post ->
              Str.contains (Gather.keyword m) line = true ->
              Forall (fun l => Str.contains (Gather.keyword m) l = false) post ->
              float_field line = Ok v ->
              Gather.get_metric m re = v)
        /\ (forall m,
              Forall (fun l => Str.contains (Gather.keyword m) l = false) lines ->
              Gather.get_metric m re = Int 0)).
Proof.
  split; [|split; [|split; [|split]]].
  - intros r line H. unfold Gather.parse_line. rewrite H. reflexivity.
  - intros r line m Hun Hm. apply (parse_line_unambiguous r line m Hun Hm).
  - intros label rest Hlabel.
    assert (Hsplit : Str.split (label +:+ ": " +:+ rest) ": "
                     = label :: Str.split rest ": ").
    { unfold Str.split. rewrite split_go_first_sep by exact Hlabel.
      reflexivity. }
    split.
    + unfold Gather.float_field. rewrite Hsplit.
      change ((label :: Str.split rest ": ") !! 1%nat)
        with (Str.split rest ": " !! 0%nat).
      rewrite <- head_lookup. reflexivity.
    + intros Hrest. unfold Gather.float_field. rewrite Hsplit.
      unfold Str.split. rewrite split_go_no_sep by exact Hrest.
      reflexivity.
  - intros lines r Hun Hparse.
    destruct (parse_lines_total lines r Hparse) as [r' Hr'].
    exists r'. split; [exact Hr'|].
    apply (parse_lines_last lines r r' Hun Hr').
  - intros fs slide_dir k text rf round_dir lines Hc Htext Hrf Hun Hparse.
    destruct (parse_lines_total lines Gather.ref_eval_zero Hparse) as [re Hre].
    assert (Hread : read_ref_based fs (Path.join round_dir [Gather.ref_based_name])
                    = Ok re).
    { unfold Gather.read_ref_based. rewrite Htext. exact Hre. }
    exists re. split; [exact Hread|]. split; [|split].
    + unfold Gather.load_round. rewrite Hc. cbv zeta. fold round_dir.
      rewrite Hread. cbn [rbind]. rewrite Hrf. reflexivity.
    + apply (parse_lines_last lines _ re Hun Hre).
    + intros m Hnone. rewrite (parse_lines_other _ _ _ m Hre Hnone).
      destruct m; reflexivity.
Qed.

End GatherProperties.

(** ** The runner *)

Section RunnerProperties.

Variable api_key : option string.
Variable sys_executable : string.
Variable str_Path : string -> string.
Variable mkdir : string -> option string.
Variable spawn : list string -> Runner.child.
Variable str_CalledProcessError : list string -> Z -> string.
Variable str_exn : exn -> string.

Local Abbreviation output_base := (Runner.output_base str_Path).
Local Abbreviation prepare :=
  (Runner.prepare api_key sys_executable str_Path mkdir).
Local Abbreviation run_autopresent_task :=
  (Runner.run_autopresent_task api_key sys_executable str_Path mkdir spawn
                               str_CalledProcessError).
Local Abbreviation collect_future :=
  (Runner.collect_future api_key sys_executable str_Path mkdir spawn
                         str_CalledProcessError str_exn).
Local Abbreviation run_sequential :=
  (Runner.run_sequential api_key sys_executable str_Path mkdir spawn
                         str_CalledProcessError).
Local Abbreviation run_tasks_parallel :=
  (Runner.run_tasks_parallel api_key sys_executable str_Path mkdir spawn
                             str_CalledProcessError str_exn).
Local Abbreviation succeeded :=
  (Runner.succeeded api_key sys_executable str_Path mkdir spawn
                    str_CalledProcessError).
Local Abbreviation run_tasks :=
  (Runner.run_tasks api_key sys_executable str_Path mkdir spawn
                    str_CalledProcessError str_exn).

(** The statements before the [try] succeed when the output directory
    can be made and [OPENAI_API_KEY] is set. *)
Lemma prepare_ok key tc a :
  api_key = Some key -> mkdir (output_base tc a) = None ->
  prepare tc a = Ok (Runner.command sys_executable key tc a (output_base tc a)).
Proof. intros Hkey Hdir. unfold Runner.prepare. rewrite Hdir, Hkey. reflexivity. Qed.

(** They raise when the directory cannot be made, and otherwise when
    the key is unset. *)
Lemma prepare_raises tc a :
  (forall message, mkdir (output_base tc a) = Some message ->
                   prepare tc a = Raise (OSError message))
  /\ (mkdir (output_base tc a) = None -> api_key = None ->
      prepare tc a = Raise TypeError).
Proof.
  unfold Runner.prepare. split.
  - intros message ->. reflexivity.
  - intros -> ->. reflexivity.
Qed.

(** Once the [try] is entered the task returns. *)
Lemma run_autopresent_task_returns tc a cmd :
  prepare tc a = Ok cmd -> exists r, run_autopresent_task tc a = Ok r.
Proof.
  intros Hcmd. unfold Runner.run_autopresent_task. rewrite Hcmd.
  cbn [rbind].
  destruct (fst (Runner.subprocess_run 3600 _)); eauto.
Qed.

(** An exception of the statements before the [try] leaves the task. *)
Lemma run_autopresent_task_raises tc a e :
  prepare tc a = Raise e -> run_autopresent_task tc a = Raise e.
Proof.
  intros He. unfold Runner.run_autopresent_task. rewrite He. reflexivity.
Qed.

(** With the command line built, a dispatched task returns an outcome,
    and the outcome is fixed by how the child ends: exit status 0 within
    3600 seconds is a success; a non-zero exit status is a failure that
    carries the text of the error; a child still running at 3600 seconds
    is killed and the failure reads "Timeout"; any other exception of
    the launch or the wait is a failure that carries its text. *)
Lemma task_outcome_classified tc a cmd :
  prepare tc a = Ok cmd ->
  let name := Runner.display_name tc in
  exists r,
    run_autopresent_task tc a = Ok r
    /\ Runner.tr_task_name r = name
    /\ (forall seconds,
          spawn cmd = Runner.Exits 0 seconds -> (seconds <= 3600)%Q ->
          r = Runner.mk_task_result name true ""
                ("Task completed successfully: " +:+ name))
    /\ (forall returncode seconds,
          spawn cmd = Runner.Exits returncode seconds -> (seconds <= 3600)%Q ->
          returncode <> 0%Z ->
          r = Runner.mk_task_result name false
                (str_CalledProcessError cmd returncode)
                ("Task failed: " +:+ name +:+ ", Error: "
                 +:+ str_CalledProcessError cmd returncode))
    /\ (spawn cmd = Runner.Hangs
        \/ (exists returncode seconds,
              spawn cmd = Runner.Exits returncode seconds
              /\ (3600 < seconds)%Q) ->
        r = Runner.mk_task_result name false "Timeout"
              ("Task timed out: " +:+ name)
        /\ snd (Runner.subprocess_run 3600 (spawn cmd)) = true)
    /\ (forall message,
          spawn cmd = Runner.CannotRun message ->
          r = Runner.mk_task_result name false message
                ("Task failed with exception: " +:+ name
                 +:+ ", Error: " +:+ message)).
Proof.
  intros Hcmd name.
  unfold Runner.run_autopresent_task. rewrite Hcmd. cbn [rbind].
  fold name.
  destruct (spawn cmd) as [returncode seconds| |message] eqn:Hspawn;
    cbn [Runner.subprocess_run];
    [destruct (Qle_bool seconds 3600) eqn:Hle;
     [destruct (Z.eqb_spec returncode 0) as [->|Hne]|]| |];
    cbn [fst snd]; (eexists; split; [reflexivity|]);
    (split; [reflexivity|]); repeat split; intros;
    repeat match goal with
      | H : _ \/ _ |- _ => destruct H
      | H : exists _, _ |- _ => destruct H
      | H : _ /\ _ |- _ => destruct H
      end;
    simplify_eq; try reflexivity;
    exfalso;
    repeat match goal with
      | H : (_ <= 3600)%Q |- _ => apply Qle_bool_iff in H
      | H : (3600 < _)%Q |- _ =>
          apply Qlt_not_le in H; rewrite <- Qle_bool_iff in H
      end;
    congruence.
Qed.

Lemma count_result_one acc r :
  Runner.one_count_more acc (Runner.count_result acc r).
Proof.
  unfold Runner.one_count_more, Runner.count_result.
  destruct (Runner.tr_success r); simpl; auto.
Qed.

Lemma collect_future_one a acc tc :
  Runner.one_count_more acc (collect_future a acc tc).
Proof.
  unfold Runner.collect_future.
  destruct (run_autopresent_task tc a); [apply count_result_one|].
  unfold Runner.one_count_more. simpl. auto.
Qed.

Lemma one_count_more_counted acc acc' :
  Runner.one_count_more acc acc' -> Runner.counted acc' = S (Runner.counted acc).
Proof. unfold Runner.counted. intros [[-> ->]|[-> ->]]; lia. Qed.

Lemma collect_all a completion :
  forall acc,
    Runner.counted (foldl (collect_future a) acc completion)
    = (Runner.counted acc + length completion)%nat.
Proof.
  induction completion as [|tc rest IH]; intros acc; simpl; [lia|].
  rewrite IH, (one_count_more_counted _ _ (collect_future_one a acc tc)). lia.
Qed.

Lemma run_sequential_counted a tasks :
  forall acc t,
    run_sequential a acc tasks = Ok t ->
    Runner.counted t = (Runner.counted acc + length tasks)%nat.
Proof.
  induction tasks as [|tc rest IH]; intros acc t H; simpl in H.
  - injection H as <-. simpl. lia.
  - apply rbind_Ok in H as (r & _ & H). apply IH in H.
    rewrite H, (one_count_more_counted _ _ (count_result_one acc r)).
    simpl. lia.
Qed.

(** The sequential loop returns when every task does. *)
Lemma run_sequential_returns a tasks :
  (forall tc, tc ∈ tasks -> exists r, run_autopresent_task tc a = Ok r) ->
  forall acc, exists t, run_sequential a acc tasks = Ok t.
Proof.
  induction tasks as [|tc rest IH]; intros Hall acc; simpl; [eauto|].
  destruct (Hall tc) as (r & ->); [constructor|].
  simpl. apply IH. intros tc' Hin. apply Hall. constructor. exact Hin.
Qed.

(** It raises what its first task raises. *)
Lemma run_sequential_raises a acc tc rest e :
  run_autopresent_task tc a = Raise e ->
  run_sequential a acc (tc :: rest) = Raise e.
Proof. intros He. simpl. rewrite He. reflexivity. Qed.

Lemma collect_exact a completion :
  forall acc,
    Runner.successful_tasks (foldl (collect_future a) acc completion)
    = (Runner.successful_tasks acc
       + length (filter (fun tc => succeeded a tc = true) completion))%nat
    /\ Runner.failed_tasks (foldl (collect_future a) acc completion)
       = (Runner.failed_tasks acc
          + length (filter (fun tc => succeeded a tc = false) completion))%nat.
Proof.
  induction completion as [|tc rest IH]; intros acc; simpl; [lia|].
  destruct (IH (collect_future a acc tc)) as [-> ->].
  rewrite !filter_cons.
  unfold Runner.collect_future, Runner.succeeded, Runner.count_result.
  destruct (run_autopresent_task tc a) as [r|e]; [destruct (Runner.tr_success r)|];
    repeat case_decide; try congruence; simpl; lia.
Qed.

Lemma run_sequential_exact a tasks :
  forall acc t,
    run_sequential a acc tasks = Ok t ->
    Runner.successful_tasks t
    = (Runner.successful_tasks acc
       + length (filter (fun tc => succeeded a tc = true) tasks))%nat
    /\ Runner.failed_tasks t
       = (Runner.failed_tasks acc
          + length (filter (fun tc => succeeded a tc = false) tasks))%nat.
Proof.
  induction tasks as [|tc rest IH]; intros acc t H; simpl in H.
  - injection H as <-. simpl. lia.
  - apply rbind_Ok in H as (r & Hr & H). destruct (IH _ _ H) as [-> ->].
    rewrite !filter_cons. unfold Runner.succeeded, Runner.count_result.
    rewrite Hr. destruct (Runner.tr_success r);
      repeat case_decide; try congruence; simpl; lia.
Qed.

(** C7 (the code departs from it). A task returns an outcome only once
    its [try] is entered. The statements before it are not guarded: when
    the output directory cannot be made the task raises [OSError], and
    when [OPENAI_API_KEY] is unset it raises [TypeError] while printing
    the command line, in both cases before any child is started. The
    sequential loop calls the task without a handler, so the exception
    of the first such task ends the run and no count is returned; the
    parallel collector catches it and counts a failure. When the
    statements before the [try] succeed, the task returns. *)
Theorem task_exception_aborts_sequential_run tc a :
  (forall message,
      mkdir (output_base tc a) = Some message ->
      run_autopresent_task tc a = Raise (OSError message))
  /\ (mkdir (output_base tc a) = None -> api_key = None ->
      run_autopresent_task tc a = Raise TypeError)
  /\ (forall e rest completion,
        run_autopresent_task tc a = Raise e ->
        Runner.sequential a = true ->
        run_tasks a (tc :: rest) completion = Raise e)
  /\ (forall e acc,
        run_autopresent_task tc a = Raise e ->
        collect_future a acc tc =
        Runner.mk_tally (Runner.successful_tasks acc)
          (S (Runner.failed_tasks acc))
          (Runner.failed_task_details acc
           ++ [(Str.last_piece (Runner.task_dir tc) "/", str_exn e)]))
  /\ (forall key,
        api_key = Some key -> mkdir (output_base tc a) = None ->
        exists r, run_autopresent_task tc a = Ok r).
Proof.
  split; [|split; [|split; [|split]]].
  - intros message H. apply run_autopresent_task_raises.
    apply (proj1 (prepare_raises tc a)), H.
  - intros Hdir Hkey. apply run_autopresent_task_raises.
    apply (proj2 (prepare_raises tc a)); assumption.
  - intros e rest completion He Hseq. unfold Runner.run_tasks. rewrite Hseq.
    apply run_sequential_raises, He.
  - intros e acc He. unfold Runner.collect_future. rewrite He. reflexivity.
  - intros key Hkey Hdir.
    apply (run_autopresent_task_returns tc a _ (prepare_ok key tc a Hkey Hdir)).
Qed.

(** C8. In both execution modes the success count and the failure count
    that the scheduler returns add up to the number of dispatched tasks,
    in whatever order the parallel tasks complete, and every task adds
    one to exactly one of the two counts: the success count is the number
    of tasks that return with success, the failure count the number of the
    others. The parallel scheduler returns when the worker count is
    positive, the sequential one when the command line of every task can
    be built: the key is set and the output directories can be made. *)
Theorem counts_add_up a tasks completion :
  completion ≡ₚ tasks ->
  (forall t,
      run_tasks a tasks completion = Ok t ->
      (Runner.successful_tasks t + Runner.failed_tasks t)%nat = length tasks
      /\ Runner.successful_tasks t
         = length (filter (fun tc => succeeded a tc = true) tasks)
      /\ Runner.failed_tasks t
         = length (filter (fun tc => succeeded a tc = false) tasks))
  /\ (Runner.sequential a = false -> (0 < Runner.max_workers a)%Z ->
      exists t, run_tasks a tasks completion = Ok t)
  /\ (Runner.sequential a = true -> is_Some api_key ->
      (forall tc, tc ∈ tasks -> mkdir (output_base tc a) = None) ->
      exists t, run_tasks a tasks completion = Ok t)
  /\ (forall acc tc, Runner.one_count_more acc (collect_future a acc tc))
  /\ (forall acc r, Runner.one_count_more acc (Runner.count_result acc r)).
Proof.
  intros Hperm. unfold Runner.run_tasks, Runner.run_tasks_parallel.
  split; [|split; [|split; [|split]]].
  - intros t. destruct (Runner.sequential a).
    + intros H. split; [apply run_sequential_counted in H; exact H|].
      apply run_sequential_exact in H. exact H.
    + destruct (Runner.max_workers a <=? 0)%Z; [discriminate|].
      intros [= <-]. split.
      * fold (Runner.counted (foldl (collect_future a)
                                    Runner.tally_init completion)).
        rewrite collect_all. simpl. apply Permutation_length, Hperm.
      * destruct (collect_exact a completion Runner.tally_init) as [-> ->].
        simpl. split; apply Permutation_length, filter_Permutation, Hperm.
  - intros -> Hpos.
    destruct (Z.leb_spec (Runner.max_workers a) 0); [lia | eauto].
  - intros -> [key Hkey] Hdirs. apply run_sequential_returns.
    intros tc Hin.
    apply (run_autopresent_task_returns tc a _
             (prepare_ok key tc a Hkey (Hdirs tc Hin))).
  - intros acc tc. apply collect_future_one.
  - intros acc r. apply count_result_one.
Qed.

End RunnerProperties.

(** ** What a written file changes *)

(** A write changes the entry of the file and the listing of its
    directory, and nothing else. *)
Lemma write_lookup_ne (fs : filesystem) (p q text : string) :
  q <> p -> q <> Path.dirname p ->
  FS.write fs p text !! q = fs !! q.
Proof.
  intros Hp Hd. unfold FS.write.
  destruct (fs !! p) as [[c|es]|]; try reflexivity;
    destruct (fs !! Path.dirname p) as [[c'|es']|];
    rewrite ?(lookup_insert_ne _ (Path.dirname p) q) by congruence;
    rewrite ?(lookup_insert_ne _ p q) by congruence; reflexivity.
Qed.

(** The directory of a written file keeps its entries and may gain the
    name of the file. *)
Lemma write_lookup_dir (fs : filesystem) (p q text : string) (es : list string) :
  fs !! q = Some (Dir es) ->
  FS.write fs p text !! q = Some (Dir es)
  \/ (q = Path.dirname p
      /\ FS.write fs p text !! q = Some (Dir (es ++ [Path.basename p]))).
Proof.
  intros Hq. unfold FS.write.
  destruct (fs !! p) as [[c|es0]|] eqn:Hp; try (left; exact Hq);
    (destruct (decide (q = Path.dirname p)) as [->|Hd];
     [rewrite Hq, lookup_insert_eq; unfold FS.with_entry;
      case_bool_decide; [left; reflexivity | right; split; reflexivity]
     |left;
      destruct (fs !! Path.dirname p) as [[c'|es']|];
      rewrite ?(lookup_insert_ne _ (Path.dirname p) q) by congruence;
      (rewrite lookup_insert_ne; [exact Hq | congruence])]).
Qed.

(** The entry a write leaves at any path. *)
Lemma write_lookup (fs : filesystem) (p q text : string) :
  FS.write fs p text !! q =
  match fs !! p with
  | Some (Dir _) => fs !! q
  | _ =>
      match fs !! Path.dirname p with
      | Some (Dir es) =>
          if decide (q = Path.dirname p)
          then Some (Dir (FS.with_entry (Path.basename p) es))
          else if decide (q = p) then Some (File text) else fs !! q
      | _ => if decide (q = p) then Some (File text) else fs !! q
      end
  end.
Proof.
  unfold FS.write.
  destruct (fs !! p) as [[c|es]|]; try reflexivity;
    destruct (fs !! Path.dirname p) as [[c'|es']|];
    repeat case_decide;
    repeat match goal with
      | |- <[?k := _]> _ !! ?k' = _ =>
          first [ rewrite (lookup_insert_ne _ k k') by congruence
                | replace k' with k by congruence; rewrite lookup_insert_eq ]
      end; reflexivity.
Qed.


(** A write creates no other path. *)
Lemma exists_write_ne (fs : filesystem) (p q text : string) :
  p <> q -> FS.exists_ (FS.write fs p text) q = FS.exists_ fs q.
Proof.
  intros Hne. unfold FS.exists_. apply bool_decide_ext. rewrite write_lookup.
  destruct (fs !! p) as [[c|es]|]; try reflexivity;
    destruct (fs !! Path.dirname p) as [[c'|es']|] eqn:Hd;
    repeat case_decide; subst; try congruence; try reflexivity;
    rewrite Hd; split; eauto.
Qed.

Lemma run_scorer_exists_ne (fs : filesystem) (p q : string) (w : option string) :
  String.eqb p q = false ->
  FS.exists_ (Evaluate.run_scorer fs p w) q = FS.exists_ fs q.
Proof.
  intros Hne. apply String.eqb_neq in Hne.
  destruct w as [text|]; [apply exists_write_ne, Hne | reflexivity].
Qed.

(** ** The dispatcher and the aggregator together *)

Lemma evaluate_unscored
    (page_eval : filesystem -> string -> string -> nat -> option string)
    (reference_free_eval : filesystem -> string -> option string) :
  exists a b,
    fst (Evaluate.evaluate_single_slide page_eval reference_free_eval
           Demo.fs_unscored "output/autopresent/T/business" 1)
    = Evaluate.run_scorer
        (Evaluate.run_scorer Demo.fs_unscored
           (Demo.slide_dir +:+ "/1/ref_based.txt") a)
        (Demo.slide_dir +:+ "/1/ref_free.txt") b.
Proof.
  unfold Evaluate.evaluate_single_slide.
  set (rp := Path.join2 "output/autopresent/T/business" ("slide_" +:+ Str.of_nat 1)).
  assert (Hl : FS.listdir Demo.fs_unscored rp = Ok ["1"]) by (vm_compute; reflexivity).
  rewrite Hl.
  assert (Hs : Evaluate.sorted_by_int (List.filter Str.isdigit ["1"]) = Ok ["1"])
    by reflexivity.
  rewrite Hs. cbn [foldl fst]. unfold Evaluate.evaluate_round.
  set (pptx := Path.join rp ["1" +:+ "/refine.pptx"]).
  assert (Hp : FS.exists_ Demo.fs_unscored pptx = true) by (vm_compute; reflexivity).
  rewrite Hp.
  assert (Hd : Path.join (Path.dirname pptx) [Evaluate.ref_based_name]
               = Demo.slide_dir +:+ "/1/ref_based.txt") by (vm_compute; reflexivity).
  assert (Hf : Path.join (Path.dirname pptx) [Evaluate.ref_free_name]
               = Demo.slide_dir +:+ "/1/ref_free.txt") by (vm_compute; reflexivity).
  rewrite Hd, Hf.
  rewrite run_scorer_exists_ne by (vm_compute; reflexivity).
  assert (Hj : FS.exists_ Demo.fs_unscored (Str.replace pptx ".pptx" ".jpg") = true)
    by (vm_compute; reflexivity).
  rewrite Hj. eauto.
Qed.

Lemma round_incomplete_without_ref_free fs slide_dir k :
  FS.exists_ fs (Path.join (Path.join slide_dir [Str.of_nat k])
                           [Gather.ref_free_name]) = false ->
  Gather.round_complete fs slide_dir k = false.
Proof.
  intros H. unfold Gather.round_complete. rewrite H, !andb_false_r. reflexivity.
Qed.

(** C1 (the code departs from it). The dispatcher writes the reference-free
    report of a round to [ref_free.txt], while the aggregator counts a round
    as complete only when [ref_free.json] is present; the reference-based
    report has the same name, [ref_based.txt], on both sides. On an item
    with one round that holds a generated deck and its preview, whatever
    the two scorers write, the dispatcher leaves no [ref_free.json], the
    aggregator finds the round incomplete and selects no round; with
    scorers that write their reports both [ref_based.txt] and
    [ref_free.txt] are there, and the item is still counted as failed. *)
Theorem dispatcher_report_not_found_by_aggregator :
  Evaluate.ref_free_name <> Gather.ref_free_name
  /\ Evaluate.ref_based_name = Gather.ref_based_name
  /\ (forall page_eval reference_free_eval float json_load,
        let fs' :=
          fst (Evaluate.evaluate_single_slide page_eval reference_free_eval
                 Demo.fs_unscored "output/autopresent/T/business" 1) in
        FS.exists_ fs' (Demo.slide_dir +:+ "/1/ref_free.json") = false
        /\ Gather.round_complete fs' Demo.slide_dir 1 = false
        /\ Gather.find_best_round float json_load fs' Demo.slide_dir
           = Ok Gather.best_init)
  /\ (let fs' :=
        fst (Evaluate.evaluate_single_slide Demo.page_eval
               Demo.reference_free_eval
               Demo.fs_unscored "output/autopresent/T/business" 1) in
      FS.exists_ fs' (Demo.slide_dir +:+ "/1/ref_based.txt") = true
      /\ FS.exists_ fs' (Demo.slide_dir +:+ "/1/ref_free.txt") = true
      /\ exists out,
           Gather.gather_results Demo.float Demo.json_load Demo.pptx_slides
                                 fs' "T" "business" = Ok out
           /\ Gather.printed_total out = 1%nat
           /\ Gather.printed_failed out = 1%nat).
Proof.
  split; [discriminate|]. split; [reflexivity|]. split.
  - intros page_eval reference_free_eval float json_load fs'. subst fs'.
    destruct (evaluate_unscored page_eval reference_free_eval) as (a & b & ->).
    assert (Hjson : forall k, (1 <= k <= 10)%nat ->
              FS.exists_
                (Evaluate.run_scorer
                   (Evaluate.run_scorer Demo.fs_unscored
                      (Demo.slide_dir +:+ "/1/ref_based.txt") a)
                   (Demo.slide_dir +:+ "/1/ref_free.txt") b)
                (Path.join (Path.join Demo.slide_dir [Str.of_nat k])
                           [Gather.ref_free_name]) = false).
    { intros k Hk. round_cases k Hk;
        rewrite !run_scorer_exists_ne by (vm_compute; reflexivity);
        vm_compute; reflexivity. }
    split; [|split].
    + apply (Hjson 1%nat). lia.
    + apply round_incomplete_without_ref_free, Hjson. lia.
    + apply find_best_round_none. intros k Hk.
      apply round_incomplete_without_ref_free, Hjson, Hk.
  - vm_compute. repeat split. eexists. repeat split.
Qed.

(** ** The task loader *)

(** C9 (the code departs from it). With an item identifier the loader
    resolves one directory without looking at the file system, but names it
    [slides_<id>], which the pattern [slide_*] of the enumeration does not
    match. On a dataset whose category holds the item [slide_1] with its
    required files, the enumeration finds the task, the identifier 1
    resolves to the absent [slides_1], the loader returns no task without
    raising, and the run ends with exit status 1. *)
Theorem task_id_directory_off_convention :
  (forall id, Str.startswith ("slides_" +:+ id) "slide_" = false)
  /\ (forall fs base_path task_name id,
        Runner.task_dirs fs base_path task_name (Some id)
        = [(Path.join base_path [task_name; "slides_" +:+ id], task_name)])
  /\ Runner.load_autopresent_dataset Demo.fs_dataset Demo.dataset "business" None
     = [Demo.task_slide_1]
  /\ Runner.task_dirs Demo.fs_dataset Demo.dataset "business" (Some "1")
     = [("data/autopresent/examples/business/slides_1", "business")]
  /\ Runner.load_autopresent_dataset Demo.fs_dataset Demo.dataset "business"
                                     (Some "1") = []
  /\ Runner.main_tasks Demo.fs_dataset (Demo.args_business None false)
     = Ok [Demo.task_slide_1]
  /\ Runner.main_tasks Demo.fs_dataset (Demo.args_business (Some "1") false)
     = Raise (SystemExit 1).
Proof.
  split; [intros id; reflexivity|].
  split; [intros fs base_path task_name id; reflexivity|].
  repeat split; vm_compute; reflexivity.
Qed.

(** ** The theorems at concrete inputs *)

Lemma best_round_is_first_maximum_witness :
  exists re rf,
    Gather.find_best_round Demo.float Demo.json_load Demo.fs_70_85_85
                           Demo.slide_dir
    = Ok (Gather.mk_best 85 (Some re) (Some rf) (Some 2%nat)).
Proof.
  eexists. eexists.
  apply (proj1 (best_round_is_first_maximum Demo.float Demo.json_load)).
  - lia.
  - intros j Hj. round_cases j Hj; eexists; vm_compute; reflexivity.
  - vm_compute. reflexivity.
  - vm_compute. reflexivity.
  - vm_compute. reflexivity.
  - intros j s' Hj H. round_cases j Hj; vm_compute in H;
      try discriminate H; injection H as <-; vm_compute; reflexivity.
  - intros j s' Hj H. assert (j = 1%nat) as -> by lia.
    vm_compute in H. injection H as <-. vm_compute. reflexivity.
Defined.

Lemma incomplete_round_is_skipped_witness :
  Gather.scan_round Demo.float Demo.json_load Demo.fs_partial Demo.slide_dir
                    Gather.best_init 1
  = Ok Gather.best_init.
Proof.
  refine (proj1 (incomplete_round_is_skipped Demo.float Demo.json_load
                   Demo.fs_partial Demo.slide_dir Gather.best_init 1 _)).
  vm_compute. reflexivity.
Defined.

Lemma item_without_complete_round_witness :
  Gather.gather_slide Demo.float Demo.json_load Demo.fs_partial "T" "business"
                      Gather.totals_init 1
  = Ok (Gather.mk_totals Gather.ref_eval_zero Gather.ref_free_zero 1 1).
Proof.
  refine (proj1 (item_without_complete_round Demo.float Demo.json_load
                   Demo.fs_partial "T" "business" Gather.totals_init 1 _)).
  intros k Hk. round_cases k Hk; vm_compute; reflexivity.
Defined.

Lemma report_lines_eq :
  Demo.report_lines
  = ["match: 81.5"; "text: 92"; "color: 70.25"; "position: 60"; ""].
Proof. vm_compute. reflexivity. Qed.

Lemma ref_based_report_parsing_witness :
  exists re rf,
    Gather.load_round Demo.float Demo.json_load Demo.fs_report Demo.slide_dir 1
    = Ok (Some (re, rf))
    /\ Gather.get_metric Gather.Color re = Float 70.25.
Proof.
  destruct (proj2 (proj2 (proj2 (proj2
              (ref_based_report_parsing Demo.float Demo.json_load))))
              Demo.fs_report Demo.slide_dir 1%nat Demo.report_text
              (Gather.mk_ref_free_eval (Number (Float 70)) (Number (Float 70))
                                       (Number (Float 70)) (Number (Float 70))))
    as (re & _ & Hload & Hown & _).
  - vm_compute. reflexivity.
  - vm_compute. reflexivity.
  - vm_compute. reflexivity.
  - fold Demo.report_lines. rewrite report_lines_eq.
    repeat apply Forall_cons_2; try apply Forall_nil_2;
      intros m1 m2; destruct m1, m2; vm_compute; intros; congruence.
  - fold Demo.report_lines. rewrite report_lines_eq.
    repeat apply Forall_cons_2; try apply Forall_nil_2;
      intros Hm;
      first [ eexists; vm_compute; reflexivity
            | destruct Hm as [m Hm]; destruct m; vm_compute in Hm; discriminate ].
  - exists re. eexists. split; [exact Hload|].
    apply (Hown Gather.Color ["match: 81.5"; "text: 92"] "color: 70.25"
                ["position: 60"; ""]).
    + apply report_lines_eq.
    + vm_compute. reflexivity.
    + repeat apply Forall_cons_2; try apply Forall_nil_2; vm_compute; reflexivity.
    + vm_compute. reflexivity.
Defined.



Lemma no_items_zero_division_witness :
  Gather.gather_results Demo.float Demo.json_load Demo.pptx_slides
                        ∅ "T" "all"
  = Raise ZeroDivisionError.
Proof.
  refine (proj1 (no_items_zero_division Demo.float Demo.json_load
                   Demo.pptx_slides ∅ "T" "all" _)).
  intros name _. vm_compute. reflexivity.
Defined.

Lemma task_outcome_classified_example :
  exists r,
    Runner.run_autopresent_task (Some "sk") "python" Demo.str_Path Demo.mkdir
      Demo.spawn_ok Demo.str_CalledProcessError Demo.task_slide_1
      (Demo.args_business None false) = Ok r
    /\ r = Runner.mk_task_result "business/slide_1" true ""
             "Task completed successfully: business/slide_1".
Proof.
  destruct (task_outcome_classified (Some "sk") "python" Demo.str_Path
              Demo.mkdir Demo.spawn_ok Demo.str_CalledProcessError
              Demo.task_slide_1 (Demo.args_business None false) _ eq_refl)
    as (r & Hr & _ & Hok & _).
  exists r. split; [exact Hr|].
  rewrite (Hok 60%Q eq_refl); [reflexivity | vm_compute; discriminate].
Qed.

(** With the key unset the sequential run of two tasks ends with the
    [TypeError] of the first and returns no counts. *)
Lemma task_exception_aborts_sequential_run_witness :
  Runner.run_tasks None "python" Demo.str_Path Demo.mkdir Demo.spawn_ok
    Demo.str_CalledProcessError Demo.str_exn
    (Demo.args_business None true)
    [Demo.task_slide_1; Demo.task_slide_2]
    [Demo.task_slide_1; Demo.task_slide_2] = Raise TypeError.
Proof.
  destruct (task_exception_aborts_sequential_run None "python" Demo.str_Path
              Demo.mkdir Demo.spawn_ok Demo.str_CalledProcessError
              Demo.str_exn Demo.task_slide_1 (Demo.args_business None true))
    as (_ & Hkey & Hseq & _).
  apply Hseq; [|reflexivity].
  apply Hkey; reflexivity.
Defined.

Lemma counts_add_up_witness :
  exists t,
    Runner.run_tasks (Some "sk") "python" Demo.str_Path Demo.mkdir
      Demo.spawn_mixed Demo.str_CalledProcessError Demo.str_exn
      (Demo.args_business None false)
      [Demo.task_slide_1; Demo.task_slide_2]
      [Demo.task_slide_2; Demo.task_slide_1] = Ok t
    /\ (Runner.successful_tasks t + Runner.failed_tasks t)%nat = 2%nat.
Proof.
  destruct (counts_add_up (Some "sk") "python" Demo.str_Path Demo.mkdir
              Demo.spawn_mixed Demo.str_CalledProcessError Demo.str_exn
              (Demo.args_business None false)
              [Demo.task_slide_1; Demo.task_slide_2]
              [Demo.task_slide_2; Demo.task_slide_1])
    as (Hsum & Hpar & _).
  - apply perm_swap.
  - destruct Hpar as [t Ht]; [reflexivity | reflexivity |].
    exists t. split; [exact Ht | apply (proj1 (Hsum t Ht))].
Defined.

(** * Further properties *)

(** ** The order of binary64 *)

Ltac compare_cases :=
  repeat match goal with
    | H : context [Z.compare ?a ?b] |- _ =>
        destruct (Z.compare_spec a b); simpl in H
    | H : context [PosDef.Pos.compare_cont Eq ?a ?b] |- _ =>
        change (PosDef.Pos.compare_cont Eq a b) with (Pos.compare a b) in H;
        destruct (Pos.compare_spec a b); simpl in H
    | |- context [Z.compare ?a ?b] =>
        destruct (Z.compare_spec a b); simpl
    | |- context [PosDef.Pos.compare_cont Eq ?a ?b] =>
        change (PosDef.Pos.compare_cont Eq a b) with (Pos.compare a b);
        destruct (Pos.compare_spec a b); simpl
    end.

Lemma SFcompare_lt_le_trans x y z :
  SFcompare x y = Some Lt ->
  SFcompare y z = Some Lt \/ SFcompare y z = Some Eq ->
  SFcompare x z = Some Lt.
Proof.
  destruct x as [sx|sx| |sx mx ex], y as [sy|sy| |sy my ey],
    z as [sz|sz| |sz mz ez]; simpl;
    try destruct sx; try destruct sy; try destruct sz; simpl;
    intros H1 [H2|H2]; try discriminate; try reflexivity;
    compare_cases; subst; try discriminate; try reflexivity; try lia.
Qed.

Lemma SFcompare_refl_not_lt x : SFcompare x x <> Some Lt.
Proof.
  destruct x as [s|s| |s m e]; simpl; try destruct s; try discriminate;
    rewrite Z.compare_refl;
    change (PosDef.Pos.compare_cont Eq m m) with (Pos.compare m m);
    rewrite Pos.compare_refl; discriminate.
Qed.

Lemma ltb_irrefl (x : binary64) : (x <? x)%float = false.
Proof.
  rewrite ltb_spec. unfold SFltb.
  destruct (SFcompare (Prim2SF x) (Prim2SF x)) as [[| |]|] eqn:E; try reflexivity.
  exfalso. apply (SFcompare_refl_not_lt _ E).
Qed.

Lemma ltb_leb_trans (x y z : binary64) :
  (x <? y)%float = true -> (y <=? z)%float = true -> (x <? z)%float = true.
Proof.
  rewrite !ltb_spec, leb_spec. unfold SFltb, SFleb.
  destruct (SFcompare (Prim2SF x) (Prim2SF y)) as [[| |]|] eqn:E1; try discriminate.
  destruct (SFcompare (Prim2SF y) (Prim2SF z)) as [[| |]|] eqn:E2; try discriminate;
    intros _ _; rewrite (SFcompare_lt_le_trans _ _ _ E1); auto.
Qed.

Lemma ltb_leb (x y : binary64) :
  (x <? y)%float = true -> (x <=? y)%float = true.
Proof.
  rewrite ltb_spec, leb_spec. unfold SFltb, SFleb.
  destruct (SFcompare (Prim2SF x) (Prim2SF y)) as [[| |]|]; try discriminate;
    reflexivity.
Qed.

Lemma ltb_trans (x y z : binary64) :
  (x <? y)%float = true -> (y <? z)%float = true -> (x <? z)%float = true.
Proof. intros H1 H2. apply (ltb_leb_trans x y z H1), ltb_leb, H2. Qed.

(** A NaN exceeds nothing and nothing exceeds it. *)
Lemma ltb_not_nan (x y : binary64) :
  (x <? y)%float = true -> is_nan x = false /\ is_nan y = false.
Proof.
  rewrite ltb_spec. unfold SFltb, Prim2SF.
  destruct (is_nan x), (is_nan y); simpl; try discriminate; auto.
  destruct (is_zero x); [discriminate|].
  destruct (is_infinity x); [discriminate|].
  destruct (Z.frexp x) as [r e].
  destruct (shr_fexp prec emax _ _ _) as [shr e'].
  destruct (shr_m shr); discriminate.
Qed.

(** [s] exceeds no score that it does not exceed after a greater score
    took its place. *)
Lemma gt_false_of_greater (s s' t : binary64) :
  Num.gt t s = false -> Num.gt s' s = true -> Num.gt t s' = false.
Proof.
  unfold Num.gt. intros Hts Hs's.
  destruct (s' <? t)%float eqn:E; [|reflexivity].
  rewrite (ltb_trans s s' t Hs's E) in Hts. discriminate.
Qed.

Lemma leb_false_of_greater (s s' t : binary64) :
  Num.gt t s = false -> Num.gt s' s = true -> (s' <=? t)%float = false.
Proof.
  unfold Num.gt. intros Hts Hs's.
  destruct (s' <=? t)%float eqn:E; [|reflexivity].
  rewrite (ltb_leb_trans s s' t Hs's E) in Hts. discriminate.
Qed.

(** ** The best-round search *)

Section SearchProperties.

Variable float : string -> option binary64.
Variable json_load : string -> option json.

Local Abbreviation load_round := (Gather.load_round float json_load).
Local Abbreviation round_score := (Gather.round_score float json_load).
Local Abbreviation scan_round := (Gather.scan_round float json_load).
Local Abbreviation scan_rounds := (Gather.scan_rounds float json_load).
Local Abbreviation find_best_round := (Gather.find_best_round float json_load).
Local Abbreviation gather_slide := (Gather.gather_slide float json_load).

(** A round is scanned exactly when its score is computed. *)
Lemma scan_round_Ok fs slide_dir st k st' :
  scan_round fs slide_dir st k = Ok st' ->
  (round_score fs slide_dir k = Ok None /\ st' = st)
  \/ (exists re rf s,
        load_round fs slide_dir k = Ok (Some (re, rf))
        /\ Gather.mean8 re rf = Ok s
        /\ round_score fs slide_dir k = Ok (Some s)
        /\ st' = if Num.gt s (Gather.best_round_score st)
                 then Gather.mk_best s (Some re) (Some rf) (Some k)
                 else st).
Proof.
  rewrite scan_round_load. intros H.
  apply rbind_Ok in H as ([[re rf]|] & Hr & H).
  - right. unfold Gather.consider in H.
    apply rbind_Ok in H as (s & Hs & [= <-]).
    exists re, rf, s. repeat split; try assumption.
    apply round_score_some. eauto.
  - left. injection H as <-. split; [|reflexivity].
    apply round_score_none, Hr.
Qed.

Lemma scan_round_raises fs slide_dir st k e :
  round_score fs slide_dir k = Raise e -> scan_round fs slide_dir st k = Raise e.
Proof.
  rewrite scan_round_load. unfold Gather.round_score, Gather.consider.
  destruct (load_round fs slide_dir k) as [[[re rf]|]|e']; simpl;
    [|discriminate|congruence].
  destruct (Gather.mean8 re rf); simpl; [discriminate | congruence].
Qed.

(** What the search holds after the rounds 1..n: nothing, no complete
    round exceeding -1, or the first round that no round exceeds. *)
Lemma scan_prefix_invariant fs slide_dir n :
  forall st,
    scan_rounds fs slide_dir Gather.best_init (seq 1 n) = Ok st ->
    (st = Gather.best_init
     /\ forall j s, (1 <= j <= n)%nat ->
          round_score fs slide_dir j = Ok (Some s) ->
          Num.gt s (-1) = false)
    \/ (exists k re rf s,
          (1 <= k <= n)%nat
          /\ load_round fs slide_dir k = Ok (Some (re, rf))
          /\ Gather.mean8 re rf = Ok s
          /\ st = Gather.mk_best s (Some re) (Some rf) (Some k)
          /\ Num.gt s (-1) = true
          /\ (forall j s', (1 <= j <= n)%nat ->
                round_score fs slide_dir j = Ok (Some s') ->
                Num.gt s' s = false)
          /\ (forall j s', (1 <= j < k)%nat ->
                round_score fs slide_dir j = Ok (Some s') ->
                (s <=? s')%float = false)).
Proof.
  induction n as [|n IH]; intros st H.
  - injection H as <-. left. split; [reflexivity|]. intros; lia.
  - rewrite seq_S, scan_rounds_app in H.
    apply rbind_Ok in H as (st0 & H0 & H). cbn [Gather.scan_rounds] in H.
    apply rbind_Ok in H as (st1 & H1 & [= <-]).
    change (1 + n)%nat with (S n) in *.
    assert (Hlast : forall j, (1 <= j <= S n)%nat -> (1 <= j <= n)%nat \/ j = S n)
      by (intros; lia).
    apply scan_round_Ok in H1
      as [[Hnone ->]|(re1 & rf1 & s1 & Hr1 & Hm1 & Hs1 & ->)].
    + (* the round is skipped *)
      destruct (IH st0 H0)
        as [[-> Hlow]|(k & re & rf & s & Hk & Hload & Hm & -> & Hpos & Hmax & Hfirst)].
      * left. split; [reflexivity|]. intros j s Hj Hs.
        destruct (Hlast j Hj) as [Hin| ->]; [apply (Hlow j s Hin Hs)|].
        rewrite Hnone in Hs. discriminate.
      * right. exists k, re, rf, s. repeat split; try lia; try assumption.
        intros j s' Hj Hs'. destruct (Hlast j Hj) as [Hin| ->];
          [apply (Hmax j s' Hin Hs')|].
        rewrite Hnone in Hs'. discriminate.
    + destruct (IH st0 H0)
        as [[-> Hlow]|(k & re & rf & s & Hk & Hload & Hm & -> & Hpos & Hmax & Hfirst)];
        cbn [Gather.best_round_score Gather.best_init].
      * (* nothing selected so far *)
        destruct (Num.gt s1 (-1)) eqn:Hcmp.
        -- right. exists (S n), re1, rf1, s1.
           repeat split; try lia; try assumption.
           ++ intros j s' Hj Hs'. destruct (Hlast j Hj) as [Hin| ->].
              ** apply (gt_false_of_greater (-1) s1 s' (Hlow j s' Hin Hs') Hcmp).
              ** rewrite Hs1 in Hs'. injection Hs' as <-. apply ltb_irrefl.
           ++ intros j s' Hj Hs'.
              apply (leb_false_of_greater (-1) s1 s'); [|exact Hcmp].
              apply (Hlow j s'); [lia | exact Hs'].
        -- left. split; [reflexivity|]. intros j s Hj Hs.
           destruct (Hlast j Hj) as [Hin| ->]; [apply (Hlow j s Hin Hs)|].
           rewrite Hs1 in Hs. injection Hs as <-. exact Hcmp.
      * (* round k is the incumbent *)
        destruct (Num.gt s1 s) eqn:Hcmp.
        -- right. exists (S n), re1, rf1, s1.
           repeat split; try lia; try assumption.
           ++ apply (ltb_trans (-1) s s1 Hpos Hcmp).
           ++ intros j s' Hj Hs'. destruct (Hlast j Hj) as [Hin| ->].
              ** apply (gt_false_of_greater s s1 s' (Hmax j s' Hin Hs') Hcmp).
              ** rewrite Hs1 in Hs'. injection Hs' as <-. apply ltb_irrefl.
           ++ intros j s' Hj Hs'.
              apply (leb_false_of_greater s s1 s'); [|exact Hcmp].
              apply (Hmax j s'); [lia | exact Hs'].
        -- right. exists k, re, rf, s. repeat split; try lia; try assumption.
           intros j s' Hj Hs'. destruct (Hlast j Hj) as [Hin| ->];
             [apply (Hmax j s' Hin Hs')|].
           rewrite Hs1 in Hs'. injection Hs' as <-. exact Hcmp.
Qed.

Lemma scan_rounds_total fs slide_dir ks :
  forall st,
    (forall j, j ∈ ks -> exists r, round_score fs slide_dir j = Ok r) ->
    exists st', scan_rounds fs slide_dir st ks = Ok st'.
Proof.
  induction ks as [|k ks IH]; intros st Hload; simpl; [eauto|].
  destruct (Hload k) as [[s|] Hr]; [constructor| |].
  - apply round_score_some in Hr as (re & rf & Hr & Hm).
    rewrite (scan_round_scored _ _ _ _ _ _ _ _ _ Hr Hm). simpl.
    apply IH. intros j Hj. apply Hload. constructor. exact Hj.
  - apply round_score_none in Hr.
    rewrite (scan_round_skipped _ _ _ _ _ _ Hr). simpl.
    apply IH. intros j Hj. apply Hload. constructor. exact Hj.
Qed.

(** X1. Whatever round the search returns as best is a complete round of
    1..10; the reports and the score kept with it are its own; its score
    exceeds -1 and is no NaN, no complete round exceeds it, and it is
    less than or equal to no earlier complete round. The comparisons are
    those of binary64: a round whose score is NaN exceeds nothing, is
    exceeded by nothing, and is never selected. *)
Theorem selected_round_is_first_maximum fs slide_dir st k :
  find_best_round fs slide_dir = Ok st ->
  Gather.best_round_num st = Some k ->
  (1 <= k <= 10)%nat
  /\ exists re rf s,
       load_round fs slide_dir k = Ok (Some (re, rf))
       /\ Gather.mean8 re rf = Ok s
       /\ st = Gather.mk_best s (Some re) (Some rf) (Some k)
       /\ Num.gt s (-1) = true
       /\ is_nan s = false
       /\ (forall j s', (1 <= j <= 10)%nat ->
             round_score fs slide_dir j = Ok (Some s') ->
             Num.gt s' s = false)
       /\ (forall j s', (1 <= j < k)%nat ->
             round_score fs slide_dir j = Ok (Some s') ->
             (s <=? s')%float = false).
Proof.
  intros H Hk. unfold Gather.find_best_round in H.
  destruct (scan_prefix_invariant fs slide_dir 10 st H)
    as [[-> _]|(k' & re & rf & s & Hk' & Hload & Hm & -> & Hpos & Hmax & Hfirst)].
  - discriminate Hk.
  - injection Hk as <-. split; [exact Hk'|]. exists re, rf, s.
    repeat split; try assumption.
    apply (ltb_not_nan _ _ Hpos).
Qed.

(** The fields of a round that has a score are numbers. *)
Lemma mean8_numbers re rf s :
  Gather.mean8 re rf = Ok s ->
  exists t i l c,
    rf = Gather.mk_ref_free_eval (Number t) (Number i) (Number l) (Number c).
Proof.
  unfold Gather.mean8. intros H. apply rbind_Ok in H as (total & H & _).
  unfold Gather.sum8 in H.
  apply rbind_Ok in H as (s1 & _ & H). apply rbind_Ok in H as (s2 & _ & H).
  apply rbind_Ok in H as (s3 & _ & H). apply rbind_Ok in H as (s4 & H4 & H).
  apply rbind_Ok in H as (s5 & H5 & H). apply rbind_Ok in H as (s6 & H6 & H).
  destruct rf as [[t|] [i|] [l|] [c|]]; simpl in *; try discriminate.
  exists t, i, l, c. reflexivity.
Qed.

(** Adding numbers raises nothing but [OverflowError]. *)
Lemma add_Ok_or_overflow (a b : number) :
  (exists c, Num.add a b = Ok c) \/ Num.add a b = Raise OverflowError.
Proof.
  destruct a as [x|x], b as [y|y]; simpl; eauto;
    unfold Num.float_of_int, Num.finite_or_overflow;
    destruct (binary_normalize _ _ _ _ _); simpl; eauto.
Qed.

Lemma ref_eval_add_Ok_or_overflow a b :
  (exists c, Gather.ref_eval_add a b = Ok c)
  \/ Gather.ref_eval_add a b = Raise OverflowError.
Proof.
  unfold Gather.ref_eval_add.
  destruct (add_Ok_or_overflow (Gather.re_match a) (Gather.re_match b))
    as [[m ->]| ->]; simpl; [|auto].
  destruct (add_Ok_or_overflow (Gather.re_text a) (Gather.re_text b))
    as [[t ->]| ->]; simpl; [|auto].
  destruct (add_Ok_or_overflow (Gather.re_color a) (Gather.re_color b))
    as [[c ->]| ->]; simpl; [|auto].
  destruct (add_Ok_or_overflow (Gather.re_position a) (Gather.re_position b))
    as [[p ->]| ->]; simpl; eauto.
Qed.

Lemma ref_free_add_Ok_or_overflow a t i l c :
  let b := Gather.mk_ref_free_eval (Number t) (Number i) (Number l) (Number c) in
  (exists r, Gather.ref_free_add a b = Ok r)
  \/ Gather.ref_free_add a b = Raise OverflowError.
Proof.
  unfold Gather.ref_free_add. simpl.
  destruct (add_Ok_or_overflow (Gather.rf_text a) t) as [[t' ->]| ->]; simpl; [|auto].
  destruct (add_Ok_or_overflow (Gather.rf_image a) i) as [[i' ->]| ->]; simpl; [|auto].
  destruct (add_Ok_or_overflow (Gather.rf_layout a) l) as [[l' ->]| ->]; simpl; [|auto].
  destruct (add_Ok_or_overflow (Gather.rf_color a) c) as [[c' ->]| ->]; simpl; eauto.
Qed.

(** X2. An item whose search returns is counted, once, unless adding the
    fields of its best round to the sums overflows: it adds one to the
    item count and either one to the failure count, leaving the eight
    sums as they were, or the eight fields of its best round to the
    sums, leaving the failure count. Beyond what the search raises, the
    aggregation of an item raises only the [OverflowError] of an [int]
    too large for the [float] it is added to. *)
Theorem item_is_counted_once fs test_id name acc n :
  (forall st,
      find_best_round fs (Gather.slide_dir test_id name n) = Ok st ->
      (exists acc', gather_slide fs test_id name acc n = Ok acc')
      \/ gather_slide fs test_id name acc n = Raise OverflowError)
  /\ (forall acc',
        gather_slide fs test_id name acc n = Ok acc' ->
        Gather.total_num acc' = S (Gather.total_num acc)
        /\ ((Gather.fail_num acc' = S (Gather.fail_num acc)
             /\ Gather.ref_eval_result acc' = Gather.ref_eval_result acc
             /\ Gather.ref_free_eval_result acc' = Gather.ref_free_eval_result acc)
            \/ (exists k re rf,
                  (1 <= k <= 10)%nat
                  /\ load_round fs (Gather.slide_dir test_id name n) k
                     = Ok (Some (re, rf))
                  /\ Gather.fail_num acc' = Gather.fail_num acc
                  /\ Gather.ref_eval_add (Gather.ref_eval_result acc) re
                     = Ok (Gather.ref_eval_result acc')
                  /\ Gather.ref_free_add (Gather.ref_free_eval_result acc) rf
                     = Ok (Gather.ref_free_eval_result acc')))).
Proof.
  split.
  - intros st H. unfold Gather.gather_slide. rewrite H. cbn [rbind].
    destruct (scan_prefix_invariant fs _ 10 st H)
      as [[-> _]|(k & re & rf & s & _ & _ & Hm & -> & _)]; simpl; [eauto|].
    destruct (ref_eval_add_Ok_or_overflow (Gather.ref_eval_result acc) re)
      as [[r ->]| ->]; simpl; [|auto].
    destruct (mean8_numbers re rf s Hm) as (t & i & l & c & ->).
    destruct (ref_free_add_Ok_or_overflow (Gather.ref_free_eval_result acc) t i l c)
      as [[f ->]| ->]; simpl; eauto.
  - intros acc' H. unfold Gather.gather_slide in H.
    apply rbind_Ok in H as (st & Hst & H).
    destruct (scan_prefix_invariant fs _ 10 st Hst)
      as [[-> _]|(k & re & rf & s & Hk & Hload & _ & -> & _)]; simpl in H.
    + injection H as <-. simpl. split; [reflexivity|]. left. auto.
    + apply rbind_Ok in H as (r & Hr & H). apply rbind_Ok in H as (f & Hf & H).
      injection H as <-. simpl. split; [reflexivity|].
      right. exists k, re, rf. auto.
Qed.

(** X3. The search starts from the score -1 and replaces on a greater
    score only: when every round is read and scored without error and no
    complete round exceeds -1 (a score of -1, a lower one, a NaN), no
    round is selected and the item is counted as failed, although it has
    complete rounds. Conversely a search that selects no round has met
    no complete round exceeding -1. *)
Theorem rounds_not_above_minus_one_are_never_selected fs test_id name acc n :
  (forall j, (1 <= j <= 10)%nat ->
     exists r, round_score fs (Gather.slide_dir test_id name n) j = Ok r) ->
  (forall j s, (1 <= j <= 10)%nat ->
     round_score fs (Gather.slide_dir test_id name n) j = Ok (Some s) ->
     Num.gt s (-1) = false) ->
  find_best_round fs (Gather.slide_dir test_id name n) = Ok Gather.best_init
  /\ gather_slide fs test_id name acc n
     = Ok (Gather.mk_totals (Gather.ref_eval_result acc)
             (Gather.ref_free_eval_result acc)
             (S (Gather.fail_num acc)) (S (Gather.total_num acc)))
  /\ (forall fs' slide_dir st,
        find_best_round fs' slide_dir = Ok st ->
        Gather.best_round_num st = None ->
        st = Gather.best_init
        /\ forall j s, (1 <= j <= 10)%nat ->
             round_score fs' slide_dir j = Ok (Some s) ->
             Num.gt s (-1) = false).
Proof.
  intros Hload Hlow.
  assert (Hbest : find_best_round fs (Gather.slide_dir test_id name n)
                  = Ok Gather.best_init).
  { unfold Gather.find_best_round. apply scan_rounds_keep.
    - intros j Hj. apply elem_of_seq in Hj. apply Hload. lia.
    - intros j s Hj. apply elem_of_seq in Hj. simpl. apply Hlow. lia. }
  split; [exact Hbest|]. split.
  - unfold Gather.gather_slide. rewrite Hbest. reflexivity.
  - intros fs' slide_dir st H Hnone. unfold Gather.find_best_round in H.
    destruct (scan_prefix_invariant fs' slide_dir 10 st H)
      as [[-> Hall]|(k & re & rf & s & _ & _ & _ & -> & _)]; [auto | discriminate].
Qed.

(** X4. Errors are not confined to their round: when reading or scoring
    the reports of round k raises an exception and the rounds before it
    are read and scored, the search and the aggregation of the item
    raise that exception, whatever the later rounds hold. *)
Theorem round_error_aborts_item fs test_id name acc n k e :
  (1 <= k <= 10)%nat ->
  (forall j, (1 <= j < k)%nat ->
     exists r, round_score fs (Gather.slide_dir test_id name n) j = Ok r) ->
  round_score fs (Gather.slide_dir test_id name n) k = Raise e ->
  find_best_round fs (Gather.slide_dir test_id name n) = Raise e
  /\ gather_slide fs test_id name acc n = Raise e
  /\ (forall e', load_round fs (Gather.slide_dir test_id name n) k = Raise e' ->
                 e = e').
Proof.
  intros Hk Hbefore Hraise.
  assert (Hbest : find_best_round fs (Gather.slide_dir test_id name n) = Raise e).
  { unfold Gather.find_best_round.
    rewrite (seq_split_at k 10 Hk), scan_rounds_app.
    destruct (scan_rounds_total fs (Gather.slide_dir test_id name n)
                (seq 1 (k - 1)) Gather.best_init) as [st1 ->].
    - intros j Hj. apply elem_of_seq in Hj. apply Hbefore. lia.
    - cbn [rbind Gather.scan_rounds].
      rewrite (scan_round_raises _ _ _ _ _ Hraise). reflexivity. }
  split; [exact Hbest|]. split.
  - unfold Gather.gather_slide. rewrite Hbest. reflexivity.
  - intros e' He'. unfold Gather.round_score in Hraise. rewrite He' in Hraise.
    simpl in Hraise. congruence.
Qed.

(** X5. A line that contains one of the four substrings and no ": " makes
    the parser raise [IndexError], and with it the parsing of the report
    when the lines before it are parsed. *)
Theorem metric_line_without_separator_raises r line :
  Gather.mentions_metric line ->
  Str.contains ": " line = false ->
  Gather.parse_line float r line = Raise IndexError
  /\ forall pre post r0,
       Gather.parse_lines float r0 pre = Ok r ->
       Gather.parse_lines float r0 (pre ++ line :: post) = Raise IndexError.
Proof.
  intros [m Hm] Hsep.
  assert (Hfield : Gather.float_field float line = Raise IndexError).
  { unfold Gather.float_field, Str.split.
    rewrite split_go_no_sep by exact Hsep. reflexivity. }
  assert (Hline : forall r1, Gather.parse_line float r1 line = Raise IndexError).
  { intros r1. unfold Gather.parse_line. rewrite Hfield.
    destruct (Str.contains "match" line) eqn:E1; [reflexivity|].
    destruct (Str.contains "text" line) eqn:E2; [reflexivity|].
    destruct (Str.contains "color" line) eqn:E3; [reflexivity|].
    destruct (Str.contains "position" line) eqn:E4; [reflexivity|].
    destruct m; simpl in Hm; congruence. }
  split; [apply Hline|].
  intros pre post r0 Hpre. rewrite parse_lines_app, Hpre. cbn [rbind].
  cbn [Gather.parse_lines]. rewrite Hline. reflexivity.
Qed.

End SearchProperties.

(** ** The totals of the aggregator *)

Section TotalsProperties.

Variable float : string -> option binary64.
Variable json_load : string -> option json.
Variable pptx_slides : string -> option nat.

Local Abbreviation gather_slide := (Gather.gather_slide float json_load).
Local Abbreviation gather_slides := (Gather.gather_slides float json_load).
Local Abbreviation gather_name :=
  (Gather.gather_name float json_load pptx_slides).
Local Abbreviation gather_names :=
  (Gather.gather_names float json_load pptx_slides).
Local Abbreviation gather_results :=
  (Gather.gather_results float json_load pptx_slides).

Lemma gather_slide_counts fs test_id name acc n acc' :
  gather_slide fs test_id name acc n = Ok acc' ->
  Gather.total_num acc' = S (Gather.total_num acc)
  /\ (Gather.fail_num acc <= Gather.fail_num acc' <= S (Gather.fail_num acc))%nat.
Proof.
  unfold Gather.gather_slide. intros H.
  apply rbind_Ok in H as (st & _ & H).
  destruct (Gather.best_round_num st).
  - apply rbind_Ok in H as (r & _ & H). apply rbind_Ok in H as (sr & _ & H).
    apply rbind_Ok in H as (f & _ & H). apply rbind_Ok in H as (sf & _ & H).
    injection H as <-. simpl. lia.
  - injection H as <-. simpl. lia.
Qed.

Lemma gather_slides_counts fs test_id name ns :
  forall acc acc',
    gather_slides fs test_id name acc ns = Ok acc' ->
    Gather.total_num acc' = (Gather.total_num acc + length ns)%nat
    /\ (Gather.fail_num acc <= Gather.fail_num acc'
        <= Gather.fail_num acc + length ns)%nat.
Proof.
  induction ns as [|n ns IH]; intros acc acc' H; simpl in H.
  - injection H as <-. simpl. lia.
  - apply rbind_Ok in H as (acc1 & H1 & H).
    apply gather_slide_counts in H1. apply IH in H. simpl. lia.
Qed.

Lemma gather_name_counts fs test_id acc name acc' :
  gather_name fs test_id acc name = Ok acc' ->
  Gather.total_num acc'
  = (Gather.total_num acc + item_count pptx_slides fs [name])%nat
  /\ (Gather.fail_num acc <= Gather.fail_num acc'
      <= Gather.fail_num acc + item_count pptx_slides fs [name])%nat.
Proof.
  unfold Gather.gather_name, item_count, FS.exists_, FS.read. simpl.
  destruct (fs !! Gather.slide_path name) as [[deck|entries]|] eqn:Hdeck.
  - rewrite bool_decide_true by eauto. cbn [negb rbind].
    destruct (pptx_slides deck) as [pages|]; [|discriminate]. cbn [of_option rbind].
    intros H. apply gather_slides_counts in H. rewrite length_seq in H.
    simpl. lia.
  - rewrite bool_decide_true by eauto. discriminate.
  - rewrite bool_decide_false by (intros [? ?]; discriminate).
    intros [= <-]. simpl. lia.
Qed.

Lemma gather_names_counts fs test_id names :
  forall acc acc',
    gather_names fs test_id acc names = Ok acc' ->
    Gather.total_num acc'
    = (Gather.total_num acc + item_count pptx_slides fs names)%nat
    /\ (Gather.fail_num acc <= Gather.fail_num acc'
        <= Gather.fail_num acc + item_count pptx_slides fs names)%nat.
Proof.
  induction names as [|name rest IH]; intros acc acc' H; simpl in H.
  - injection H as <-. unfold item_count. simpl. lia.
  - apply rbind_Ok in H as (acc1 & H1 & H).
    apply gather_name_counts in H1. apply IH in H.
    unfold item_count in *. simpl in *. lia.
Qed.

(** X6. When the aggregation returns, the number of slides it reports is
    the number of slides of the decks of the selected categories that
    exist, categories without a deck counting for none; it is positive,
    and the number of failed slides does not exceed it. *)
Theorem reported_counts fs test_id slide_name out :
  gather_results fs test_id slide_name = Ok out ->
  Gather.printed_total out
  = item_count pptx_slides fs (Gather.names_of slide_name)
  /\ (0 < Gather.printed_total out)%nat
  /\ (Gather.printed_failed out <= Gather.printed_total out)%nat.
Proof.
  unfold Gather.gather_results. intros H.
  apply rbind_Ok in H as (acc & Hacc & H).
  apply gather_names_counts in Hacc. simpl in Hacc.
  unfold Gather.report in H.
  apply rbind_Ok in H as ([r f] & _ & H).
  apply rbind_Ok in H as (rate & Hrate & H).
  apply rbind_Ok in H as (overall & _ & H). injection H as <-. simpl.
  unfold Gather.success_rate, Num.int_true_divide in Hrate.
  destruct (Z.eqb_spec (Z.of_nat (Gather.total_num acc)) 0); [discriminate|]. lia.
Qed.

End TotalsProperties.

(** ** The order in which the dispatcher visits the rounds *)

Lemma insert_desc_perm (x : string) (l : list string) :
  Evaluate.insert_desc x l ≡ₚ x :: l.
Proof.
  induction l as [|y l IH]; simpl; [reflexivity|].
  destruct (Str.int x <? Str.int y)%nat; [|reflexivity].
  rewrite IH. apply perm_swap.
Qed.

Lemma insert_desc_hdrel (a x : string) (l : list string) :
  HdRel (fun u v => (Str.int v <= Str.int u)%nat) a l ->
  (Str.int x <= Str.int a)%nat ->
  HdRel (fun u v => (Str.int v <= Str.int u)%nat) a (Evaluate.insert_desc x l).
Proof.
  intros Hl Hx. destruct l as [|y l]; simpl; [constructor; exact Hx|].
  destruct (Str.int x <? Str.int y)%nat; constructor;
    [inversion Hl; assumption | exact Hx].
Qed.

Lemma insert_desc_sorted (x : string) (l : list string) :
  Sorted (fun u v => (Str.int v <= Str.int u)%nat) l ->
  Sorted (fun u v => (Str.int v <= Str.int u)%nat) (Evaluate.insert_desc x l).
Proof.
  induction l as [|y l IH]; intros Hl; simpl.
  - repeat constructor.
  - inversion Hl as [|? ? Hs Hh]; subst.
    destruct (Nat.ltb_spec (Str.int x) (Str.int y)).
    + constructor; [apply IH, Hs|]. apply insert_desc_hdrel; [exact Hh | lia].
    + constructor; [exact Hl|]. constructor. lia.
Qed.

Lemma insert_desc_filter (n : nat) (x : string) (l : list string) :
  filter (fun y => Str.int y = n) (Evaluate.insert_desc x l)
  = filter (fun y => Str.int y = n) (x :: l).
Proof.
  induction l as [|y l IH]; simpl; [reflexivity|].
  destruct (Nat.ltb_spec (Str.int x) (Str.int y)); [|reflexivity].
  rewrite (filter_cons _ y), IH, !filter_cons.
  repeat case_decide; try reflexivity; lia.
Qed.

Lemma sorted_desc_facts (files : list string) :
  Evaluate.sorted_desc files ≡ₚ files
  /\ Sorted (fun u v => (Str.int v <= Str.int u)%nat) (Evaluate.sorted_desc files)
  /\ forall n, filter (fun y => Str.int y = n) (Evaluate.sorted_desc files)
               = filter (fun y => Str.int y = n) files.
Proof.
  unfold Evaluate.sorted_desc. induction files as [|x l (IHp & IHs & IHf)]; simpl.
  - repeat split; constructor.
  - split; [|split].
    + rewrite insert_desc_perm, IHp. reflexivity.
    + apply insert_desc_sorted, IHs.
    + intros n. rewrite insert_desc_filter, !filter_cons, IHf. reflexivity.
Qed.

(** X9. The dispatcher visits the numbered round directories in an order
    that holds each of them once, runs from the highest number to the
    lowest and keeps the listing order of names with the same number
    (as [1] and [01]). *)
Theorem rounds_visited_in_descending_order (files : list string) :
  Evaluate.sorted_desc files ≡ₚ files
  /\ Sorted (fun u v => (Str.int v <= Str.int u)%nat) (Evaluate.sorted_desc files)
  /\ forall n, filter (fun y => Str.int y = n) (Evaluate.sorted_desc files)
               = filter (fun y => Str.int y = n) files.
Proof. exact (sorted_desc_facts files). Qed.

(** ** Paths of reports *)

Lemma append_assoc (a b c : string) : (a +:+ b) +:+ c = a +:+ (b +:+ c).
Proof.
  induction a as [|x a IH]; [reflexivity|]. rewrite !append_cons, IH. reflexivity.
Qed.


Lemma rev_app_spec (s acc : string) :
  String.rev_app s acc = String.rev s +:+ acc.
Proof.
  revert acc. induction s as [|c s IH]; intros acc; [reflexivity|].
  unfold String.rev. cbn [String.rev_app]. rewrite (IH (String c acc)), (IH (String c "")).
  rewrite append_assoc_char. reflexivity.
Qed.

Lemma rev_cons (c : ascii) (s : string) :
  String.rev (String c s) = String.rev s +:+ String c "".
Proof. unfold String.rev at 1. cbn [String.rev_app]. apply rev_app_spec. Qed.

Lemma rev_append (a b : string) :
  String.rev (a +:+ b) = String.rev b +:+ String.rev a.
Proof.
  induction a as [|c a IH].
  - rewrite append_nil_l. change (String.rev "") with "". rewrite append_empty_r. reflexivity.
  - rewrite append_cons, !rev_cons, IH, append_assoc. reflexivity.
Qed.

Lemma rev_involutive (s : string) : String.rev (String.rev s) = s.
Proof.
  induction s as [|c s IH]; [reflexivity|].
  rewrite rev_cons, rev_append, IH. reflexivity.
Qed.

Lemma last_char_split (s : string) (c : ascii) :
  last_char s = Some c -> exists s0, s = s0 +:+ String c "".
Proof.
  induction s as [|d s IH]; [discriminate|].
  destruct s as [|d' s'].
  - intros [= ->]. exists "". reflexivity.
  - intros H. destruct (IH H) as [s0 Hs0]. exists (String d s0).
    rewrite append_cons, <- Hs0. reflexivity.
Qed.

Lemma last_char_snoc (s : string) (c : ascii) :
  last_char (s +:+ String c "") = Some c.
Proof.
  induction s as [|d s IH]; [reflexivity|].
  rewrite append_cons. cbn [last_char]. rewrite IH.
  destruct (s +:+ String c "") eqn:E; [|reflexivity].
  destruct s; discriminate E.
Qed.

Lemma prefix_char (c d : ascii) (s : string) :
  String.prefix (String c "") (String d s) = true <-> c = d.
Proof.
  cbn [String.prefix]. destruct (ascii_dec c d) as [->|Hne].
  - destruct s; tauto.
  - split; [discriminate | congruence].
Qed.

(** A path that ends with a slash. *)
Lemma endswith_slash (d : string) :
  Str.endswith d "/" = true <-> last_char d = Some "/"%char.
Proof.
  unfold Str.endswith. change (String.rev "/") with "/".
  split.
  - intros H. destruct (String.rev d) as [|c r] eqn:E; [discriminate H|].
    apply prefix_char in H. subst c.
    rewrite <- (rev_involutive d), E, rev_cons. apply last_char_snoc.
  - intros H. apply last_char_split in H as [d0 ->].
    rewrite rev_append. change (String.rev "/") with "/".
    rewrite append_cons, append_nil_l. apply prefix_char. reflexivity.
Qed.

Lemma split_go_nonempty (sep : string) (s : string) :
  forall skip cur, Str.split_go sep skip cur s <> [].
Proof.
  induction s as [|c s IH]; intros skip cur; cbn [Str.split_go];
    [discriminate|].
  destruct skip; [|apply IH].
  destruct (String.prefix sep (String c s)); [discriminate | apply IH].
Qed.

Lemma last_cons_nonempty {A} (x d : A) (l : list A) :
  l <> [] -> List.last (x :: l) d = List.last l d.
Proof. destruct l; [congruence | reflexivity]. Qed.

(** What follows the last slash of a path. *)
Lemma split_go_last_slash (b : string) :
  Str.contains "/" b = false ->
  forall d cur,
    List.last (Str.split_go "/" 0 cur (d +:+ "/" +:+ b)) "" = b.
Proof.
  intros Hb. induction d as [|c d IH]; intros cur.
  - rewrite append_nil_l, append_cons, append_nil_l.
    cbn [Str.split_go]. rewrite (proj2 (prefix_char "/" "/" b) eq_refl).
    cbn [String.length Nat.sub]. rewrite split_go_no_sep by exact Hb.
    reflexivity.
  - rewrite append_cons. cbn [Str.split_go].
    destruct (String.prefix "/" (String c (d +:+ "/" +:+ b))).
    + cbn [String.length Nat.sub].
      rewrite last_cons_nonempty by apply split_go_nonempty. apply IH.
    + apply IH.
Qed.

Lemma basename_join2 (d b : string) :
  Str.contains "/" b = false -> Path.basename (Path.join2 d b) = b.
Proof.
  intros Hb. unfold Path.basename, Str.last_piece, Str.split, Path.join2.
  assert (Hs : Str.startswith b "/" = false).
  { unfold Str.startswith. destruct b as [|c b]; [reflexivity|].
    cbn [Str.contains] in Hb. apply orb_false_iff in Hb as [Hb _]. exact Hb. }
  rewrite Hs.
  destruct (String.eqb_spec d "") as [->|Hd]; cbn [orb].
  - rewrite append_nil_l, split_go_no_sep by exact Hb. reflexivity.
  - destruct (Str.endswith d "/") eqn:He.
    + apply endswith_slash, last_char_split in He as [d0 ->].
      rewrite append_assoc_char. apply (split_go_last_slash b Hb).
    + apply (split_go_last_slash b Hb).
Qed.







Lemma join2_suffix (p b : string) :
  Str.startswith b "/" = false -> exists pre, Path.join2 p b = pre +:+ b.
Proof.
  intros H. unfold Path.join2. rewrite H.
  destruct (String.eqb p "" || Str.endswith p "/"); [exists p; reflexivity|].
  exists (p +:+ "/"). rewrite append_assoc_char. reflexivity.
Qed.

Lemma last_char_append (pre s : string) :
  s <> "" -> last_char (pre +:+ s) = last_char s.
Proof.
  intros Hs. induction pre as [|c pre IH]; [reflexivity|].
  rewrite append_cons. cbn [last_char]. rewrite IH.
  destruct (pre +:+ s) eqn:E; [|reflexivity].
  destruct pre; [rewrite append_nil_l in E; congruence | discriminate E].
Qed.



(** A name made of digits holds no slash and ends with a digit. *)
Lemma all_digits_no_slash (f : string) :
  Str.all_digits f = true -> Str.contains "/" f = false.
Proof.
  induction f as [|c f IH]; [reflexivity|].
  cbn [Str.all_digits Str.contains]. intros H.
  apply andb_true_iff in H as [Hc Hf]. rewrite (IH Hf), orb_false_r.
  destruct (String.prefix "/" (String c f)) eqn:E; [|reflexivity].
  apply prefix_char in E. subst c. discriminate Hc.
Qed.







(** ** What the dispatcher writes *)

Lemma extends_listing_refl (o : option node) : extends_listing o o.
Proof.
  destruct o as [[c|es]|]; simpl; auto.
  exists []. rewrite app_nil_r. split; [reflexivity | constructor].
Qed.

Lemma extends_listing_trans (a b c : option node) :
  extends_listing a b -> extends_listing b c -> extends_listing a c.
Proof.
  destruct a as [[x|es]|]; simpl.
  - intros ->. simpl. auto.
  - intros (added1 & -> & H1). simpl. intros (added2 & -> & H2).
    exists (added1 ++ added2). rewrite app_assoc. split; [reflexivity|].
    apply Forall_app. auto.
  - intros ->. simpl. auto.
Qed.

(** Writing a report leaves every other entry as it is, but for the name
    of the report in the listing of its directory. *)
Lemma write_extends (fs : filesystem) (d name q text : string) :
  report_name name ->
  ~ is_report_path q ->
  extends_listing (fs !! q) (FS.write fs (Path.join2 d name) text !! q).
Proof.
  intros Hname Hq.
  assert (Hslash : Str.contains "/" name = false)
    by (destruct Hname as [-> | ->]; reflexivity).
  assert (Hp : q <> Path.join2 d name).
  { intros ->. apply Hq.
    destruct (join2_suffix d name) as [pre Hpre].
    - destruct Hname as [-> | ->]; reflexivity.
    - exists pre. rewrite Hpre. destruct Hname as [-> | ->]; auto. }
  rewrite write_lookup.
  assert (Hparent : forall es',
             fs !! Path.dirname (Path.join2 d name) = Some (Dir es') ->
             q = Path.dirname (Path.join2 d name) ->
             extends_listing (fs !! q)
               (Some (Dir (FS.with_entry (Path.basename (Path.join2 d name)) es')))).
  { intros es' Hd ->. rewrite Hd. simpl. unfold FS.with_entry.
    rewrite (basename_join2 d name Hslash). case_bool_decide.
    - exists []. rewrite app_nil_r. split; [reflexivity | apply Forall_nil_2].
    - exists [name]. split; [reflexivity|].
      apply Forall_cons_2; [exact Hname | apply Forall_nil_2]. }
  destruct (fs !! Path.join2 d name) as [[c|es]|]; try apply extends_listing_refl;
    (destruct (fs !! Path.dirname (Path.join2 d name)) as [[c'|es']|] eqn:Hd;
     repeat case_decide; try congruence; try apply extends_listing_refl;
     apply (Hparent es' eq_refl); assumption).
Qed.





Lemma rmapM_Forall2 {A B : Type} (f : A -> result B) (l : list A) :
  forall l', rmapM f l = Ok l' -> Forall2 (fun x y => f x = Ok y) l l'.
Proof.
  induction l as [|x l IH]; intros l' H; simpl in H.
  - injection H as <-. constructor.
  - apply rbind_Ok in H as (y & Hy & H). apply rbind_Ok in H as (ys & Hys & H).
    injection H as <-. constructor; [exact Hy | apply IH, Hys].
Qed.

Lemma rmapM_raises {A B : Type} (f : A -> result B) (e : exn) (l : list A) :
  (forall x y, f x = Raise y -> y = e) ->
  (exists x, x ∈ l /\ f x = Raise e) ->
  rmapM f l = Raise e.
Proof.
  intros Honly. induction l as [|x l IH]; intros (x0 & Hin & Hx0).
  - inversion Hin.
  - simpl. destruct (f x) as [y|e'] eqn:Hfx; simpl.
    + apply elem_of_cons in Hin as [->|Hin]; [congruence|].
      rewrite IH by eauto. reflexivity.
    + rewrite (Honly x e' Hfx). reflexivity.
Qed.

Lemma rmapM_total {A B : Type} (f : A -> result B) (l : list A) :
  (forall x, x ∈ l -> exists y, f x = Ok y) -> exists l', rmapM f l = Ok l'.
Proof.
  induction l as [|x l IH]; intros H; simpl; [eauto|].
  destruct (H x) as [y ->]; [constructor|]. simpl.
  destruct IH as [l' ->]; [|simpl; eauto].
  intros x' Hx'. apply H. constructor. exact Hx'.
Qed.

(** The sort of the round names succeeds when every name is a decimal
    numeral, and raises [ValueError] otherwise. *)
Lemma sorted_by_int_Ok (files : list string) :
  (forall f, f ∈ files -> Str.isdecimal f = true) ->
  Evaluate.sorted_by_int files = Ok (Evaluate.sorted_desc files).
Proof.
  intros H. unfold Evaluate.sorted_by_int.
  destruct (rmapM_total Str.int_of_digits files) as [ks ->]; [|reflexivity].
  intros f Hf. unfold Str.int_of_digits. rewrite (H f Hf). eauto.
Qed.

Lemma sorted_by_int_raises (files : list string) (f : string) :
  f ∈ files -> Str.isdecimal f = false ->
  Evaluate.sorted_by_int files = Raise ValueError.
Proof.
  intros Hin Hf. unfold Evaluate.sorted_by_int.
  rewrite (rmapM_raises Str.int_of_digits ValueError); [reflexivity| |].
  - intros x y. unfold Str.int_of_digits.
    destruct (Str.isdecimal x); [discriminate | congruence].
  - exists f. split; [exact Hin|]. unfold Str.int_of_digits. rewrite Hf.
    reflexivity.
Qed.

Lemma sorted_by_int_cases (files : list string) :
  Evaluate.sorted_by_int files = Ok (Evaluate.sorted_desc files)
  \/ Evaluate.sorted_by_int files = Raise ValueError.
Proof.
  destruct (decide (Forall (fun f => Str.isdecimal f = true) files)) as [Hall|Hnot].
  - left. apply sorted_by_int_Ok. apply Forall_forall, Hall.
  - right. apply not_Forall_Exists in Hnot; [|intros x; apply _].
    apply Exists_exists in Hnot as (f & Hin & Hf).
    apply (sorted_by_int_raises files f Hin).
    unfold compose in Hf. destruct (Str.isdecimal f); congruence.
Qed.

Section DispatcherProperties.

Variable page_eval : filesystem -> string -> string -> nat -> option string.
Variable reference_free_eval : filesystem -> string -> option string.

Local Abbreviation evaluate_round :=
  (Evaluate.evaluate_round page_eval reference_free_eval).
Local Abbreviation evaluate_single_slide :=
  (Evaluate.evaluate_single_slide page_eval reference_free_eval).

Lemma run_scorer_extends fs d name w q :
  report_name name -> ~ is_report_path q ->
  extends_listing (fs !! q) (Evaluate.run_scorer fs (Path.join2 d name) w !! q).
Proof.
  intros Hname Hq. destruct w as [text|]; [|apply extends_listing_refl].
  apply write_extends; assumption.
Qed.

Lemma evaluate_round_extends slide_name refine_path index fs file q :
  ~ is_report_path q ->
  extends_listing (fs !! q)
    (evaluate_round slide_name refine_path index fs file !! q).
Proof.
  intros Hq. unfold Evaluate.evaluate_round.
  destruct (FS.exists_ fs _); [|apply extends_listing_refl].
  set (d := Path.dirname _).
  change (Path.join d [Evaluate.ref_based_name])
    with (Path.join2 d Evaluate.ref_based_name).
  change (Path.join d [Evaluate.ref_free_name])
    with (Path.join2 d Evaluate.ref_free_name).
  destruct (FS.exists_ _ _).
  - eapply extends_listing_trans;
      apply run_scorer_extends; try assumption; [left | right]; reflexivity.
  - apply run_scorer_extends; [left; reflexivity | assumption].
Qed.

Lemma foldl_extends slide_name refine_path index files q :
  ~ is_report_path q ->
  forall fs,
    extends_listing (fs !! q)
      (foldl (evaluate_round slide_name refine_path index) fs files !! q).
Proof.
  intros Hq. induction files as [|file files IH]; intros fs; simpl;
    [apply extends_listing_refl|].
  eapply extends_listing_trans; [|apply IH].
  apply evaluate_round_extends, Hq.
Qed.



(** The dispatcher returns the index, or raises [ValueError] from the
    sort before it has run a scorer. *)
Lemma evaluate_single_slide_cases fs slide_dirs index :
  (exists files,
     evaluate_single_slide fs slide_dirs index
     = (foldl (evaluate_round (Str.last_piece slide_dirs "/")
                 (Path.join2 slide_dirs ("slide_" +:+ Str.of_nat index)) index)
              fs files, Ok index))
  \/ evaluate_single_slide fs slide_dirs index = (fs, Raise ValueError).
Proof.
  unfold Evaluate.evaluate_single_slide.
  destruct (FS.listdir fs _) as [entries|e]; [|left; exists []; reflexivity].
  destruct (sorted_by_int_cases (List.filter Str.isdigit entries)) as [-> | ->];
    [left; eauto | right; reflexivity].
Qed.

Lemma evaluate_single_slide_extends fs slide_dirs index q :
  ~ is_report_path q ->
  extends_listing (fs !! q) (fst (evaluate_single_slide fs slide_dirs index) !! q).
Proof.
  intros Hq.
  destruct (evaluate_single_slide_cases fs slide_dirs index) as [[files ->]| ->];
    cbn [fst]; [apply foldl_extends, Hq | apply extends_listing_refl].
Qed.


(** X11. The dispatcher never completes a round for the aggregator: a
    round whose [ref_free.json] is missing before the dispatcher runs is
    incomplete after it, for every item directory, and when this holds of
    the ten rounds of an item the aggregator selects no round for it. *)
Theorem dispatcher_never_completes_a_round fs slide_dirs index slide_dir :
  (forall k,
      FS.exists_ fs (Path.join (Path.join slide_dir [Str.of_nat k])
                               [Gather.ref_free_name]) = false ->
      Gather.round_complete (fst (evaluate_single_slide fs slide_dirs index))
                            slide_dir k = false)
  /\ ((forall k, (1 <= k <= 10)%nat ->
         FS.exists_ fs (Path.join (Path.join slide_dir [Str.of_nat k])
                                  [Gather.ref_free_name]) = false) ->
      forall float json_load,
        Gather.find_best_round float json_load
          (fst (evaluate_single_slide fs slide_dirs index)) slide_dir
        = Ok Gather.best_init).
Proof.
  assert (Hkeep : forall k,
      FS.exists_ fs (Path.join (Path.join slide_dir [Str.of_nat k])
                               [Gather.ref_free_name]) = false ->
      FS.exists_ (fst (evaluate_single_slide fs slide_dirs index))
                 (Path.join (Path.join slide_dir [Str.of_nat k])
                            [Gather.ref_free_name]) = false).
  { intros k H. unfold FS.exists_ in *.
    rewrite bool_decide_eq_false in *.
    set (q := Path.join _ [Gather.ref_free_name]) in *.
    assert (Hq : ~ is_report_path q).
    { intros [pre Heq].
      destruct (join2_suffix (Path.join slide_dir [Str.of_nat k])
                  Gather.ref_free_name eq_refl) as [pre' Hp].
      change q with (Path.join2 (Path.join slide_dir [Str.of_nat k])
                                Gather.ref_free_name) in Heq.
      rewrite Hp in Heq.
      destruct Heq as [Heq|Heq]; apply (f_equal last_char) in Heq;
        rewrite !last_char_append in Heq by discriminate; discriminate Heq. }
    pose proof (evaluate_single_slide_extends fs slide_dirs index q Hq) as Hext.
    destruct (fs !! q) as [n|] eqn:E; [exfalso; apply H; eauto|].
    simpl in Hext. rewrite Hext. intros [? ?]. discriminate. }
  split.
  - intros k H. apply round_incomplete_without_ref_free, Hkeep, H.
  - intros Hall float json_load. apply find_best_round_none.
    intros k Hk. apply round_incomplete_without_ref_free, Hkeep, Hall, Hk.
Qed.

(** X12. When the item has no round directory to list, or none of its
    round directories (the entries named by digits) holds a generated
    deck [refine.pptx], the dispatcher runs no scorer and leaves the file
    system as it is. It then returns the index when every round name is
    a decimal numeral, and raises [ValueError] when one is not. *)
Theorem nothing_to_score_changes_nothing fs slide_dirs index :
  let refine_path := Path.join2 slide_dirs ("slide_" +:+ Str.of_nat index) in
  ((exists e, FS.listdir fs refine_path = Raise e) ->
   evaluate_single_slide fs slide_dirs index = (fs, Ok index))
  /\ (forall entries,
        FS.listdir fs refine_path = Ok entries ->
        (forall file, file ∈ entries -> Str.isdigit file = true ->
           FS.exists_ fs (Path.join refine_path [file +:+ "/refine.pptx"])
           = false) ->
        fst (evaluate_single_slide fs slide_dirs index) = fs
        /\ ((forall file, file ∈ entries -> Str.isdigit file = true ->
                          Str.isdecimal file = true) ->
            snd (evaluate_single_slide fs slide_dirs index) = Ok index)
        /\ (forall file, file ∈ entries -> Str.isdigit file = true ->
                         Str.isdecimal file = false ->
            snd (evaluate_single_slide fs slide_dirs index) = Raise ValueError)).
Proof.
  intros refine_path. unfold Evaluate.evaluate_single_slide. fold refine_path.
  split; [intros [e ->]; reflexivity|].
  intros entries -> Hnone.
  assert (Hin : forall file, file ∈ List.filter Str.isdigit entries <->
                             file ∈ entries /\ Str.isdigit file = true).
  { intros file. rewrite !list_elem_of_In, filter_In. reflexivity. }
  assert (Hfold : forall files,
             (forall file, file ∈ files -> file ∈ entries /\ Str.isdigit file = true) ->
             foldl (evaluate_round (Str.last_piece slide_dirs "/") refine_path index)
                   fs files = fs).
  { induction files as [|file files IH]; intros Hfiles; simpl; [reflexivity|].
    unfold Evaluate.evaluate_round at 2.
    destruct (Hfiles file) as [Hfe Hfd]; [constructor|].
    rewrite (Hnone file Hfe Hfd). apply IH.
    intros f Hf. apply Hfiles. constructor. exact Hf. }
  destruct (sorted_by_int_cases (List.filter Str.isdigit entries)) as [E|E];
    rewrite E; cbn [fst snd].
  - split; [|split].
    + apply Hfold. intros file Hfile.
      apply Hin. rewrite <- (proj1 (sorted_desc_facts _)). exact Hfile.
    + reflexivity.
    + intros file Hfe Hfd Hdec.
      rewrite (sorted_by_int_raises _ file) in E; [discriminate| |exact Hdec].
      apply Hin. auto.
  - split; [reflexivity|]. split; [|reflexivity].
    intros Hall. rewrite sorted_by_int_Ok in E; [discriminate|].
    intros f Hf. apply Hin in Hf as [Hfe Hfd]. apply (Hall f Hfe Hfd).
Qed.




End DispatcherProperties.

(** ** The slide indices of the dispatcher's [main] *)

Lemma insert_asc_perm (x : Z) (l : list Z) :
  EvaluateMain.insert_asc x l ≡ₚ x :: l.
Proof.
  induction l as [|y l IH]; simpl; [reflexivity|].
  destruct (y <=? x)%Z; [|reflexivity]. rewrite IH. apply perm_swap.
Qed.

Lemma insert_asc_sorted (x : Z) (l : list Z) :
  Sorted Z.le l -> Sorted Z.le (EvaluateMain.insert_asc x l).
Proof.
  induction l as [|y l IH]; intros Hl; simpl.
  - repeat constructor.
  - inversion Hl as [|? ? Hs Hh]; subst.
    destruct (Z.leb_spec y x).
    + constructor; [apply IH, Hs|].
      destruct l as [|z l]; simpl; [constructor; assumption|].
      destruct (z <=? x)%Z; constructor; [inversion Hh|]; assumption.
    + constructor; [exact Hl|]. constructor. lia.
Qed.

Lemma sorted_asc_facts (l : list Z) :
  EvaluateMain.sorted_asc l ≡ₚ l /\ Sorted Z.le (EvaluateMain.sorted_asc l).
Proof.
  unfold EvaluateMain.sorted_asc. induction l as [|x l [IHp IHs]]; simpl.
  - split; constructor.
  - split; [rewrite insert_asc_perm, IHp; reflexivity | apply insert_asc_sorted, IHs].
Qed.

Section IndexProperties.

Variable int : string -> option Z.

(** X14. An entry of a category's output directory with neither a dot nor
    an underscore in its name makes the computation of the slide indices
    raise [IndexError], whatever the other entries are. *)
Theorem entry_without_underscore_raises fs test_id slide_name entries d :
  FS.listdir fs ("output/autopresent/" +:+ test_id +:+ "/" +:+ slide_name)
  = Ok entries ->
  d ∈ entries ->
  Str.contains "." d = false ->
  Str.contains "_" d = false ->
  EvaluateMain.index_list int fs test_id slide_name = Raise IndexError.
Proof.
  intros Hlist Hin Hdot Hus. unfold EvaluateMain.index_list.
  rewrite Hlist. cbn [rbind].
  rewrite (rmapM_raises EvaluateMain.index_of IndexError); [reflexivity| |].
  - intros x y. unfold EvaluateMain.index_of.
    destruct (Str.split x "_" !! 1%nat); simpl; congruence.
  - exists d. split.
    + apply list_elem_of_In, filter_In. split; [apply list_elem_of_In, Hin|].
      rewrite Hdot. reflexivity.
    + unfold EvaluateMain.index_of, Str.split.
      rewrite split_go_no_sep by exact Hus. reflexivity.
Qed.

(** X15. When the slide indices are computed, they are the integers read
    from the second underscore-separated piece of every entry without a
    dot, one for each such entry, in ascending order. *)
Theorem slide_indices_sorted fs test_id slide_name l :
  EvaluateMain.index_list int fs test_id slide_name = Ok l ->
  Sorted Z.le l
  /\ exists entries pieces ints,
       FS.listdir fs ("output/autopresent/" +:+ test_id +:+ "/" +:+ slide_name)
       = Ok entries
       /\ Forall2 (fun d piece => Str.split d "_" !! 1%nat = Some piece)
            (List.filter (fun d => negb (Str.contains "." d)) entries) pieces
       /\ Forall2 (fun piece i => int piece = Some i) pieces ints
       /\ l ≡ₚ ints.
Proof.
  unfold EvaluateMain.index_list. intros H.
  apply rbind_Ok in H as (entries & Hlist & H).
  apply rbind_Ok in H as (pieces & Hpieces & H).
  apply rbind_Ok in H as (ints & Hints & H). injection H as <-.
  destruct (sorted_asc_facts ints) as [Hperm Hsorted].
  split; [exact Hsorted|]. exists entries, pieces, ints.
  split; [exact Hlist|]. split; [|split; [|exact Hperm]].
  - apply rmapM_Forall2 in Hpieces.
    eapply Forall2_impl; [exact Hpieces|]. intros d piece.
    unfold EvaluateMain.index_of.
    destruct (Str.split d "_" !! 1%nat); simpl; congruence.
  - apply rmapM_Forall2 in Hints.
    eapply Forall2_impl; [exact Hints|]. intros piece i. cbn beta.
    destruct (int piece); cbn [of_option]; intros Hi;
      [injection Hi as ->; reflexivity | discriminate Hi].
Qed.

End IndexProperties.

(** ** The task loader, further *)

Lemma candidate_spec fs task_dir task_name t :
  Runner.candidate fs (task_dir, task_name) = Some t <->
  FS.exists_ fs (Path.join2 task_dir "start.py") = true
  /\ FS.exists_ fs (Path.join2 task_dir "instruction.txt") = true
  /\ t = Runner.mk_task_config task_name task_dir
           (Path.join2 task_dir "start.py") (Path.join2 task_dir "start.jpg")
           (Path.join2 task_dir "instruction.txt").
Proof.
  unfold Runner.candidate.
  destruct (FS.exists_ fs (Path.join2 task_dir "start.py"));
    destruct (FS.exists_ fs (Path.join2 task_dir "instruction.txt"));
    cbn [negb]; split; try discriminate; try (intros (? & ? & ?); discriminate).
  - intros [= <-]. auto.
  - intros (_ & _ & ->). reflexivity.
Qed.

Lemma filter_all_true {A : Type} (f : A -> bool) (l : list A) :
  (forall x, x ∈ l -> f x = true) -> List.filter f l = l.
Proof.
  induction l as [|x l IH]; intros H; simpl; [reflexivity|].
  rewrite (H x) by constructor. f_equal. apply IH.
  intros y Hy. apply H. constructor. exact Hy.
Qed.

(** X16. Without an item identifier the loader returns exactly the tasks
    of the entries named [slide_...] of the selected category directories
    that hold [start.py] and [instruction.txt], with the three paths of
    the task inside its directory; [start.jpg] is recorded and not asked
    for. *)
Theorem enumerated_tasks fs base_path task_name t :
  t ∈ Runner.load_autopresent_dataset fs base_path task_name None <->
  FS.exists_ fs base_path = true
  /\ exists task entries e,
       task ∈ (if String.eqb task_name "all" then categories else [task_name])
       /\ FS.listdir fs (Path.join2 base_path task) = Ok entries
       /\ e ∈ entries
       /\ Str.startswith e "slide_" = true
       /\ FS.exists_ fs (Path.join2 (Path.join2 (Path.join2 base_path task) e)
                                    "start.py") = true
       /\ FS.exists_ fs (Path.join2 (Path.join2 (Path.join2 base_path task) e)
                                    "instruction.txt") = true
       /\ t = Runner.mk_task_config task
                (Path.join2 (Path.join2 base_path task) e)
                (Path.join2 (Path.join2 (Path.join2 base_path task) e) "start.py")
                (Path.join2 (Path.join2 (Path.join2 base_path task) e) "start.jpg")
                (Path.join2 (Path.join2 (Path.join2 base_path task) e)
                            "instruction.txt").
Proof.
  unfold Runner.load_autopresent_dataset, Runner.task_dirs.
  destruct (FS.exists_ fs base_path); cbn [negb].
  2:{ split; [intros H; inversion H | intros [H _]; discriminate H]. }
  rewrite list_elem_of_omap. split.
  - intros ([task_dir task] & Hin & Hc). split; [reflexivity|].
    apply list_elem_of_In, in_flat_map in Hin as (task' & Htask & Hin).
    apply in_map_iff in Hin as (d & [= <- <-] & Hd).
    unfold Runner.glob_slide in Hd.
    destruct (FS.listdir fs (Path.join2 base_path task')) as [entries|] eqn:Hl;
      [|inversion Hd].
    apply in_map_iff in Hd as (e & <- & He). apply filter_In in He as [He Hpre].
    apply candidate_spec in Hc as (Hs & Hi & ->).
    exists task', entries, e. repeat split; try assumption;
      apply list_elem_of_In; assumption.
  - intros (_ & task & entries & e & Htask & Hl & He & Hpre & Hs & Hi & ->).
    exists (Path.join2 (Path.join2 base_path task) e, task). split.
    + apply list_elem_of_In, in_flat_map. exists task.
      split; [apply list_elem_of_In, Htask|].
      apply in_map_iff. exists (Path.join2 (Path.join2 base_path task) e).
      split; [reflexivity|]. unfold Runner.glob_slide. rewrite Hl.
      apply in_map_iff. exists e. split; [reflexivity|].
      apply filter_In. split; [apply list_elem_of_In, He | exact Hpre].
    + apply candidate_spec. auto.
Qed.

Lemma loaded_task_name fs base_path task_name task_id t :
  t ∈ Runner.load_autopresent_dataset fs base_path task_name task_id ->
  String.eqb task_name "all" = false ->
  Runner.task_name t = task_name.
Proof.
  unfold Runner.load_autopresent_dataset, Runner.task_dirs. intros H Hall.
  destruct (FS.exists_ fs base_path); cbn [negb] in H; [|inversion H].
  rewrite Hall in H.
  apply list_elem_of_omap in H as ([task_dir task] & Hin & Hc).
  apply candidate_spec in Hc as (_ & _ & ->). cbn [Runner.task_name].
  destruct task_id as [id|].
  - apply list_elem_of_singleton in Hin. congruence.
  - apply list_elem_of_In in Hin. simpl in Hin. rewrite app_nil_r in Hin.
    apply in_map_iff in Hin as (d & [= _ <-] & _). reflexivity.
Qed.

(** X17. The filter of [main] on the category never removes a task: the
    run dispatches exactly the tasks the loader returns, and ends with
    exit status 1 exactly when the loader returns none. *)
Theorem main_dispatches_loaded_tasks fs a :
  Runner.main_tasks fs a
  = match Runner.load_autopresent_dataset fs (Runner.dataset_path a)
            (Runner.task a) (Runner.task_id a) with
    | [] => Raise (SystemExit 1)
    | tasks => Ok tasks
    end.
Proof.
  unfold Runner.main_tasks.
  destruct (Runner.load_autopresent_dataset fs (Runner.dataset_path a)
              (Runner.task a) (Runner.task_id a)) as [|t tasks] eqn:Hload;
    [reflexivity|].
  destruct (String.eqb (Runner.task a) "all") eqn:Hall; cbn [negb]; [reflexivity|].
  rewrite filter_all_true; [reflexivity|].
  intros x Hx. rewrite <- Hload in Hx.
  rewrite (loaded_task_name _ _ _ _ _ Hx Hall). apply String.eqb_refl.
Qed.


(** ** The scheduler, further *)

Section SchedulerProperties.

Variable api_key : option string.
Variable sys_executable : string.
Variable str_Path : string -> string.
Variable mkdir : string -> option string.
Variable spawn : list string -> Runner.child.
Variable str_CalledProcessError : list string -> Z -> string.
Variable str_exn : exn -> string.

Local Abbreviation output_base := (Runner.output_base str_Path).
Local Abbreviation run_autopresent_task :=
  (Runner.run_autopresent_task api_key sys_executable str_Path mkdir spawn
                               str_CalledProcessError).
Local Abbreviation collect_future :=
  (Runner.collect_future api_key sys_executable str_Path mkdir spawn
                         str_CalledProcessError str_exn).
Local Abbreviation run_sequential :=
  (Runner.run_sequential api_key sys_executable str_Path mkdir spawn
                         str_CalledProcessError).
Local Abbreviation run_tasks_parallel :=
  (Runner.run_tasks_parallel api_key sys_executable str_Path mkdir spawn
                             str_CalledProcessError str_exn).
Local Abbreviation succeeded :=
  (Runner.succeeded api_key sys_executable str_Path mkdir spawn
                    str_CalledProcessError).
Local Abbreviation failure_detail :=
  (failure_detail api_key sys_executable str_Path mkdir spawn
                  str_CalledProcessError str_exn).

Lemma collect_future_detail a acc tc :
  Runner.failed_task_details (collect_future a acc tc)
  = Runner.failed_task_details acc ++ failure_detail a tc.
Proof.
  unfold Runner.collect_future, failure_detail, Runner.count_result.
  destruct (run_autopresent_task tc a) as [r|e]; [|reflexivity].
  destruct (Runner.tr_success r); simpl; [rewrite app_nil_r|]; reflexivity.
Qed.

Lemma collect_details a completion :
  forall acc,
    Runner.failed_task_details (foldl (collect_future a) acc completion)
    = Runner.failed_task_details acc
      ++ List.flat_map (failure_detail a) completion.
Proof.
  induction completion as [|tc rest IH]; intros acc; simpl.
  - rewrite app_nil_r. reflexivity.
  - rewrite IH, collect_future_detail, <- app_assoc. reflexivity.
Qed.

Lemma collect_counts a completion :
  forall acc,
    Runner.successful_tasks (foldl (collect_future a) acc completion)
    = (Runner.successful_tasks acc
       + length (filter (fun tc => succeeded a tc = true) completion))%nat
    /\ Runner.failed_tasks (foldl (collect_future a) acc completion)
       = (Runner.failed_tasks acc
          + length (List.flat_map (failure_detail a) completion))%nat.
Proof.
  induction completion as [|tc rest IH]; intros acc; simpl; [lia|].
  destruct (IH (collect_future a acc tc)) as [-> ->].
  rewrite filter_cons, length_app.
  unfold Runner.collect_future, Runner.succeeded, failure_detail,
    Runner.count_result.
  destruct (run_autopresent_task tc a) as [r|e]; [destruct (Runner.tr_success r)|];
    repeat case_decide; try congruence; simpl; lia.
Qed.

Lemma flat_map_Permutation {A B : Type} (f : A -> list B) (l1 l2 : list A) :
  l1 ≡ₚ l2 -> List.flat_map f l1 ≡ₚ List.flat_map f l2.
Proof.
  induction 1 as [|x l1 l2 _ IH|x y l|l1 l2 l3 _ IH1 _ IH2]; simpl.
  - reflexivity.
  - rewrite IH. reflexivity.
  - rewrite !app_assoc. apply Permutation_app_tail, Permutation_app_comm.
  - rewrite IH1. exact IH2.
Qed.

(** Without the key every task raises before its [try]. *)
Lemma run_without_key tc a :
  api_key = None ->
  run_autopresent_task tc a
  = Raise (raised_without_key mkdir (output_base tc a)).
Proof.
  intros Hkey. unfold Runner.run_autopresent_task, Runner.prepare,
    raised_without_key.
  destruct (mkdir (output_base tc a)); [reflexivity|].
  rewrite Hkey. reflexivity.
Qed.

(** A task returns exactly when its output directory can be made and the
    key is set. *)
Lemma task_returns_iff tc a :
  (exists r, run_autopresent_task tc a = Ok r)
  <-> is_Some api_key /\ mkdir (output_base tc a) = None.
Proof.
  unfold Runner.run_autopresent_task, Runner.prepare. split.
  - intros [r Hr]. destruct (mkdir (output_base tc a)); [discriminate Hr|].
    destruct api_key; [split; eauto | discriminate Hr].
  - intros [[key ->] ->]. cbn [of_option rbind].
    destruct (fst (Runner.subprocess_run 3600 _)); eauto.
Qed.

(** X18. With [OPENAI_API_KEY] unset no child is started: every task
    raises before its [try], the [OSError] of [mkdir] when its output
    directory cannot be made and the [TypeError] of the command line
    otherwise. The parallel scheduler counts every task as failed, with
    one detail for each under the last component of its directory and
    the text of that exception; the sequential loop stops on its first
    task with that exception and returns no count. Where the output
    directories can be made the exception is [TypeError] throughout. *)
Theorem without_api_key_nothing_runs a :
  api_key = None ->
  (forall max_workers completion,
      (0 < max_workers)%Z ->
      run_tasks_parallel a max_workers completion
      = Ok (Runner.mk_tally 0 (length completion)
              (List.map (fun tc =>
                           (Str.last_piece (Runner.task_dir tc) "/",
                            str_exn (raised_without_key mkdir
                                       (output_base tc a))))
                        completion)))
  /\ (forall acc tc rest,
        run_sequential a acc (tc :: rest)
        = Raise (raised_without_key mkdir (output_base tc a)))
  /\ (forall max_workers completion,
        (0 < max_workers)%Z ->
        (forall tc, tc ∈ completion -> mkdir (output_base tc a) = None) ->
        run_tasks_parallel a max_workers completion
        = Ok (Runner.mk_tally 0 (length completion)
                (List.map (fun tc => (Str.last_piece (Runner.task_dir tc) "/",
                                      str_exn TypeError)) completion)))
  /\ (forall acc tc rest,
        mkdir (output_base tc a) = None ->
        run_sequential a acc (tc :: rest) = Raise TypeError).
Proof.
  intros Hkey.
  assert (Hpar : forall max_workers completion,
      (0 < max_workers)%Z ->
      run_tasks_parallel a max_workers completion
      = Ok (Runner.mk_tally 0 (length completion)
              (List.map (fun tc =>
                           (Str.last_piece (Runner.task_dir tc) "/",
                            str_exn (raised_without_key mkdir
                                       (output_base tc a))))
                        completion))).
  { intros max_workers completion Hpos. unfold Runner.run_tasks_parallel.
    destruct (Z.leb_spec max_workers 0); [lia|]. f_equal.
    assert (Hfold : forall acc,
      foldl (collect_future a) acc completion
      = Runner.mk_tally (Runner.successful_tasks acc)
          (Runner.failed_tasks acc + length completion)
          (Runner.failed_task_details acc
           ++ List.map (fun tc =>
                          (Str.last_piece (Runner.task_dir tc) "/",
                           str_exn (raised_without_key mkdir
                                      (output_base tc a))))
                       completion)).
    { induction completion as [|tc rest IH]; intros acc; simpl.
      - rewrite app_nil_r, Nat.add_0_r. destruct acc; reflexivity.
      - rewrite IH. unfold Runner.collect_future.
        rewrite (run_without_key tc a Hkey). simpl.
        rewrite <- app_assoc. f_equal. lia. }
    rewrite Hfold. reflexivity. }
  split; [exact Hpar|]. split; [|split].
  - intros acc tc rest. simpl. rewrite (run_without_key tc a Hkey). reflexivity.
  - intros max_workers completion Hpos Hdirs. rewrite Hpar by exact Hpos.
    do 2 f_equal. apply map_ext_in. intros tc Hin.
    unfold raised_without_key. rewrite Hdirs; [reflexivity|].
    apply list_elem_of_In, Hin.
  - intros acc tc rest Hdir. simpl. rewrite (run_without_key tc a Hkey).
    unfold raised_without_key. rewrite Hdir. reflexivity.
Qed.

(** X19. When every task returns, which a task does exactly when the key
    is set and its output directory can be made, the sequential loop
    returns what the parallel scheduler returns when the tasks complete
    in the order of their submission: the two modes classify and count
    alike. When a task raises after tasks that return, the two modes
    part: the sequential loop ends with that exception, while the
    parallel scheduler returns and counts every task. *)
Theorem sequential_is_parallel_in_submission_order a tasks :
  ((forall tc, tc ∈ tasks -> exists r, run_autopresent_task tc a = Ok r) ->
   run_sequential a Runner.tally_init tasks
   = Ok (foldl (collect_future a) Runner.tally_init tasks)
   /\ ((0 < Runner.max_workers a)%Z ->
       run_sequential a Runner.tally_init tasks
       = run_tasks_parallel a (Runner.max_workers a) tasks))
  /\ (forall tc,
        (exists r, run_autopresent_task tc a = Ok r)
        <-> is_Some api_key /\ mkdir (output_base tc a) = None)
  /\ (forall before tc after e,
        tasks = before ++ tc :: after ->
        (forall tc', tc' ∈ before ->
                     exists r, run_autopresent_task tc' a = Ok r) ->
        run_autopresent_task tc a = Raise e ->
        run_sequential a Runner.tally_init tasks = Raise e
        /\ ((0 < Runner.max_workers a)%Z ->
            exists t,
              run_tasks_parallel a (Runner.max_workers a) tasks = Ok t
              /\ Runner.counted t = length tasks)).
Proof.
  split; [|split].
  - intros Hall.
    assert (Hseq : forall acc,
              run_sequential a acc tasks
              = Ok (foldl (collect_future a) acc tasks)).
    { induction tasks as [|tc rest IH]; intros acc; simpl; [reflexivity|].
      unfold Runner.collect_future.
      destruct (Hall tc) as [r ->]; [constructor|].
      simpl. apply IH. intros tc' Hin. apply Hall. constructor. exact Hin. }
    split; [apply Hseq|].
    intros Hpos. unfold Runner.run_tasks_parallel.
    destruct (Z.leb_spec (Runner.max_workers a) 0); [lia | apply Hseq].
  - intros tc. apply task_returns_iff.
  - intros before tc after e -> Hbefore He. split.
    + generalize Runner.tally_init.
      induction before as [|tc' rest IH]; intros acc; simpl.
      * rewrite He. reflexivity.
      * destruct (Hbefore tc') as [r ->]; [constructor|].
        simpl. apply IH. intros tc'' Hin. apply Hbefore. constructor. exact Hin.
    + intros Hpos. unfold Runner.run_tasks_parallel.
      destruct (Z.leb_spec (Runner.max_workers a) 0); [lia|].
      eexists. split; [reflexivity|].
      rewrite (collect_all api_key sys_executable str_Path mkdir spawn
                 str_CalledProcessError str_exn). reflexivity.
Qed.

(** X20. The order in which the parallel tasks complete changes neither
    count and only the order of the failure details: the details of two
    completion orders are permutations of each other, and there is one
    detail for every failed task. *)
Theorem completion_order_only_reorders_details a max_workers c1 c2 :
  c1 ≡ₚ c2 ->
  (0 < max_workers)%Z ->
  exists t1 t2,
    run_tasks_parallel a max_workers c1 = Ok t1
    /\ run_tasks_parallel a max_workers c2 = Ok t2
    /\ Runner.successful_tasks t1 = Runner.successful_tasks t2
    /\ Runner.failed_tasks t1 = Runner.failed_tasks t2
    /\ Runner.failed_task_details t1 ≡ₚ Runner.failed_task_details t2
    /\ length (Runner.failed_task_details t1) = Runner.failed_tasks t1.
Proof.
  intros Hperm Hpos. unfold Runner.run_tasks_parallel.
  destruct (Z.leb_spec max_workers 0); [lia|].
  eexists. eexists. split; [reflexivity|]. split; [reflexivity|].
  destruct (collect_counts a c1 Runner.tally_init) as [Hs1 Hf1].
  destruct (collect_counts a c2 Runner.tally_init) as [Hs2 Hf2].
  rewrite Hs1, Hs2, Hf1, Hf2, !collect_details. simpl.
  repeat split.
  - apply Permutation_length, filter_Permutation, Hperm.
  - apply Permutation_length, flat_map_Permutation, Hperm.
  - apply flat_map_Permutation, Hperm.
Qed.

End SchedulerProperties.

(** ** The further properties at concrete inputs *)

Lemma selected_round_is_first_maximum_witness :
  exists st,
    Gather.find_best_round Demo.float Demo.json_load Demo.fs_70_85_85
                           Demo.slide_dir = Ok st
    /\ Gather.best_round_num st = Some 2%nat
    /\ (1 <= 2 <= 10)%nat.
Proof.
  assert (H : exists st,
             Gather.find_best_round Demo.float Demo.json_load Demo.fs_70_85_85
                                    Demo.slide_dir = Ok st
             /\ Gather.best_round_num st = Some 2%nat)
    by (vm_compute; eexists; split; reflexivity).
  destruct H as (st & H & Hk). exists st. split; [exact H|]. split; [exact Hk|].
  exact (proj1 (selected_round_is_first_maximum Demo.float Demo.json_load
                  Demo.fs_70_85_85 Demo.slide_dir st 2%nat H Hk)).
Defined.

(** A round whose score is not a number is never selected, and does not
    keep a later round from being selected. *)
Lemma selected_round_is_a_number :
  exists st,
    Gather.find_best_round Demo.float Demo.json_load DemoMore.fs_nan
                           Demo.slide_dir = Ok st
    /\ Gather.best_round_num st = Some 2%nat
    /\ Gather.round_score Demo.float Demo.json_load DemoMore.fs_nan
                          Demo.slide_dir 1 = Ok (Some nan).
Proof. vm_compute. eexists. repeat split. Qed.

Lemma item_is_counted_once_witness :
  exists acc',
    Gather.gather_slide Demo.float Demo.json_load Demo.fs_70_85_85 "T"
                        "business" Gather.totals_init 1 = Ok acc'
    /\ Gather.total_num acc' = 1%nat.
Proof.
  assert (H : exists acc',
             Gather.gather_slide Demo.float Demo.json_load Demo.fs_70_85_85 "T"
                                 "business" Gather.totals_init 1 = Ok acc')
    by (vm_compute; eexists; reflexivity).
  destruct H as (acc' & H). exists acc'. split; [exact H|].
  exact (proj1 (proj2 (item_is_counted_once Demo.float Demo.json_load
                         Demo.fs_70_85_85 "T" "business" Gather.totals_init 1)
                      acc' H)).
Defined.

Lemma rounds_not_above_minus_one_are_never_selected_witness :
  Gather.find_best_round Demo.float Demo.json_load DemoMore.fs_negative
                         (Gather.slide_dir "T" "business" 1)
  = Ok Gather.best_init
  /\ Gather.round_complete DemoMore.fs_negative
                           (Gather.slide_dir "T" "business" 1) 1 = true.
Proof.
  split; [|vm_compute; reflexivity].
  refine (proj1 (rounds_not_above_minus_one_are_never_selected
                   Demo.float Demo.json_load DemoMore.fs_negative
                   "T" "business" Gather.totals_init 1 _ _)).
  - intros j Hj. round_cases j Hj; eexists; vm_compute; reflexivity.
  - intros j s Hj H. round_cases j Hj; vm_compute in H;
      try discriminate H; injection H as <-; vm_compute; reflexivity.
Defined.

Lemma round_error_aborts_item_witness :
  Gather.gather_slide Demo.float Demo.json_load DemoMore.fs_broken "T"
                      "business" Gather.totals_init 1
  = Raise IndexError
  /\ Gather.round_complete DemoMore.fs_broken
                           (Gather.slide_dir "T" "business" 1) 2 = true.
Proof.
  split; [|vm_compute; reflexivity].
  refine (proj1 (proj2 (round_error_aborts_item Demo.float Demo.json_load
                   DemoMore.fs_broken "T" "business" Gather.totals_init 1 1
                   IndexError _ _ _))).
  - lia.
  - intros j Hj. lia.
  - vm_compute. reflexivity.
Defined.

Lemma metric_line_without_separator_raises_witness :
  Gather.parse_line Demo.float Gather.ref_eval_zero "match 85" = Raise IndexError.
Proof.
  refine (proj1 (metric_line_without_separator_raises Demo.float
                   Gather.ref_eval_zero "match 85" _ _)).
  - exists Gather.Match. vm_compute. reflexivity.
  - vm_compute. reflexivity.
Defined.

Lemma gather_results_70_85_85 :
  exists out,
    Gather.gather_results Demo.float Demo.json_load Demo.pptx_slides
                          Demo.fs_70_85_85 "T" "business" = Ok out.
Proof. vm_compute. eexists. reflexivity. Defined.

Lemma reported_counts_witness :
  exists out,
    Gather.gather_results Demo.float Demo.json_load Demo.pptx_slides
                          Demo.fs_70_85_85 "T" "business" = Ok out
    /\ Gather.printed_total out
       = item_count Demo.pptx_slides Demo.fs_70_85_85 ["business"].
Proof.
  destruct gather_results_70_85_85 as [out H]. exists out. split; [exact H|].
  exact (proj1 (reported_counts Demo.float Demo.json_load Demo.pptx_slides
                  Demo.fs_70_85_85 "T" "business" out H)).
Defined.


(** A round named by a superscript digit ends the dispatch of its item
    with [ValueError] before anything is scored. *)
Lemma dispatcher_raises_on_superscript_round :
  Evaluate.evaluate_single_slide Demo.page_eval Demo.reference_free_eval
    DemoMore.fs_superscript "output/autopresent/T/business" 1
  = (DemoMore.fs_superscript, Raise ValueError).
Proof. vm_compute. reflexivity. Qed.

Lemma dispatcher_never_completes_a_round_witness :
  Gather.round_complete
    (fst (Evaluate.evaluate_single_slide Demo.page_eval Demo.reference_free_eval
            Demo.fs_unscored "output/autopresent/T/business" 1))
    Demo.slide_dir 1 = false.
Proof.
  apply (proj1 (dispatcher_never_completes_a_round Demo.page_eval
                  Demo.reference_free_eval Demo.fs_unscored
                  "output/autopresent/T/business" 1 Demo.slide_dir)).
  vm_compute. reflexivity.
Defined.

Lemma nothing_to_score_changes_nothing_witness :
  Evaluate.evaluate_single_slide Demo.page_eval Demo.reference_free_eval
    Demo.fs_partial "output/autopresent/T/business" 7
  = (Demo.fs_partial, Ok 7%nat).
Proof.
  apply (proj1 (nothing_to_score_changes_nothing Demo.page_eval
                  Demo.reference_free_eval Demo.fs_partial
                  "output/autopresent/T/business" 7)).
  eexists. vm_compute. reflexivity.
Defined.


Lemma entry_without_underscore_raises_witness :
  EvaluateMain.index_list DemoMore.int DemoMore.fs_output_logs "T" "business"
  = Raise IndexError.
Proof.
  apply (entry_without_underscore_raises DemoMore.int DemoMore.fs_output_logs
           "T" "business" ["slide_2"; "logs"; "slide_1"] "logs").
  - vm_compute. reflexivity.
  - repeat constructor.
  - reflexivity.
  - reflexivity.
Defined.

Lemma slide_indices_sorted_witness :
  EvaluateMain.index_list DemoMore.int DemoMore.fs_output "T" "business"
  = Ok [1%Z; 2%Z]
  /\ Sorted Z.le [1%Z; 2%Z].
Proof.
  assert (H : EvaluateMain.index_list DemoMore.int DemoMore.fs_output "T"
                                      "business" = Ok [1%Z; 2%Z])
    by (vm_compute; reflexivity).
  split; [exact H|].
  exact (proj1 (slide_indices_sorted DemoMore.int DemoMore.fs_output "T"
                  "business" [1%Z; 2%Z] H)).
Defined.

Lemma enumerated_tasks_witness :
  Demo.task_slide_1
  ∈ Runner.load_autopresent_dataset Demo.fs_dataset Demo.dataset "business" None.
Proof.
  apply (proj2 (enumerated_tasks Demo.fs_dataset Demo.dataset "business"
                  Demo.task_slide_1)).
  split; [vm_compute; reflexivity|].
  exists "business", ["slide_1"; "business.pptx"], "slide_1".
  repeat split; try (vm_compute; reflexivity); repeat constructor.
Defined.

Lemma without_api_key_nothing_runs_witness :
  Runner.run_tasks_parallel None "python" Demo.str_Path Demo.mkdir_denied
    Demo.spawn_ok Demo.str_CalledProcessError Demo.str_exn
    (Demo.args_business None false) 10
    [Demo.task_slide_1; Demo.task_slide_2]
  = Ok (Runner.mk_tally 0 2
          [("slide_1",
            "[Errno 13] Permission denied: 'output/autopresent/T/business/slide_1'");
           ("slide_2",
            "[Errno 13] Permission denied: 'output/autopresent/T/business/slide_2'")]).
Proof.
  rewrite (proj1 (without_api_key_nothing_runs None "python" Demo.str_Path
                    Demo.mkdir_denied Demo.spawn_ok
                    Demo.str_CalledProcessError Demo.str_exn
                    (Demo.args_business None false) eq_refl)) by lia.
  vm_compute. reflexivity.
Defined.

Lemma sequential_is_parallel_in_submission_order_witness :
  Runner.run_sequential (Some "sk") "python" Demo.str_Path Demo.mkdir
    Demo.spawn_mixed Demo.str_CalledProcessError
    (Demo.args_business None true)
    Runner.tally_init [Demo.task_slide_1; Demo.task_slide_2]
  = Runner.run_tasks_parallel (Some "sk") "python" Demo.str_Path Demo.mkdir
      Demo.spawn_mixed Demo.str_CalledProcessError Demo.str_exn
      (Demo.args_business None true) 10
      [Demo.task_slide_1; Demo.task_slide_2].
Proof.
  refine (proj2 (proj1 (sequential_is_parallel_in_submission_order
                   (Some "sk") "python" Demo.str_Path Demo.mkdir
                   Demo.spawn_mixed Demo.str_CalledProcessError Demo.str_exn
                   (Demo.args_business None true)
                   [Demo.task_slide_1; Demo.task_slide_2]) _) _).
  - intros tc Htc.
    apply elem_of_cons in Htc as [->|Htc];
      [|apply list_elem_of_singleton in Htc as ->];
      eexists; vm_compute; reflexivity.
  - vm_compute. reflexivity.
Defined.

Lemma completion_order_only_reorders_details_witness :
  exists t1 t2,
    Runner.run_tasks_parallel (Some "sk") "python" Demo.str_Path Demo.mkdir
      Demo.spawn_mixed Demo.str_CalledProcessError Demo.str_exn
      (Demo.args_business None false) 10
      [Demo.task_slide_1; Demo.task_slide_2] = Ok t1
    /\ Runner.run_tasks_parallel (Some "sk") "python" Demo.str_Path Demo.mkdir
         Demo.spawn_mixed Demo.str_CalledProcessError Demo.str_exn
         (Demo.args_business None false)
         10 [Demo.task_slide_2; Demo.task_slide_1] = Ok t2
    /\ Runner.failed_tasks t1 = Runner.failed_tasks t2.
Proof.
  destruct (completion_order_only_reorders_details (Some "sk") "python"
              Demo.str_Path Demo.mkdir
              Demo.spawn_mixed Demo.str_CalledProcessError Demo.str_exn
              (Demo.args_business None false) 10
              [Demo.task_slide_1; Demo.task_slide_2]
              [Demo.task_slide_2; Demo.task_slide_1])
    as (t1 & t2 & H1 & H2 & _ & Hf & _).
  - apply perm_swap.
  - lia.
  - exists t1, t2. auto.
Defined.
